(* ===== verification/_CoqProject ===== *)
-Q . S2P
Prelude.v
Text.v
Runs.v
Python.v
Env.v
Store.v
Reference.v
Ledger.v
Source.v
Protocol.v
Pipeline.v
Refinement.v
Monitor.v
Outcomes.v
Errors.v
Loop.v
Calls.v
Settlement.v
Provenance.v
Isolation.v
Forever.v
Alike.v
Worker.v
Scenarios.v
Cases.v
