(* ===== verification/Prelude.v ===== *)
(** * Verification of the Maniifold oracle worker (src/Oracle/worker.py)

    ** The program

    [worker.py] is the settlement agent of a prediction market deployed on
    Aleo.  It has five parts:

    - the start-up (lines 1-12, 160-161): the imports, [load_dotenv] of the
      [.env] file beside the module, the module globals [ORACLE_PRIVATE_KEY] and
      [ALEO_NODE_URL] read once from the environment, and the call of
      [main] when the module is the program;
    - the outcome source [fetch_eth_staking_data] (lines 15-45): a floating
      point computation of the ETH staking rate, wrapped in [try/except];
    - the transaction pipeline [resolve_market] (lines 48-126): a guard on the
      configuration, then a strictly sequential chain of Aleo SDK calls (load
      the program, authorize, execute and prove, verify, the same for the fee,
      assemble) followed by one HTTP POST, all inside one [try/except
      Exception] that turns every failure into the return value [False];
    - the resolution loop [main] (lines 129-157): forever, read the pending
      markets and the clock, and for each market whose deadline has passed
      fetch the measurement, decide the winning option, run the pipeline and,
      only when it returned [True], mark the market resolved;
    - the market store [db], which is not under [src/]: the loop reads the
      pending rows from it and marks in it the markets it resolved.

    Everything else the program touches is outside [src/] too: [os],
    [dotenv], the [aleo] SDK, the [requests] library, the console and the
    clock.

    ** How it is modelled

    Python statements become programs of a small monad [io] (this file): a
    program takes the state of the outside world and gives back an [outcome]
    (the value returned, or the exception raised), the new state, and the
    list of external calls it made, in order.  Exceptions are values:
    [Exception] is what [except Exception] catches, [BaseException] (a
    keyboard interrupt, [SystemExit]) is what it lets through.  Effects are
    never rolled back when a statement raises.

    - [Prelude] (this file): [exn], [outcome], the [io] monad with
      [io_try_except], [for_each] (a Python [for] over a list) and [loop_n]
      (the first [n] rounds of [while True]); pointwise equivalence of
      programs with its [Proper] instances; counting and guarding predicates
      on traces; the class [TraceClosed] of trace properties that hold of a
      program as soon as they hold of each of its calls, with the tactic
      [closed_run] that walks a program with it; the hint databases of
      the development ([io] for [auto], [trace] and [monad] for
      [autorewrite]).
    - [Text]: [str.strip] (line 118) on the characters of a UTF-8 text:
      [chars], [codepoint], the table of white space [is_space], [strip].
    - [Runs]: the same for relations between the state before, the trace and
      the state after ([RunClosed], [runs]), for the number of events of a
      kind ([bounded]) and for returning ([total], [gentle]); each with its
      rules for sequencing, [try/except], [for] and the loop, and a tactic
      that takes a program apart with them ([runs_walk], [bounded_walk],
      [total_walk]); the [passes] of a [for], the runs of its body one
      after the other.
    - [Python]: the built-ins the worker uses.  [float] is the primitive
      binary64 float of the kernel: true division of integers,
      multiplication by an integer, [>=], [int()], the [.2f] format;
      truthiness of a setting.
    - [Env]: the interface to the outside world.  [call] has one constructor
      per external function the source calls (the import of a module,
      [os.path.dirname],
      [os.path.join], [load_dotenv], [os.getenv], the SDK methods,
      [requests.post], [print], [time.time], [time.sleep], the three
      functions of [db]); the SDK's classes are the abstract types of
      [SdkTypes]; an [Env] is a state type with a handler that answers each
      call with an [outcome]; [exec] performs a call and records it as an
      [event].
    - [Store]: the contract of the [db] module.  [store] is the list of rows
      with their status, [get_pending_markets] and [mark_resolved] its two
      operations; the class [StoreLaws] says what it means for an
      environment to hold such a store: [db.get_pending_markets()] returns
      its pending rows, and the store changes by the [db.mark_resolved]
      that return and by nothing else.
    - [Reference]: a concrete [Env] (environment variables and [.env] file,
      store, clock, console, node, textual SDK objects) in which a [script]
      picks the status the node answers, the call that raises, and whether
      the node can be reached; it is an instance of [StoreLaws].
    - [Ledger]: the invariant of the settlement as a ledger over the trace,
      [credit]/[paid] (an accepted POST earns a credit, a mark spends one),
      and its specification by counting over prefixes, [paid_spec].
    - [Source]: [fetch_eth_staking_data].
    - [Protocol]: the specification of the pipeline, a state machine whose
      [stage]s hold the values obtained so far and whose [step]s are the
      calls allowed at each stage; a call that raises leads to [Failed],
      where only prints are allowed.
    - [Pipeline]: [resolve_market], stage by stage as the comments of the
      source number them ([setup], [load_program], [authorize_resolution],
      [execute_and_prove], [handle_fees], [create_and_broadcast]), its
      [except] clause and its guard.
    - [Refinement], [Outcomes]: the theorems on [resolve_market].
    - [Errors]: what a failed resolution reports: the calls that count as
      failures ([failed], [first_failure]), the line the code prints for
      one ([diagnostic], lines 120-125), and the errors of the
      specification by the stage of the call ([pipeline_error],
      [error_of]), which the code does not compute.
    - [Monitor]: the machine of [Protocol] as a function ([step_fun],
      [steps_fun]), for an SDK whose values can be compared ([SdkEq]).
    - [Loop]: the decision rule [decide_winning_option], the body of
      [main]'s [for] ([process_market], [resolve_due_market]), one round of
      [while True] ([main_iteration]) and [main] for [n] rounds.
    - [Provenance]: what stands behind a mark in the trace of [main]
      ([last_read], [resolved_as]): the trace predicates that read back
      the conditions under which line 147 is reached.
    - [Calls]: what follows from the worker being built from its calls: a
      closed relation every call is in holds of every function; the number
      of calls of each function; the failures [main] survives; the marks
      and the accepted transactions counted against each other
      ([settled]).
    - [Settlement]: the loop in an environment with [StoreLaws].
    - [Isolation]: the [for] of a round as the handlings of its due rows
      ([due_rows], [handlings]).
    - [Alike]: environments that answer every call alike
      ([Bisimulation]), and programs that run alike in them ([uniform]),
      with the rules for sequencing, [try/except], [for] and the loop.
    - [Forever]: [main] with its [while True] as it is written: an
      interaction tree ([main_forever], built with [ITree.iter]) whose
      events are the calls of the worker and which returns only the
      exception that ends it; [observes] is what is seen of a tree in
      finitely many steps, [ends] how it ends.
    - [Worker]: the start-up ([imports], [load_config]), the module
      [worker] with the rounds of [main] bounded, and [program], the
      module run as the program with the [main] that does not return.
    - [Scenarios], [Cases]: the worker run in the reference environment: the
      scenarios of the specification, runs with one injected fault, runs
      that show where a hypothesis is needed, and the application of each
      theorem with hypotheses to a concrete run.

    ** What is proved

    - [Prelude], [Runs]: the monad laws, the behaviour of [io_try_except]
      on each kind of outcome, the rules of the closed properties.
    - [Text]: cutting a string into characters loses no byte; [strip]
      removes white space at the two ends, of ASCII and of Unicode, and
      nothing else, and what it leaves neither begins nor ends with white
      space.
    - [Python]: the rounding of the decimal printer is to nearest, ties to
      even; [>=] is false on NaN and the negation of [<] elsewhere.
    - [Store]: the pending rows after a mark are the pending rows of the
      other markets; marks commute, are idempotent and keep the ids; along
      a trace, a market marked is never pending again.
    - [Ledger]: [paid] is equivalent to [paid_spec].
    - [Source]: the measurement is one fixed double, strictly below the
      exact percentage 28.75 though it prints as 28.75; the function only
      prints, and returns [None] only when a print raised.
    - [Protocol]: the machine is deterministic; invariants by induction on
      its runs: at most one POST; what is posted was assembled from an
      execution and a fee verified before, the fee against the id of that
      execution; after a raise or a POST only prints follow; no call to the
      store.
    - [Refinement]: for every handler, the trace of [resolve_market] is a
      run of the machine from [Init], and [True] is returned only from an
      accepted broadcast.  The properties of the pipeline are corollaries
      of the machine's invariants.
    - [Monitor]: [steps_fun] reaches a stage on a trace exactly when
      [steps] does, so that a trace is compared with the protocol by
      evaluation; every trace of [resolve_market] is accepted.
    - [Outcomes]: the result on each path: [True] with the exact trace of
      32 calls when the node answers 200, [False] on another status, the
      exceptions that can escape; while the console answers, [True] is
      returned exactly when the node accepted a transaction.
    - [Errors]: [resolve_market] returns [True] exactly when the settings
      are present and no call of the run failed; a [False] comes after
      one failed call, reported by one print whose line is made of the
      message of the exception or of the text of the answer, and names
      neither the market nor the stage.
    - [Loop]: the decision rule (ties, NaN, the tie lost to rounding); for
      every handler and every number of rounds, each [mark_resolved] is
      preceded by an accepted POST of its own; only due markets of the
      pending list are marked; the [for] with the deadline test inside is
      the [for] over the due rows; a due market is marked exactly once when
      nothing fails.
    - [Provenance]: before every [db.mark_resolved(id)] of a run of [main]
      stand the calls of a run of [resolve_market] that returned [True]
      for [id] and for the option decided against the threshold of a row
      of [id]; the row was listed by the last reading of the store, and
      was due at the last reading of the clock.
    - [Calls]: [resolve_market] makes at most 33 calls and the handling of
      a market at most 39; when the console, the clock and the store answer
      and nothing raises a [BaseException], [main] returns from every round
      whatever the SDK and the network do; and then the markets marked are
      as many as the transactions accepted.
    - [Settlement]: with [StoreLaws], the store after a run of [main] is the
      store before it with the marks of the trace, and stays well formed;
      a market is marked at most once over all the rounds when the id is a
      key of the store; a round in which nothing fails leaves no due market
      pending; marking then listing gives the list without the market; a
      round makes at most [3 + 39 * k] calls on a store of [k] markets.
    - [Isolation]: while the console, the clock and the store answer and
      nothing interrupts, every due row of a round is handled to the end,
      in the order of the list, whatever failed for the rows before it,
      and a handling marks no market but its own.
    - [Alike]: every function of the worker, [main] included, runs alike
      in environments that answer alike: the worker keeps no state of its
      own between calls; each function is [Proper] for a bisimulation of
      the states of one environment.
    - [Forever]: what is seen of [main_forever] is what [main cfg n] does
      for some [n], and it ends as [main cfg n] ends for some [n]; so the
      ledger and the provenance of the marks hold of the worker that never
      stops, and while the console, the clock and the store answer it
      never ends.
    - [Worker]: the settings are what [os.getenv] answered, asked once,
      after [load_dotenv]; a start-up that fails ends the module before
      [main]; the ledger of the whole module is balanced; what is seen of
      [program] is what [worker] does for some number of rounds.
    - [Scenarios], [Cases]: scenarios A and D of the specification; two
      runs in which a failure after an accepted broadcast leaves the market
      pending; a store with one id on two rows, in which the market is
      resolved twice; a node that cannot be reached; the longest run of the
      pipeline; traces the protocol machine accepts and refuses when
      evaluated; the module started with and without settings; two
      failures at different stages for different markets that print the
      same diagnostic; a market handled after the pipeline failed for the
      one before it; worlds that differ in what the worker never reads.

    ** Bounds

    [while True] does not terminate; [main cfg n] is its first [n] rounds,
    and the theorems about it hold for every [n] (a raise in a round ends
    the run, as in Python).  That this is enough is a theorem of
    [Forever]: the loop that does not end shows, in finitely many steps,
    what some [main cfg n] shows, and ends as some [main cfg n] ends.  No
    other definition needs fuel: every other function of the worker makes
    a number of calls bounded by its text ([Calls]).  Integers are
    unbounded, as in Python.  Floats are binary64
    with round-to-nearest-even, as in CPython; [int / int] rounds the
    exact quotient once, for integers of any size.  Strings are
    sequences of bytes, the UTF-8 encoding of Python's text; [strip]
    works on the characters they encode.

    ** Not modelled

    The behaviour of [os], [dotenv], the SDK, the network node, the console
    and the clock is not fixed: theorems quantify over every handler, or
    name the answers of the handler they need.  The store is constrained by
    [StoreLaws] only where a theorem says so; a [db.mark_resolved] that
    raises is taken to leave the store as it was, and [db.init_db] to change
    no row.  An [import] is a call that returns or raises: what the
    imported module does when it is loaded is part of the environment.
    Values have the types the specification gives them (a row is a string,
    an integer, a float and a string): the errors Python raises on values
    of other types are not modelled.  The persistence of the store across
    restarts of the process is not modelled.  Every call is answered, by a
    value or by an exception: a call that never returns (the source gives
    [requests.post] no timeout) is outside the model, and the theorems on
    progress are about environments that answer.

    ** Left open

    The functions below [main] are programs of [io], run against a handler;
    only the loop is an interaction tree, and its events are the calls
    already answered.  The values of the SDK are abstract, so the trace
    ties a transaction to its market through the calls that built it, not
    through its content: that no market has two accepted transactions is
    stated through the marks only.  The errors of the specification are
    given to the calls by their stage; the specification names none for a
    setting that is present but refused by the SDK, nor for the assembling
    of the transaction. *)

From Stdlib Require Import ZArith.
From stdpp Require Import base tactics option list strings.


(** ** Exceptions and outcomes *)

(** A raised Python exception, with the text [str(e)] gives.  [Exception] is
    the class [except Exception] catches; [BaseException] stands for the
    ones it does not (KeyboardInterrupt, SystemExit). *)
Inductive exn : Type :=
| Exception (msg : string)
| BaseException (msg : string).

(** What evaluating a Python expression or statement gives. *)
Inductive outcome (A : Type) : Type :=
| Returns (a : A)
| Raises (e : exn).
Arguments Returns {A} a.
Arguments Raises {A} e.

#[export] Instance exn_eq_dec : EqDecision exn.
Proof. solve_decision. Defined.

#[export] Instance outcome_eq_dec `{EqDecision A} : EqDecision (outcome A).
Proof. solve_decision. Defined.

Definition returned {A} (r : outcome A) : bool :=
  match r with Returns _ => true | Raises _ => false end.

Definition outcome_exn {A} (r : outcome A) : option exn :=
  match r with Returns _ => None | Raises e => Some e end.

Definition caught (e : exn) : bool :=
  match e with Exception _ => true | BaseException _ => false end.

Definition outcome_map {A B} (f : A -> B) (r : outcome A) : outcome B :=
  match r with Returns a => Returns (f a) | Raises e => Raises e end.

(** ** The monad of effectful programs *)

(** A program over world states [W] that makes external calls recorded as
    events of type [Ev]. *)
Definition io (W Ev A : Type) : Type := W -> outcome A * W * list Ev.

Section Monad.
Context {W Ev : Type}.
Local Abbreviation io := (io W Ev).

Definition io_ret {A} (a : A) : io A := fun s => (Returns a, s, []).

Definition io_raise {A} (e : exn) : io A := fun s => (Raises e, s, []).

(** A pure expression that returns or raises. *)
Definition io_lift {A} (r : outcome A) : io A := fun s => (r, s, []).

Definition io_bind {A B} (m : io A) (f : A -> io B) : io B :=
  fun s =>
    let '(r, s1, t1) := m s in
    match r with
    | Returns a => let '(r2, s2, t2) := f a s1 in (r2, s2, t1 ++ t2)
    | Raises e => (Raises e, s1, t1)
    end.

(** [try: body / except Exception as e: handler(str(e))]. *)
Definition io_try_except {A} (body : io A) (handler : string -> io A) : io A :=
  fun s =>
    let '(r, s1, t1) := body s in
    match r with
    | Raises (Exception msg) =>
        let '(r2, s2, t2) := handler msg s1 in (r2, s2, t1 ++ t2)
    | _ => (r, s1, t1)
    end.

(** [for x in xs: body(x)]. *)
Fixpoint for_each {A} (xs : list A) (body : A -> io unit) : io unit :=
  match xs with
  | [] => io_ret tt
  | x :: xs' => io_bind (body x) (fun _ => for_each xs' body)
  end.

(** The first [n] rounds of [while True: body]. *)
Fixpoint loop_n (n : nat) (body : io unit) : io unit :=
  match n with
  | O => io_ret tt
  | S n' => io_bind body (fun _ => loop_n n' body)
  end.

Definition result_of {A} (x : outcome A * W * list Ev) : outcome A := x.1.1.
Definition state_of {A} (x : outcome A * W * list Ev) : W := x.1.2.
Definition trace_of {A} (x : outcome A * W * list Ev) : list Ev := x.2.

(** Two programs are equivalent when they agree on every start state. *)
Definition io_eq {A} (p q : io A) : Prop := forall s, p s = q s.

(** [post m s Q]: running [m] from [s] ends in an outcome, a state and a
    trace that satisfy [Q]. *)
Definition post {A} (m : io A) (s : W) (Q : outcome A -> W -> list Ev -> Prop) : Prop :=
  let '(r, s', t) := m s in Q r s' t.

(** Number of events of a trace that satisfy [p]. *)
Definition count_ev (p : Ev -> bool) (t : list Ev) : nat := length (List.filter p t).

(** Every event satisfying [q] comes after some event satisfying [p];
    [seen] says whether a [p] event came before the trace. *)
Fixpoint guarded_from (seen : bool) (p q : Ev -> bool) (t : list Ev) : bool :=
  match t with
  | [] => true
  | e :: t' => (negb (q e) || seen) && guarded_from (seen || p e) p q t'
  end.

Definition guarded_by (p q : Ev -> bool) (t : list Ev) : bool :=
  guarded_from false p q t.

(** A property of traces that holds of the empty trace and of the
    concatenation of two traces that have it: what sequencing preserves. *)
Class TraceClosed (P : list Ev -> Prop) : Prop := {
  closed_nil : P [];
  closed_app : forall t1 t2, P t1 -> P t2 -> P (t1 ++ t2);
}.

End Monad.

Declare Scope io_scope.
Delimit Scope io_scope with io.
Notation "x <- m ;; k" := (io_bind m (fun x => k))
  (at level 100, m at next level, right associativity) : io_scope.
Notation "m ;; k" := (io_bind m (fun _ => k))
  (at level 100, right associativity) : io_scope.
Infix "≡io" := io_eq (at level 70, no associativity) : io_scope.

(** ** Tactics *)

(** Name the three components of every run that blocks the goal. *)
Ltac destruct_runs :=
  repeat match goal with
  | |- context [match ?x with (_, _) => _ end] =>
      let r := fresh "r" in let s := fresh "s" in let t := fresh "t" in
      destruct x as [[r s] t] eqn:?
  | H : context [match ?x with (_, _) => _ end] |- _ =>
      let r := fresh "r" in let s := fresh "s" in let t := fresh "t" in
      destruct x as [[r s] t] eqn:?
  end.

(** Case analysis on the outcome or exception a [match] of the goal looks at. *)
Ltac destruct_outcomes :=
  repeat match goal with
  | |- context [match ?r with Returns _ => _ | Raises _ => _ end] =>
      is_var r; destruct r
  | |- context [match ?e with Exception _ => _ | BaseException _ => _ end] =>
      is_var e; destruct e
  end.

(** Evaluate the concatenations of string literals in the goal. *)
Ltac eval_strings :=
  repeat match goal with
  | |- context [String.app ?a ?b] =>
      let v := eval vm_compute in (String.app a b) in
      progress change (String.app a b) with v
  end.

Ltac io_unfold :=
  unfold post, io_eq, io_bind, io_try_except, io_ret, io_raise, io_lift,
    result_of, state_of, trace_of in *.

(** Unfold the monad, split every run, and close what simplification closes. *)
Ltac io_crush :=
  intros; io_unfold; simpl in *;
  repeat (destruct_runs; destruct_outcomes; simpl in *; simplify_eq);
  rewrite ?app_nil_r, ?app_nil_l, <- ?app_assoc in *; try done.

(** The databases of the development: [io] collects, for [auto], the rules
    that tell of a program what holds of its parts; [trace] the equations
    that count the events of a trace built with [::] and [++]; [monad] the
    laws of the monad as simplifications. *)
Create HintDb io discriminated.
Create Rewrite HintDb trace.
Create Rewrite HintDb monad.

(** ** Laws of the monad *)

Section Laws.
Context {W Ev : Type}.
Local Abbreviation io := (io W Ev).
Local Open Scope io_scope.

#[export] Instance io_eq_equiv {A} : Equivalence (@io_eq W Ev A).
Proof.
  split; [intros p s | intros p q H s | intros p q r H1 H2 s]; [done | done |].
  by rewrite H1.
Qed.

#[export] Instance io_bind_proper {A B} :
  Proper (io_eq ==> pointwise_relation A io_eq ==> io_eq) (@io_bind W Ev A B).
Proof.
  intros m m' Hm f f' Hf s. unfold io_bind. rewrite Hm.
  destruct (m' s) as [[[a|e] s1] t1]; [|done]. by rewrite (Hf a s1).
Qed.

#[export] Instance io_try_except_proper {A} :
  Proper (io_eq ==> pointwise_relation string io_eq ==> io_eq)
    (@io_try_except W Ev A).
Proof.
  intros m m' Hm h h' Hh s. unfold io_try_except. rewrite Hm.
  destruct (m' s) as [[[a|[msg|msg]] s1] t1]; [done| |done]. by rewrite (Hh msg s1).
Qed.

Lemma io_bind_ret_l {A B} (a : A) (f : A -> io B) : (x <- io_ret a ;; f x) ≡io f a.
Proof. intros s. io_crush. Qed.

Lemma io_bind_ret_r {A} (m : io A) : (x <- m ;; io_ret x) ≡io m.
Proof. intros s. io_crush. Qed.

Lemma io_bind_assoc {A B C} (m : io A) (f : A -> io B) (g : B -> io C) :
  (y <- (x <- m ;; f x) ;; g y) ≡io (x <- m ;; y <- f x ;; g y).
Proof. intros s. io_crush. Qed.

Lemma io_bind_raise {A B} (e : exn) (f : A -> io B) : (x <- io_raise e ;; f x) ≡io io_raise e.
Proof. intros s. io_crush. Qed.

(** [try] around a body that returns is the body. *)
Lemma io_try_except_returns {A} (body : io A) (h : string -> io A) s a s' t :
  body s = (Returns a, s', t) -> io_try_except body h s = (Returns a, s', t).
Proof. intros H. unfold io_try_except. by rewrite H. Qed.

(** An [Exception] is handed to the handler, with the effects of the body kept. *)
Lemma io_try_except_caught {A} (body : io A) (h : string -> io A) s msg s1 t1 :
  body s = (Raises (Exception msg), s1, t1) ->
  io_try_except body h s =
    (result_of (h msg s1), state_of (h msg s1), t1 ++ trace_of (h msg s1)).
Proof. intros H. unfold io_try_except. rewrite H. by destruct (h msg s1) as [[??]?]. Qed.

(** A [BaseException] goes through [except Exception]. *)
Lemma io_try_except_uncaught {A} (body : io A) (h : string -> io A) s msg s1 t1 :
  body s = (Raises (BaseException msg), s1, t1) ->
  io_try_except body h s = (Raises (BaseException msg), s1, t1).
Proof. intros H. unfold io_try_except. by rewrite H. Qed.

(** When the handler returns, [try/except Exception] raises only what it
    does not catch. *)
Lemma io_try_except_raises {A} (body : io A) (h : string -> io A) s e :
  (forall msg s1, returned (result_of (h msg s1)) = true) ->
  result_of (io_try_except body h s) = Raises e -> caught e = false.
Proof.
  intros Hh. unfold io_try_except.
  destruct (body s) as [[[a|[msg|msg]] s1] t1]; simpl; [done| |by intros [= <-]].
  specialize (Hh msg s1). destruct (h msg s1) as [[[]?]?]; naive_solver.
Qed.

(** *** Traces *)

Lemma count_ev_nil (p : Ev -> bool) : count_ev p [] = 0.
Proof. done. Qed.

Lemma count_ev_cons (p : Ev -> bool) (e : Ev) (t : list Ev) :
  count_ev p (e :: t) = (if p e then 1 else 0) + count_ev p t.
Proof. unfold count_ev. simpl. by destruct (p e). Qed.

Lemma count_ev_app (p : Ev -> bool) (t1 t2 : list Ev) :
  count_ev p (t1 ++ t2) = count_ev p t1 + count_ev p t2.
Proof. unfold count_ev. by rewrite List.filter_app, length_app. Qed.

(** A narrower kind of event is counted less often. *)
Lemma count_ev_le (p q : Ev -> bool) (t : list Ev) :
  (forall e, p e = true -> q e = true) -> count_ev p t <= count_ev q t.
Proof.
  intros Hpq. induction t as [|e t IH]; [done|]. rewrite !count_ev_cons.
  specialize (Hpq e). destruct (p e), (q e); try lia; discriminate (Hpq eq_refl).
Qed.

(** A trace holds no event of a kind exactly when the kind is absent from
    every position. *)
Lemma count_ev_zero (p : Ev -> bool) (t : list Ev) :
  count_ev p t = 0 <-> forallb (fun e => negb (p e)) t = true.
Proof.
  induction t as [|e t IH]; [done|]. rewrite count_ev_cons. simpl.
  destruct (p e); simpl; [split; [lia | done] | done].
Qed.

Lemma guarded_from_app (seen : bool) (p q : Ev -> bool) (t1 t2 : list Ev) :
  guarded_from seen p q (t1 ++ t2) =
  guarded_from seen p q t1 && guarded_from (seen || existsb p t1) p q t2.
Proof.
  revert seen. induction t1 as [|e t1 IH]; intros seen; simpl.
  - by rewrite orb_false_r.
  - rewrite IH. by rewrite <- !andb_assoc, <- orb_assoc.
Qed.

(** Once the guard has been seen, everything is allowed. *)
Lemma guarded_from_seen (p q : Ev -> bool) (t : list Ev) :
  guarded_from true p q t = true.
Proof. induction t as [|e t IH]; [done|]. simpl. by rewrite orb_true_r. Qed.

(** A trace with no guarded event is guarded. *)
Lemma guarded_from_none (seen : bool) (p q : Ev -> bool) (t : list Ev) :
  count_ev q t = 0 -> guarded_from seen p q t = true.
Proof.
  revert seen. induction t as [|e t IH]; intros seen; [done|].
  rewrite count_ev_cons. simpl. destruct (q e); [lia|]. simpl. auto.
Qed.

(** *** Closed properties of traces *)

#[export] Instance forallb_closed (p : Ev -> bool) :
  TraceClosed (fun t => forallb p t = true).
Proof. split; [done|]. intros t1 t2 H1 H2. by rewrite forallb_app, H1, H2. Qed.

#[export] Instance count_zero_closed (p : Ev -> bool) :
  TraceClosed (fun t => count_ev p t = 0).
Proof. split; [done|]. intros t1 t2 H1 H2. by rewrite count_ev_app, H1, H2. Qed.

Section Closed.
Context (P : list Ev -> Prop) `{!TraceClosed P}.

Lemma closed_ret {A} (a : A) (s : W) : P (trace_of (io_ret (Ev:=Ev) a s)).
Proof. apply closed_nil. Qed.

Lemma closed_lift {A} (r : outcome A) (s : W) : P (trace_of (io_lift (Ev:=Ev) r s)).
Proof. apply closed_nil. Qed.

(** Sequencing keeps a closed property. *)
Lemma closed_bind {A B} (m : io A) (f : A -> io B) (s : W) :
  P (trace_of (m s)) -> (forall a s', P (trace_of (f a s'))) ->
  P (trace_of (io_bind m f s)).
Proof.
  intros Hm Hf. unfold io_bind. destruct (m s) as [[[a|e] s1] t1]; [|done].
  specialize (Hf a s1). destruct (f a s1) as [[r2 s2] t2]. by apply closed_app.
Qed.

(** So does [try/except]. *)
Lemma closed_try_except {A} (body : io A) (h : string -> io A) (s : W) :
  P (trace_of (body s)) -> (forall msg s', P (trace_of (h msg s'))) ->
  P (trace_of (io_try_except body h s)).
Proof.
  intros Hm Hh. unfold io_try_except.
  destruct (body s) as [[[a|[msg|msg]] s1] t1]; [done| |done].
  specialize (Hh msg s1). destruct (h msg s1) as [[r2 s2] t2]. by apply closed_app.
Qed.

(** So does a [for] whose body keeps it. *)
Lemma closed_for_each {A} (xs : list A) (body : A -> io unit) (s : W) :
  (forall x s', P (trace_of (body x s'))) -> P (trace_of (for_each xs body s)).
Proof.
  intros Hb. revert s. induction xs as [|x xs IH]; intros s; simpl.
  - apply closed_nil.
  - apply closed_bind; auto.
Qed.

(** So does any number of rounds of a loop whose body keeps it. *)
Lemma closed_loop_n (n : nat) (body : io unit) (s : W) :
  (forall s', P (trace_of (body s'))) -> P (trace_of (loop_n n body s)).
Proof.
  intros Hb. revert s. induction n as [|n IH]; intros s; simpl.
  - apply closed_nil.
  - apply closed_bind; auto.
Qed.

End Closed.

End Laws.

(** ** Hints *)

#[export] Hint Rewrite @count_ev_nil @count_ev_cons @count_ev_app : trace.
#[export] Hint Rewrite @io_bind_ret_l @io_bind_ret_r @io_bind_assoc @io_bind_raise : monad.

(** Count the events of the traces of the goal and of the hypotheses, and
    leave the arithmetic to [lia]. *)
Ltac count_events :=
  simpl in *; autorewrite with trace in *; simpl in *; try lia.

(** Take a program apart along its sequencing, for a closed property [P]:
    what is left to prove is [P] of the calls and sub-programs. *)
Ltac closed_run P :=
  repeat lazymatch goal with
  | |- context [trace_of (io_ret _ _)] => apply (closed_ret P)
  | |- context [trace_of (io_lift _ _)] => apply (closed_lift P)
  | |- context [trace_of (io_bind _ _ _)] => apply (closed_bind P); [|intros]
  | |- context [trace_of (io_try_except _ _ _)] =>
      apply (closed_try_except P); [|intros]
  | |- context [trace_of (for_each _ _ _)] => apply (closed_for_each P); intros
  | |- context [trace_of (loop_n _ _ _)] => apply (closed_loop_n P); intros
  end.

Section MoreLaws.
Context {W Ev : Type}.
Local Abbreviation io := (io W Ev).
Local Open Scope io_scope.

(** What a sequence does when its first part returns. *)
Lemma io_bind_returns {A B} (m : io A) (f : A -> io B) (s : W) (a : A) :
  result_of (m s) = Returns a ->
  result_of (io_bind m f s) = result_of (f a (state_of (m s))) /\
  state_of (io_bind m f s) = state_of (f a (state_of (m s))) /\
  trace_of (io_bind m f s) = trace_of (m s) ++ trace_of (f a (state_of (m s))).
Proof.
  unfold io_bind, result_of, state_of, trace_of.
  destruct (m s) as [[r s1] t1]; simpl. intros ->.
  by destruct (f a s1) as [[r2 s2] t2].
Qed.

(** What a sequence does when its first part raises. *)
Lemma io_bind_raises {A B} (m : io A) (f : A -> io B) (s : W) (e : exn) :
  result_of (m s) = Raises e ->
  result_of (io_bind m f s) = Raises e /\
  state_of (io_bind m f s) = state_of (m s) /\
  trace_of (io_bind m f s) = trace_of (m s).
Proof.
  unfold io_bind, result_of, state_of, trace_of.
  destruct (m s) as [[r s1] t1]; simpl. by intros ->.
Qed.

Lemma for_each_app {A} (xs ys : list A) (body : A -> io unit) :
  for_each (xs ++ ys) body ≡io (for_each xs body ;; for_each ys body).
Proof.
  induction xs as [|x xs IH]; simpl; autorewrite with monad; [done|].
  by setoid_rewrite IH.
Qed.

(** A [for] whose body is under a test is the [for] over the elements
    that pass the test. *)
Lemma for_each_filter {A} (p : A -> bool) (xs : list A) (body : A -> io unit) :
  for_each xs (fun x => if p x then body x else io_ret tt) ≡io
  for_each (List.filter p xs) body.
Proof.
  induction xs as [|x xs IH]; [done|]. simpl. destruct (p x); simpl.
  - by setoid_rewrite IH.
  - by rewrite io_bind_ret_l.
Qed.

Lemma loop_n_add (n m : nat) (body : io unit) :
  loop_n (n + m) body ≡io (loop_n n body ;; loop_n m body).
Proof.
  induction n as [|n IH]; simpl; autorewrite with monad; [done|].
  by setoid_rewrite IH.
Qed.

End MoreLaws.
