(* ===== verification/Text.v ===== *)
(** * Text: [str.strip] on the text of an answer

    A Python [str] is a sequence of characters; the strings of this
    development are their UTF-8 encoding, byte by byte, as the literals of
    the source are.  [str.strip()] (line 118) removes the characters at
    both ends for which [str.isspace()] holds: the white space of ASCII
    and that of Unicode.  [chars] cuts a string into its characters,
    [codepoint] decodes one, [is_space] is CPython's table of white space,
    and [strip] removes white space at both ends of the characters and
    puts the bytes together again.  The definitions are total; they are
    [str.strip] on the strings that encode a text. *)

From Stdlib Require Import NArith Lia Ascii String.
From stdpp Require Import base tactics strings list.
From S2P Require Import Prelude.

#[local] Open Scope N_scope.

(** ** Definitions *)

(** The bytes of the character that begins with the byte [n]: one for
    ASCII and for a byte that begins no character, two to four by the
    leading bits. *)
Definition utf8_width (n : N) : nat :=
  if n <? 192 then 1%nat else if n <? 224 then 2%nat else if n <? 240 then 3%nat else 4%nat.

(** The characters of a string.  A byte that begins a character the string
    is too short for is a character of its own. *)
Fixpoint chars (s : string) : list string :=
  match s with
  | EmptyString => []
  | String a s1 =>
      match utf8_width (N_of_ascii a), s1 with
      | 2%nat, String b s2 => String a (String b "") :: chars s2
      | 3%nat, String b (String c s3) => String a (String b (String c "")) :: chars s3
      | 4%nat, String b (String c (String d s4)) =>
          String a (String b (String c (String d ""))) :: chars s4
      | _, _ => String a "" :: chars s1
      end
  end.

(** The bytes of a list of characters. *)
Definition unchars (l : list string) : string := foldr String.append "" l.

(** The payload of a continuation byte. *)
Definition low6 (a : ascii) : N := N_of_ascii a mod 64.

(** The code point of a character; a byte above ASCII alone is no
    character, and decodes as U+FFFD. *)
Definition codepoint (c : string) : N :=
  match c with
  | String a "" => if N_of_ascii a <? 128 then N_of_ascii a else 65533
  | String a (String b "") => (N_of_ascii a mod 32) * 64 + low6 b
  | String a (String b (String c "")) =>
      (N_of_ascii a mod 16) * 4096 + low6 b * 64 + low6 c
  | String a (String b (String c (String d ""))) =>
      (N_of_ascii a mod 8) * 262144 + low6 b * 4096 + low6 c * 64 + low6 d
  | _ => 65533
  end.

(** [str.isspace] on one character, CPython's [_PyUnicode_IsWhitespace]:
    tab to carriage return, the four separators and the space; NEL and the
    no-break space; the Ogham space mark; the spaces U+2000 to U+200A; the
    line and paragraph separators; the narrow no-break space, the medium
    mathematical space and the ideographic space. *)
Definition is_space (n : N) : bool :=
  (9 <=? n) && (n <=? 13) || (28 <=? n) && (n <=? 32) ||
  (n =? 133) || (n =? 160) || (n =? 5760) ||
  (8192 <=? n) && (n <=? 8202) ||
  (n =? 8232) || (n =? 8233) || (n =? 8239) || (n =? 8287) || (n =? 12288).

(** The character is white space. *)
Definition space_char (c : string) : bool := is_space (codepoint c).

(** The list without the white space it begins with. *)
Fixpoint drop_spaces (l : list string) : list string :=
  match l with
  | [] => []
  | c :: l' => if space_char c then drop_spaces l' else l
  end.

(** The characters between the white space at the two ends. *)
Definition strip_chars (l : list string) : list string :=
  rev (drop_spaces (rev (drop_spaces l))).

(** [s.strip()]. *)
Definition strip (s : string) : string := unchars (strip_chars (chars s)).

(** ** Theorems *)

(** *** Characters *)

(** The cases of [chars] on a string that begins with [a]: by the width
    of the character, and by the bytes that are there. *)
Ltac chars_cases a s1 :=
  cbn [chars];
  destruct (utf8_width (N_of_ascii a)) as [|[|[|[|[|?]]]]];
    [ | | destruct s1 as [|? ?] | destruct s1 as [|? [|? ?]]
    | destruct s1 as [|? [|? [|? ?]]] | ];
  cbv beta iota.

Lemma unchars_cons (c : string) (l : list string) :
  unchars (c :: l) = (c +:+ unchars l)%string.
Proof. done. Qed.

(** Cutting a string into its characters loses no byte and adds none. *)
Lemma unchars_chars_le (n : nat) (s : string) :
  (String.length s <= n)%nat -> unchars (chars s) = s.
Proof.
  revert s. induction n as [|n IH]; intros s Hn.
  { destruct s; [done|simpl in Hn; lia]. }
  destruct s as [|a s1]; [done|].
  chars_cases a s1; rewrite unchars_cons, IH by (simpl in *; lia); reflexivity.
Qed.

Lemma unchars_chars (s : string) : unchars (chars s) = s.
Proof. by apply (unchars_chars_le (String.length s)). Qed.

Lemma string_app_assoc (s1 s2 s3 : string) :
  (s1 +:+ (s2 +:+ s3) = (s1 +:+ s2) +:+ s3)%string.
Proof.
  induction s1 as [|a s1 IH]; [done|].
  change (String a (s1 +:+ (s2 +:+ s3)) = String a ((s1 +:+ s2) +:+ s3))%string.
  by rewrite IH.
Qed.

Lemma unchars_app (l1 l2 : list string) :
  unchars (l1 ++ l2) = (unchars l1 +:+ unchars l2)%string.
Proof.
  induction l1 as [|c l1 IH]; [done|].
  by rewrite <- app_comm_cons, !unchars_cons, IH, string_app_assoc.
Qed.

(** A character is one to four bytes. *)
Lemma chars_width_le (n : nat) (s : string) :
  (String.length s <= n)%nat ->
  Forall (fun c => (1 <= String.length c <= 4)%nat) (chars s).
Proof.
  revert s. induction n as [|n IH]; intros s Hn.
  { destruct s; [constructor|simpl in Hn; lia]. }
  destruct s as [|a s1]; [constructor|].
  chars_cases a s1; (constructor; [simpl; lia | apply IH; simpl in *; lia]).
Qed.

Lemma chars_width (s : string) :
  Forall (fun c => (1 <= String.length c <= 4)%nat) (chars s).
Proof. by apply (chars_width_le (String.length s)). Qed.

(** An ASCII string has one character for each byte. *)
Lemma chars_ascii (s : string) :
  forallb (fun a => N_of_ascii a <? 128) (list_ascii_of_string s) = true ->
  chars s = (fun a => String a "") <$> list_ascii_of_string s.
Proof.
  induction s as [|a s IH]; [done|]. cbn [list_ascii_of_string forallb].
  intros [Ha Hs]%andb_prop. apply N.ltb_lt in Ha.
  cbn [chars]. unfold utf8_width.
  replace (N_of_ascii a <? 192) with true by (symmetry; apply N.ltb_lt; lia).
  cbv beta iota. by rewrite IH.
Qed.

(** *** White space *)

(** What [drop_spaces] leaves does not begin with white space. *)
Lemma drop_spaces_head (l : list string) (c : string) (l' : list string) :
  drop_spaces l = c :: l' -> space_char c = false.
Proof.
  induction l as [|b l IH]; simpl; [done|].
  destruct (space_char b) eqn:Hb; [done|]. by intros [= <- <-].
Qed.

Lemma drop_spaces_idem (l : list string) : drop_spaces (drop_spaces l) = drop_spaces l.
Proof.
  destruct (drop_spaces l) as [|c l'] eqn:E; [done|].
  simpl. by rewrite (drop_spaces_head _ _ _ E).
Qed.

(** What [drop_spaces] leaves is the end of the list. *)
Lemma drop_spaces_suffix (l : list string) : drop_spaces l `suffix_of` l.
Proof.
  induction l as [|c l IH]; simpl; [done|].
  destruct (space_char c); [by apply suffix_cons_r|done].
Qed.

(** A list that does not begin with white space is left as it is. *)
Lemma drop_spaces_id (c : string) (l : list string) :
  space_char c = false -> drop_spaces (c :: l) = c :: l.
Proof. intros Hc. simpl. by rewrite Hc. Qed.

(** Dropping the white space at the end keeps the first character when
    it is not white space. *)
Lemma drop_spaces_rev_head (c : string) (l : list string) :
  space_char c = false ->
  exists l', rev (drop_spaces (rev (c :: l))) = c :: l'.
Proof.
  intros Hc. simpl. generalize (rev l). intros r.
  induction r as [|b r IH]; simpl.
  - rewrite Hc. by exists [].
  - destruct (space_char b); [done|]. simpl.
    rewrite rev_app_distr. simpl. by eexists.
Qed.

(** What [strip_chars] leaves neither begins nor ends with white space. *)
Lemma strip_chars_ends (l : list string) :
  (forall c l', strip_chars l = c :: l' -> space_char c = false) /\
  (forall c l', strip_chars l = l' ++ [c] -> space_char c = false).
Proof.
  unfold strip_chars. split; intros c l' E.
  - destruct (drop_spaces l) as [|b r] eqn:El; [done|].
    pose proof (drop_spaces_head _ _ _ El) as Hb.
    destruct (drop_spaces_rev_head b r Hb) as [r' Hr]. rewrite Hr in E. by simplify_eq.
  - apply (f_equal (@rev string)) in E. rewrite rev_involutive, rev_app_distr in E.
    simpl in E. by eapply drop_spaces_head.
Qed.

(** Stripping what is stripped changes nothing. *)
Lemma strip_chars_idem (l : list string) : strip_chars (strip_chars l) = strip_chars l.
Proof.
  unfold strip_chars. destruct (drop_spaces l) as [|b r] eqn:El; [done|].
  pose proof (drop_spaces_head _ _ _ El) as Hb.
  destruct (drop_spaces_rev_head b r Hb) as [r' Hr]. rewrite Hr.
  rewrite (drop_spaces_id b r' Hb), <- Hr, rev_involutive.
  by rewrite drop_spaces_idem.
Qed.

Lemma forallb_rev {A} (p : A -> bool) (l : list A) : forallb p (rev l) = forallb p l.
Proof.
  induction l as [|a l IH]; [done|]. simpl.
  rewrite forallb_app, IH. simpl. by destruct (p a), (forallb p l).
Qed.

(** What [drop_spaces] removes is white space. *)
Lemma drop_spaces_split (l : list string) :
  exists l1, l = l1 ++ drop_spaces l /\ forallb space_char l1 = true.
Proof.
  induction l as [|c l (l1 & IH & H1)]; [by exists []|]. simpl.
  destruct (space_char c) eqn:Hc; [|by exists []].
  exists (c :: l1). simpl. by rewrite Hc, H1, <- IH.
Qed.

(** The characters of a list are white space it begins with, what
    [strip_chars] leaves, and white space it ends with. *)
Lemma strip_chars_split (l : list string) :
  exists l1 l2, l = l1 ++ strip_chars l ++ l2 /\
    forallb space_char l1 = true /\ forallb space_char l2 = true.
Proof.
  unfold strip_chars.
  destruct (drop_spaces_split l) as (l1 & E1 & H1).
  destruct (drop_spaces_split (rev (drop_spaces l))) as (l2 & E2 & H2).
  exists l1, (rev l2). split_and!; [|done|by rewrite forallb_rev].
  apply (f_equal (@rev string)) in E2. rewrite rev_involutive, rev_app_distr in E2.
  by rewrite <- E2.
Qed.


(** *** Runs *)

Example strip_newline : strip (String " " ("at1xyz" +:+ String "010" "")) = "at1xyz".
Proof. reflexivity. Qed.

Example strip_inner : strip (String "009" "a b ") = "a b".
Proof. reflexivity. Qed.

(** A no-break space before the id and a line separator after it, both
    outside ASCII, are removed; the emoji inside is kept. *)
Example strip_unicode :
  strip (String "194" (String "160" ("at1✅x" +:+ String "226" (String "128" (String "168" "")))))
  = "at1✅x".
Proof. reflexivity. Qed.

(** The characters of a line of the worker. *)
Example chars_emoji : List.length (chars "✅ ok") = 4%nat.
Proof. reflexivity. Qed.
