(* ===== verification/Runs.v ===== *)
(** * Runs: what a program does, as a relation

    A run of a program goes from a state to a state and leaves a trace.
    Most of what is proved of the worker is of the form: every run of this
    program is in the relation [R], where [R] holds of doing nothing and of
    doing one thing after another ([RunClosed]).  Such a relation is kept by
    sequencing, [try/except], [for] and the loop, so it holds of a program
    as soon as it holds of the calls the program makes: [runs_walk] takes a
    program apart down to them.

    A property of traces alone ([TraceClosed]) and an invariant of the state
    are the two extreme cases; the relation between the store and the marks
    of the trace ([Store]) is one that needs both ends.

    The same is done for the number of events of a kind ([bounded]) and
    for returning ([total], [gentle]).  The [passes] of a [for] are the
    runs of its body, one after the other: its trace is theirs. *)

From Stdlib Require Import ZArith Lia.
From stdpp Require Import base tactics option list strings.
From S2P Require Import Prelude.

Section Runs.
Context {W Ev : Type}.
Local Abbreviation io := (io W Ev).

(** ** Definitions *)

(** A relation between the state before, the trace and the state after that
    holds of the empty run and of two runs in a row. *)
Class RunClosed (R : W -> list Ev -> W -> Prop) : Prop := {
  run_nil : forall s, R s [] s;
  run_app : forall s1 t1 s2 t2 s3, R s1 t1 s2 -> R s2 t2 s3 -> R s1 (t1 ++ t2) s3;
}.

(** Every run of [m] is in [R], however it ends. *)
Definition runs {A} (R : W -> list Ev -> W -> Prop) (m : io A) : Prop :=
  forall s, R s (trace_of (m s)) (state_of (m s)).

(** Every trace of [m] has the property [P]. *)
Definition traces {A} (P : list Ev -> Prop) (m : io A) : Prop :=
  runs (fun _ t _ => P t) m.

(** Every run of [m] keeps the invariant [I] of the state. *)
Definition keeps {A} (I : W -> Prop) (m : io A) : Prop :=
  runs (fun s _ s' => I s -> I s') m.

(** No trace of [m] holds more than [k] events that satisfy [p]. *)
Definition bounded {A} (p : Ev -> bool) (k : nat) (m : io A) : Prop :=
  forall s, count_ev p (trace_of (m s)) <= k.

(** The sum of the bounds of the elements of a list. *)
Definition sum_of {A} (w : A -> nat) (xs : list A) : nat :=
  foldr (fun x n => w x + n) 0 xs.

(** [m] returns from every state. *)
Definition total {A} (m : io A) : Prop :=
  forall s, returned (result_of (m s)) = true.

(** [m] raises nothing that [except Exception] does not catch. *)
Definition gentle {A} (m : io A) : Prop :=
  forall s e, result_of (m s) = Raises e -> caught e = true.

(** The passes of [for x in xs: body(x)] from [s]: the run of the body on
    each element, from the state the pass before left, up to the first
    that raises. *)
Fixpoint passes {A} (body : A -> io unit) (xs : list A) (s : W)
    : list (outcome unit * W * list Ev) :=
  match xs with
  | [] => []
  | x :: xs' =>
      body x s :: (if returned (result_of (body x s))
                   then passes body xs' (state_of (body x s)) else [])
  end.

(** ** Theorems *)

(** *** The closed relations *)

#[export] Instance trace_run_closed (P : list Ev -> Prop) `{!TraceClosed P} :
  RunClosed (fun _ t _ => P t).
Proof. split; [intros; apply closed_nil | intros; by apply closed_app]. Qed.

#[export] Instance invariant_run_closed (I : W -> Prop) :
  RunClosed (fun s _ s' => I s -> I s').
Proof. split; auto. Qed.

#[export] Instance and_run_closed (R1 R2 : W -> list Ev -> W -> Prop)
    `{!RunClosed R1} `{!RunClosed R2} :
  RunClosed (fun s t s' => R1 s t s' /\ R2 s t s').
Proof.
  split; [split; apply run_nil|].
  intros s1 t1 s2 t2 s3 [] []. split; eapply run_app; eauto.
Qed.

(** *** The rules *)

Section Rules.
Context (R : W -> list Ev -> W -> Prop) `{!RunClosed R}.

Lemma runs_ret {A} (a : A) : runs R (io_ret a).
Proof. intros s. apply run_nil. Qed.

Lemma runs_lift {A} (r : outcome A) : runs R (io_lift r).
Proof. intros s. apply run_nil. Qed.

Lemma runs_raise {A} (e : exn) : runs R (io_raise (A:=A) e).
Proof. intros s. apply run_nil. Qed.

(** What a sequence does is what its parts do, one after the other; when
    the first part raises, what the first part does. *)
Lemma runs_bind {A B} (m : io A) (f : A -> io B) :
  runs R m -> (forall a, runs R (f a)) -> runs R (io_bind m f).
Proof.
  intros Hm Hf s. specialize (Hm s). unfold io_bind.
  destruct (m s) as [[[a|e] s1] t1]; [|done].
  specialize (Hf a s1). destruct (f a s1) as [[r2 s2] t2].
  eapply run_app; eauto.
Qed.

Lemma runs_try_except {A} (body : io A) (h : string -> io A) :
  runs R body -> (forall msg, runs R (h msg)) -> runs R (io_try_except body h).
Proof.
  intros Hm Hh s. specialize (Hm s). unfold io_try_except.
  destruct (body s) as [[[a|[msg|msg]] s1] t1]; [done| |done].
  specialize (Hh msg s1). destruct (h msg s1) as [[r2 s2] t2].
  eapply run_app; eauto.
Qed.

Lemma runs_for_each {A} (xs : list A) (body : A -> io unit) :
  (forall x, runs R (body x)) -> runs R (for_each xs body).
Proof.
  intros Hb. induction xs as [|x xs IH]; simpl.
  - apply runs_ret.
  - apply runs_bind; auto.
Qed.

Lemma runs_loop_n (n : nat) (body : io unit) :
  runs R body -> runs R (loop_n n body).
Proof.
  intros Hb. induction n as [|n IH]; simpl.
  - apply runs_ret.
  - apply runs_bind; auto.
Qed.

End Rules.

(** A [for] keeps what its body keeps on the elements of the list. *)
Lemma runs_for_each_in {A} (R : W -> list Ev -> W -> Prop) `{!RunClosed R}
    (xs : list A) (body : A -> io unit) :
  (forall x, x ∈ xs -> runs R (body x)) -> runs R (for_each xs body).
Proof.
  induction xs as [|x xs IH]; intros Hb; simpl.
  - by apply runs_ret.
  - apply runs_bind; [done | apply Hb; left | intros _; apply IH].
    intros y Hy. apply Hb. by right.
Qed.

(** In a sequence, what comes second is run on what the first part
    returned, from the state it left. *)
Lemma closed_bind_run (P : list Ev -> Prop) `{!TraceClosed P} {A B}
    (m : io A) (f : A -> io B) (s : W) :
  P (trace_of (m s)) ->
  (forall a, result_of (m s) = Returns a -> P (trace_of (f a (state_of (m s))))) ->
  P (trace_of (io_bind m f s)).
Proof.
  intros Hm Hf. unfold io_bind, result_of, state_of, trace_of in *.
  destruct (m s) as [[[a|e] s1] t1]; simpl in *; [|done].
  specialize (Hf a eq_refl). destruct (f a s1) as [[r2 s2] t2].
  by apply closed_app.
Qed.

(** A relation that holds of every run holds of every weaker one. *)
Lemma runs_weaken {A} (R R' : W -> list Ev -> W -> Prop) (m : io A) :
  (forall s t s', R s t s' -> R' s t s') -> runs R m -> runs R' m.
Proof. intros HR Hm s. apply HR, Hm. Qed.

Lemma runs_and {A} (R1 R2 : W -> list Ev -> W -> Prop) (m : io A) :
  runs R1 m -> runs R2 m -> runs (fun s t s' => R1 s t s' /\ R2 s t s') m.
Proof. intros H1 H2 s. split; [apply H1 | apply H2]. Qed.

(** The trace of a run has the properties all traces of the program have. *)
Lemma traces_trace {A} (P : list Ev -> Prop) (m : io A) (s : W) :
  traces P m -> P (trace_of (m s)).
Proof. intros Hm. apply Hm. Qed.

(** *** Counting the events of a program *)

Section Bounds.
Context (p : Ev -> bool).

Lemma bounded_weaken {A} (k k' : nat) (m : io A) :
  bounded p k m -> k <= k' -> bounded p k' m.
Proof. intros Hm Hk s. specialize (Hm s). lia. Qed.

Lemma bounded_ret {A} (a : A) : bounded p 0 (io_ret a).
Proof. by intros s. Qed.

Lemma bounded_lift {A} (r : outcome A) : bounded p 0 (io_lift r).
Proof. by intros s. Qed.

Lemma bounded_raise {A} (e : exn) : bounded p 0 (io_raise (A:=A) e).
Proof. by intros s. Qed.

(** The events of a sequence from [s] are those of its first part and those
    of what follows, run on what the first part returned. *)
Lemma count_bind_run {A B} (k1 k2 : nat) (m : io A) (f : A -> io B) (s : W) :
  count_ev p (trace_of (m s)) <= k1 ->
  (forall a, result_of (m s) = Returns a ->
             count_ev p (trace_of (f a (state_of (m s)))) <= k2) ->
  count_ev p (trace_of (io_bind m f s)) <= k1 + k2.
Proof.
  intros Hm Hf. unfold io_bind, result_of, state_of, trace_of in *.
  destruct (m s) as [[[a|e] s1] t1]; simpl in *; [|lia].
  specialize (Hf a eq_refl). destruct (f a s1) as [[r2 s2] t2]. count_events.
Qed.

Lemma bounded_bind {A B} (k1 k2 : nat) (m : io A) (f : A -> io B) :
  bounded p k1 m -> (forall a, bounded p k2 (f a)) -> bounded p (k1 + k2) (io_bind m f).
Proof. intros Hm Hf s. apply count_bind_run; [apply Hm | intros; apply Hf]. Qed.

Lemma bounded_try_except {A} (k1 k2 : nat) (body : io A) (h : string -> io A) :
  bounded p k1 body -> (forall msg, bounded p k2 (h msg)) ->
  bounded p (k1 + k2) (io_try_except body h).
Proof.
  intros Hm Hh s. specialize (Hm s). unfold io_try_except.
  destruct (body s) as [[[a|[msg|msg]] s1] t1]; simpl in *; [lia| |lia].
  specialize (Hh msg s1). destruct (h msg s1) as [[r2 s2] t2]. count_events.
Qed.

Lemma bounded_if {A} (k1 k2 : nat) (b : bool) (m1 m2 : io A) :
  bounded p k1 m1 -> bounded p k2 m2 -> bounded p (k1 `max` k2) (if b then m1 else m2).
Proof. intros H1 H2 s. specialize (H1 s). specialize (H2 s). destruct b; lia. Qed.

Lemma bounded_option {A B} (k1 k2 : nat) (o : option B) (m1 : B -> io A) (m2 : io A) :
  (forall b, bounded p k1 (m1 b)) -> bounded p k2 m2 ->
  bounded p (k1 `max` k2) (match o with Some b => m1 b | None => m2 end).
Proof.
  intros H1 H2 s. specialize (H2 s). destruct o as [b|]; [specialize (H1 b s)|]; lia.
Qed.

(** A [for] makes at most the calls of its rounds. *)
Lemma bounded_for_each {A} (w : A -> nat) (xs : list A) (body : A -> io unit) :
  (forall x, bounded p (w x) (body x)) -> bounded p (sum_of w xs) (for_each xs body).
Proof.
  intros Hb. induction xs as [|x xs IH]; simpl.
  - apply bounded_ret.
  - apply bounded_bind; auto.
Qed.

Lemma bounded_loop_n (k n : nat) (body : io unit) :
  bounded p k body -> bounded p (n * k) (loop_n n body).
Proof.
  intros Hb. induction n as [|n IH]; simpl.
  - apply bounded_ret.
  - apply bounded_bind; auto.
Qed.

(** Rounds whose bound depends on a quantity of the state that the body
    keeps make at most [n] times that bound. *)
Lemma count_loop_n (K : W -> nat) (n : nat) (body : io unit) (s : W) :
  (forall s', count_ev p (trace_of (body s')) <= K s') ->
  (forall s', K (state_of (body s')) = K s') ->
  count_ev p (trace_of (loop_n n body s)) <= n * K s.
Proof.
  intros Hb HK. revert s. induction n as [|n IH]; intros s; simpl; [done|].
  apply count_bind_run; [apply Hb|]. intros _ _. rewrite <- (HK s). apply IH.
Qed.

End Bounds.

Lemma sum_of_const {A} (k : nat) (xs : list A) :
  sum_of (fun _ => k) xs = length xs * k.
Proof. induction xs as [|x xs IH]; simpl; [done|]. rewrite IH. lia. Qed.

(** The length of a trace is the count of all its events. *)
Lemma count_ev_all (t : list Ev) : count_ev (fun _ => true) t = length t.
Proof. unfold count_ev. induction t as [|e t IH]; simpl; [done|]. by rewrite IH. Qed.

(** *** Programs that return *)

Lemma total_ret {A} (a : A) : total (io_ret a).
Proof. by intros s. Qed.

Lemma total_lift {A} (r : outcome A) : returned r = true -> total (io_lift r).
Proof. by intros Hr s. Qed.

Lemma gentle_lift {A} (r : outcome A) :
  (forall e, r = Raises e -> caught e = true) -> gentle (io_lift r).
Proof. intros Hr s e. apply Hr. Qed.

(** A sequence from [s] returns when its first part does and what follows
    returns on what the first part returned. *)
Lemma returns_bind_run {A B} (m : io A) (f : A -> io B) (s : W) :
  returned (result_of (m s)) = true ->
  (forall a, result_of (m s) = Returns a ->
             returned (result_of (f a (state_of (m s)))) = true) ->
  returned (result_of (io_bind m f s)) = true.
Proof.
  intros Hm Hf. unfold io_bind, result_of, state_of in *.
  destruct (m s) as [[[a|e] s1] t1]; simpl in *; [|done].
  specialize (Hf a eq_refl). by destruct (f a s1) as [[r2 s2] t2].
Qed.

Lemma total_bind {A B} (m : io A) (f : A -> io B) :
  total m -> (forall a, total (f a)) -> total (io_bind m f).
Proof. intros Hm Hf s. apply returns_bind_run; [apply Hm | intros; apply Hf]. Qed.

Lemma total_for_each {A} (xs : list A) (body : A -> io unit) :
  (forall x, total (body x)) -> total (for_each xs body).
Proof.
  intros Hb. induction xs as [|x xs IH]; simpl; [apply total_ret|].
  apply total_bind; auto.
Qed.

Lemma total_loop_n (n : nat) (body : io unit) : total body -> total (loop_n n body).
Proof.
  intros Hb. induction n as [|n IH]; simpl; [apply total_ret|].
  apply total_bind; auto.
Qed.

(** A program that returns raises nothing. *)
Lemma total_gentle {A} (m : io A) : total m -> gentle m.
Proof. intros Hm s e He. specialize (Hm s). by rewrite He in Hm. Qed.

Lemma gentle_bind {A B} (m : io A) (f : A -> io B) :
  gentle m -> (forall a, gentle (f a)) -> gentle (io_bind m f).
Proof.
  intros Hm Hf s e. specialize (Hm s). unfold io_bind, result_of in *.
  destruct (m s) as [[[a|e'] s1] t1]; simpl in *; [|by intros [= <-]; apply Hm].
  specialize (Hf a s1 e). unfold result_of in Hf.
  by destruct (f a s1) as [[r2 s2] t2].
Qed.

(** [try/except Exception] returns when its body raises nothing else and
    its handler returns. *)
Lemma total_try_except {A} (body : io A) (h : string -> io A) :
  gentle body -> (forall msg, total (h msg)) -> total (io_try_except body h).
Proof.
  intros Hm Hh s. specialize (Hm s). unfold io_try_except, result_of in *.
  destruct (body s) as [[[a|[msg|msg]] s1] t1]; simpl in *; [done| |].
  - specialize (Hh msg s1). unfold result_of in Hh.
    by destruct (h msg s1) as [[r2 s2] t2].
  - by specialize (Hm _ eq_refl).
Qed.

(** A program of type [unit] that returns returns [None]. *)
Lemma total_unit (m : io unit) (s : W) : total m -> result_of (m s) = Returns tt.
Proof. intros Hm. specialize (Hm s). by destruct (result_of (m s)) as [[]|]. Qed.

(** *** The passes of a [for] *)

(** The trace of a [for] is the traces of its passes, one after the
    other: nothing is called between two passes. *)
Lemma for_each_passes {A} (xs : list A) (body : A -> io unit) (s : W) :
  trace_of (for_each xs body s) = concat (trace_of <$> passes body xs s).
Proof.
  revert s. induction xs as [|x xs IH]; intros s; [done|]. simpl.
  destruct (result_of (body x s)) as [[]|e] eqn:E; simpl.
  - destruct (io_bind_returns (body x) (fun _ => for_each xs body) s tt E) as (_ & _ & ->).
    by rewrite IH.
  - destruct (io_bind_raises (body x) (fun _ => for_each xs body) s e E) as (_ & _ & ->).
    by rewrite app_nil_r.
Qed.

(** There are no more passes than elements, and a pass that is not the
    last returned. *)
Lemma passes_length {A} (xs : list A) (body : A -> io unit) (s : W) :
  length (passes body xs s) <= length xs.
Proof.
  revert s. induction xs as [|x xs IH]; intros s; simpl; [done|].
  destruct (returned _); simpl; [specialize (IH (state_of (body x s)))|]; lia.
Qed.

(** When the body returns on every element there is a pass for each, that
    returned; what holds of every run of the body holds of each pass. *)
Lemma passes_total {A} (P : A -> outcome unit * W * list Ev -> Prop) (xs : list A)
    (body : A -> io unit) (s : W) :
  (forall x, total (body x)) -> (forall x s', P x (body x s')) ->
  Forall2 (fun x r => result_of r = Returns tt /\ P x r) xs (passes body xs s).
Proof.
  intros Hb HP. revert s. induction xs as [|x xs IH]; intros s; simpl; [constructor|].
  rewrite (Hb x s). constructor; [|apply IH]. split; [by apply total_unit|apply HP].
Qed.

End Runs.

(** ** Hints *)

(** The rules of [total] and [gentle], for [auto with io]. *)
#[export] Hint Resolve total_ret total_bind total_for_each total_loop_n
  total_try_except total_gentle gentle_bind : io.

(** ** Tactics *)

(** Take the program of a goal [runs R m] apart along its structure: what
    is left are its calls and the sub-programs that are not unfolded. *)
Ltac runs_walk :=
  repeat lazymatch goal with
  | |- traces _ _ => unfold traces
  | |- keeps _ _ => unfold keeps
  | |- runs _ (io_ret _) => apply runs_ret; try apply _
  | |- runs _ (io_lift _) => apply runs_lift; try apply _
  | |- runs _ (io_raise _) => apply runs_raise; try apply _
  | |- runs _ (io_bind _ _) => apply runs_bind; [try apply _ | | intros ?]
  | |- runs _ (io_try_except _ _) => apply runs_try_except; [try apply _ | | intros ?]
  | |- runs _ (for_each _ _) => apply runs_for_each; [try apply _ | intros ?]
  | |- runs _ (loop_n _ _) => apply runs_loop_n; [try apply _ | ]
  | |- runs _ (match ?x with (_, _) => _ end) => destruct x
  | |- runs _ (if ?b then _ else _) => destruct b
  | |- runs _ (match ?x with Some _ => _ | None => _ end) => destruct x
  end.

(** Bound the events of the program of a goal [bounded p ?k m] by the sum
    of the bounds of its parts. *)
Ltac bounded_walk :=
  repeat lazymatch goal with
  | |- bounded _ _ (io_ret _) => apply bounded_ret
  | |- bounded _ _ (io_lift _) => apply bounded_lift
  | |- bounded _ _ (io_raise _) => apply bounded_raise
  | |- bounded _ _ (io_bind _ _) => eapply bounded_bind; [|intros ?]
  | |- bounded _ _ (io_try_except _ _) => eapply bounded_try_except; [|intros ?]
  | |- bounded _ _ (loop_n _ _) => eapply bounded_loop_n
  | |- bounded _ _ (match ?x with (_, _) => _ end) => destruct x
  | |- bounded _ _ (if _ then _ else _) => eapply bounded_if
  | |- bounded _ _ (match _ with Some _ => _ | None => _ end) =>
      eapply bounded_option; [intros ?|]
  end.

(** Take the program of a goal [total m] or [gentle m] apart. *)
Ltac total_walk :=
  repeat lazymatch goal with
  | |- total (io_ret _) => apply total_ret
  | |- total (io_lift _) => apply total_lift
  | |- gentle (io_lift _) => apply gentle_lift
  | |- total (io_bind _ _) => apply total_bind; [|intros ?]
  | |- total (io_try_except _ _) => apply total_try_except; [|intros ?]
  | |- total (for_each _ _) => apply total_for_each; intros ?
  | |- total (loop_n _ _) => apply total_loop_n
  | |- total (match ?x with (_, _) => _ end) => destruct x
  | |- total (if ?b then _ else _) => destruct b
  | |- total (match ?x with Some _ => _ | None => _ end) => destruct x
  | |- gentle (io_ret _) => apply total_gentle, total_ret
  | |- gentle (io_bind _ _) => apply gentle_bind; [|intros ?]
  | |- gentle (match ?x with (_, _) => _ end) => destruct x
  | |- gentle (if ?b then _ else _) => destruct b
  end.
