(* ===== verification/Python.v ===== *)
(** * Python: the built-in operations the worker relies on

    Python's [float] is IEEE 754 binary64 with round-to-nearest-even, which
    is what the primitive floats of the kernel are.  This file gives the
    operations the worker uses on them: conversion of an [int], true
    division of two [int]s (line 39), multiplication of a [float] by an
    [int] (line 39), [>=] (line 144), [int()] of a [float] (line 135) and
    the [.2f] format (line 40); and the truth value of an optional string
    (line 53).

    [int_truediv] rounds the exact quotient once, as CPython does for
    integers of any size; on the worker's operands, 34500000 and
    120000000, it is the division of their conversions. *)

From Stdlib Require Import ZArith Floats Lia Ascii String.
From stdpp Require Import base tactics strings pretty list.
From S2P Require Import Prelude.

#[local] Open Scope Z_scope.

(** ** Definitions *)

(** [float(z)]: the nearest double, or OverflowError. *)
Definition float_of_int (z : Z) : outcome float :=
  match binary_normalize prec emax z 0 false with
  | S754_infinity _ => Raises (Exception "int too large to convert to float")
  | sf => Returns (SF2Prim sf)
  end.

(** [a / b] on two [int]s: the double nearest to the quotient, which is
    computed from the integers and not from their conversions; the sign of
    a zero is the sign of the quotient. *)
Definition int_truediv (a b : Z) : outcome float :=
  if decide (b = 0) then Raises (Exception "division by zero")
  else
    let '(m, e, l) := SFdiv_core_binary prec emax (Z.abs a) 0 (Z.abs b) 0 in
    match binary_round_aux prec emax (xorb (a <? 0) (b <? 0)) m e l with
    | S754_infinity _ => Raises (Exception "integer division result too large for a float")
    | sf => Returns (SF2Prim sf)
    end.

(** [x * n] with [x] a [float] and [n] an [int]. *)
Definition float_mul_int (x : float) (n : Z) : outcome float :=
  match float_of_int n with
  | Returns y => Returns (x * y)%float
  | Raises e => Raises e
  end.

(** [x >= y] on floats: false as soon as one side is NaN. *)
Definition float_ge (x y : float) : bool := (y <=? x)%float.

(** [int(x)]: truncation toward zero; NaN and the infinities raise. *)
Definition int_of_float (x : float) : outcome Z :=
  match Prim2SF x with
  | S754_zero _ => Returns 0
  | S754_infinity _ => Raises (Exception "cannot convert float infinity to integer")
  | S754_nan => Raises (Exception "cannot convert float NaN to integer")
  | S754_finite s m e =>
      let a := Z.shiftl (Z.pos m) e in Returns (if s then - a else a)
  end.

(** The integer nearest to [n / d], ties to even ([0 <= n], [0 < d]). *)
Definition round_half_even (n d : Z) : Z :=
  let q := n / d in
  let r := n mod d in
  if 2 * r <? d then q
  else if d <? 2 * r then q + 1
  else if Z.even q then q else q + 1.

(** Two decimal digits. *)
Definition pad2 (n : Z) : string :=
  if n <? 10 then "0" +:+ pretty n else pretty n.

(** The number of hundredths [format(x, ".2f")] prints for a finite
    nonzero [x = m * 2^e]. *)
Definition hundredths (m : positive) (e : Z) : Z :=
  if 0 <=? e then Z.pos m * 2 ^ e * 100
  else round_half_even (Z.pos m * 100) (2 ^ (- e)).

(** [f"{x:.2f}"]. *)
Definition format_2f (x : float) : string :=
  match Prim2SF x with
  | S754_nan => "nan"
  | S754_infinity s => if s then "-inf" else "inf"
  | S754_zero s => if s then "-0.00" else "0.00"
  | S754_finite s m e =>
      let h := hundredths m e in
      (if s then "-" else "") +:+ pretty (h / 100) +:+ "." +:+ pad2 (h mod 100)
  end.

(** [not s] for a value read by [os.getenv]: absent, or the empty string. *)
Definition falsy (s : option string) : bool :=
  match s with
  | None => true
  | Some s => bool_decide (s = "")
  end.

(** ** Theorems *)

(** [round_half_even] is within half a unit of the quotient. *)
Lemma round_half_even_nearest (n d : Z) :
  0 <= n -> 0 < d -> Z.abs (2 * (n - d * round_half_even n d)) <= d.
Proof.
  intros Hn Hd. unfold round_half_even.
  pose proof (Z.div_mod n d ltac:(lia)) as Hdm.
  pose proof (Z.mod_pos_bound n d Hd) as Hr.
  repeat case_match; rewrite ?Z.ltb_lt, ?Z.ltb_ge in *; lia.
Qed.

(** It never goes below the floor or above the ceiling. *)
Lemma round_half_even_floor_ceil (n d : Z) :
  0 < d -> n / d <= round_half_even n d <= n / d + 1.
Proof. intros Hd. unfold round_half_even. repeat case_match; lia. Qed.

(** On an exact tie the result is even. *)
Lemma round_half_even_tie (n d : Z) :
  0 < d -> 2 * (n mod d) = d -> Z.even (round_half_even n d) = true.
Proof.
  intros Hd Htie. unfold round_half_even.
  rewrite (proj2 (Z.ltb_ge _ _)), (proj2 (Z.ltb_ge _ _)) by lia.
  destruct (Z.even (n / d)) eqn:He; [done|].
  rewrite Z.even_add, He. done.
Qed.

(** An exact quotient is left alone. *)
Lemma round_half_even_exact (q d : Z) : 0 < d -> round_half_even (q * d) d = q.
Proof.
  intros Hd. unfold round_half_even.
  rewrite Z.mod_mul, Z.div_mul by lia.
  by rewrite (proj2 (Z.ltb_lt _ _)) by lia.
Qed.

(** NaN is never [>=] anything, and nothing is [>=] NaN. *)
Lemma float_ge_nan_l (y : float) : float_ge nan y = false.
Proof. unfold float_ge. rewrite FloatAxioms.leb_spec. by destruct (Prim2SF y). Qed.

Lemma float_ge_nan_r (x : float) : float_ge x nan = false.
Proof. unfold float_ge. rewrite FloatAxioms.leb_spec. by destruct (Prim2SF x). Qed.

(** [x >= x] holds exactly when [x] is a number. *)
Lemma float_ge_refl (x : float) : float_ge x x = negb (is_nan x).
Proof.
  unfold float_ge, is_nan. rewrite FloatAxioms.leb_spec, FloatAxioms.eqb_spec.
  destruct (Prim2SF x) as [[]|[]| |[] m e]; try done;
    cbn; by rewrite Z.compare_refl, Pos.compare_cont_refl.
Qed.

(** Swapping the operands of a comparison reverses its result. *)
Lemma SFcompare_swap (a b : spec_float) :
  SFcompare a b = CompOpp <$> SFcompare b a.
Proof.
  destruct a as [[]|[]| |[] m1 e1], b as [[]|[]| |[] m2 e2]; try done; cbn;
    rewrite (Z.compare_antisym e1 e2); destruct (e1 ?= e2); cbn; try done;
    change PosDef.Pos.compare_cont with Pos.compare_cont;
    by rewrite ?CompOpp_involutive, Pos.compare_cont_antisym.
Qed.

(** [x >= y] is the negation of [x < y] exactly when the two compare. *)
Lemma float_ge_ltb (x y : float) :
  float_ge x y = true -> (x <? y)%float = false.
Proof.
  unfold float_ge. rewrite FloatAxioms.leb_spec, FloatAxioms.ltb_spec. unfold SFleb, SFltb.
  rewrite (SFcompare_swap (Prim2SF x) (Prim2SF y)).
  by destruct (SFcompare (Prim2SF y) (Prim2SF x)) as [[]|].
Qed.

(** On two numbers one of [x >= y] and [x < y] holds. *)
Lemma float_ge_total (x y : float) :
  is_nan x = false -> is_nan y = false ->
  float_ge x y = negb (x <? y)%float.
Proof.
  unfold float_ge, is_nan.
  rewrite !FloatAxioms.eqb_spec, FloatAxioms.leb_spec, FloatAxioms.ltb_spec.
  unfold SFleb, SFltb, SFeqb. rewrite (SFcompare_swap (Prim2SF x) (Prim2SF y)).
  destruct (Prim2SF x) as [[]|[]| |[] m1 e1], (Prim2SF y) as [[]|[]| |[] m2 e2];
    try done; cbn; intros _ _;
    destruct (e2 ?= e1); try done; by destruct (Pos.compare_cont Eq m2 m1).
Qed.

Example int_of_float_trunc_pos : int_of_float 2.75%float = Returns 2.
Proof. reflexivity. Qed.

Example int_of_float_trunc_neg : int_of_float (-2.75)%float = Returns (-2).
Proof. reflexivity. Qed.

Example int_of_float_nan : returned (int_of_float nan) = false.
Proof. reflexivity. Qed.

Example format_2f_tie_even : format_2f 0.125%float = "0.12".
Proof. vm_compute. reflexivity. Qed.

Example format_2f_tie_odd : format_2f 0.375%float = "0.38".
Proof. vm_compute. reflexivity. Qed.

Example format_2f_neg_zero : format_2f (-0.001953125)%float = "-0.00".
Proof. vm_compute. reflexivity. Qed.

Example int_truediv_zero : int_truediv 1 0 = Raises (Exception "division by zero").
Proof. reflexivity. Qed.

Example float_of_int_overflow : returned (float_of_int (2 ^ 1024)) = false.
Proof. vm_compute. reflexivity. Qed.

(** On the operands of the worker the division of the integers is the
    division of the floats they convert to. *)
Example int_truediv_constants :
  int_truediv 34500000 120000000 = Returns (34500000 / 120000000)%float.
Proof. vm_compute. reflexivity. Qed.

(** The quotient of two integers too large for a [float] is computed all
    the same, and rounded once. *)
Example int_truediv_large :
  float_of_int (10 ^ 400) = Raises (Exception "int too large to convert to float") /\
  int_truediv (10 ^ 400) (10 ^ 399) = Returns 10%float /\
  int_truediv (2 ^ 1100 + 1) (2 ^ 1100) = Returns 1%float.
Proof. by vm_compute. Qed.

(** A quotient above the largest double raises; a zero takes the sign of
    the divisor. *)
Example int_truediv_edges :
  int_truediv (2 ^ 1024) 1 =
    Raises (Exception "integer division result too large for a float") /\
  outcome_map Prim2SF (int_truediv 0 (-5)) = Returns (S754_zero true) /\
  int_truediv 1 3 = Returns (1 / 3)%float /\
  int_truediv (-7) 2 = Returns (-3.5)%float.
Proof. by vm_compute. Qed.
