(* ===== verification/Env.v ===== *)
(** * Env: the outside world of the worker

    The worker imports and calls libraries it does not define: [os] and
    [dotenv] when the module is loaded, then the Aleo SDK ([aleo]), [requests], [time] and
    the market store [db]; and it prints.
    [call X] lists those calls, one constructor per function or method the
    source uses, with the arguments the source passes and the type [X] of
    what comes back.  An [Env] answers every call, from a state of its own,
    with a value or an exception.  [exec] is the one way a program makes a
    call: it asks the handler and records the call and its answer as an
    [event], so the trace of a run is the list of everything the worker did
    to the outside world, in order. *)

From Stdlib Require Import ZArith Floats.
From stdpp Require Import base tactics strings list.
From S2P Require Import Prelude Runs.

(** ** The values exchanged *)

(** The classes of the Aleo SDK whose instances the worker holds. *)
Class SdkTypes : Type := {
  PrivateKey : Type;
  Query : Type;
  Process : Type;
  Program : Type;
  ProgramID : Type;
  Identifier : Type;
  Value : Type;
  Authorization : Type;
  Response : Type;
  Trace : Type;
  Locator : Type;
  Execution : Type;
  Field : Type;
  Fee : Type;
  Transaction : Type;
}.

(** What [requests.post] returns, as far as the worker reads it. *)
Record http_response : Type := {
  status_code : Z;
  text : string;
}.

(** A row of [db.get_pending_markets()]: the tuple the [for] of [main]
    unpacks. *)
Record market_row : Type := {
  market_id : string;
  deadline : Z;
  threshold : float;
  metric_type : string;
}.

Section Calls.
Context `{SdkTypes}.

(** The external calls of worker.py.  Methods are named Class_method, and
    take the receiver first. *)
Inductive call : Type -> Type :=
| import_module (name : string) : call unit
| os_path_dirname (path : string) : call string
| os_path_join (dir name : string) : call string
| load_dotenv (dotenv_path : string) : call bool
| os_getenv (name : string) : call (option string)
| PrivateKey_from_string (s : string) : call PrivateKey
| Query_rest (url : string) : call Query
| Process_load : call Process
| Query_get_program (q : Query) (program_id : string) : call string
| Program_from_string (source : string) : call Program
| Process_add_program (p : Process) (program : Program) : call unit
| Identifier_from_string (s : string) : call Identifier
| Value_from_string (s : string) : call Value
| Program_id (program : Program) : call ProgramID
| Process_authorize (p : Process) (private_key : PrivateKey) (pid : ProgramID)
    (function_name : Identifier) (inputs : list Value) : call Authorization
| Process_execute (p : Process) (auth : Authorization) : call (Response * Trace)
| Trace_prepare (t : Trace) (q : Query) : call unit
| Locator_new (pid : ProgramID) (function_name : Identifier) : call Locator
| Trace_prove_execution (t : Trace) (l : Locator) : call Execution
| Execution_execution_id (e : Execution) : call Field
| Field_str (f : Field) : call string
| Process_verify_execution (p : Process) (e : Execution) : call unit
| Process_authorize_fee_public (p : Process) (private_key : PrivateKey)
    (fee_cost : Z) (execution_id : Field) (priority_fee : option Z) : call Authorization
| Trace_prove_fee (t : Trace) : call Fee
| Process_verify_fee (p : Process) (fee : Fee) (execution_id : Field) : call unit
| Transaction_from_execution (e : Execution) (fee : Fee) : call Transaction
| Transaction_to_json (t : Transaction) : call string
| requests_post (url : string) (data : string) : call http_response
| print (line : string) : call unit
| time_time : call float
| time_sleep (seconds : Z) : call unit
| db_init_db : call unit
| db_get_pending_markets : call (list market_row)
| db_mark_resolved (market_id : string) : call unit.

(** A call that was made, with its answer: one constructor per call. *)
Inductive event : Type :=
| Ev_import_module (name : string) (r : outcome unit)
| Ev_os_path_dirname (path : string) (r : outcome string)
| Ev_os_path_join (dir name : string) (r : outcome string)
| Ev_load_dotenv (dotenv_path : string) (r : outcome bool)
| Ev_os_getenv (name : string) (r : outcome (option string))
| Ev_PrivateKey_from_string (s : string) (r : outcome PrivateKey)
| Ev_Query_rest (url : string) (r : outcome Query)
| Ev_Process_load (r : outcome Process)
| Ev_Query_get_program (q : Query) (program_id : string) (r : outcome string)
| Ev_Program_from_string (source : string) (r : outcome Program)
| Ev_Process_add_program (p : Process) (program : Program) (r : outcome unit)
| Ev_Identifier_from_string (s : string) (r : outcome Identifier)
| Ev_Value_from_string (s : string) (r : outcome Value)
| Ev_Program_id (program : Program) (r : outcome ProgramID)
| Ev_Process_authorize (p : Process) (private_key : PrivateKey) (pid : ProgramID) (function_name : Identifier) (inputs : list Value) (r : outcome Authorization)
| Ev_Process_execute (p : Process) (auth : Authorization) (r : outcome (Response * Trace))
| Ev_Trace_prepare (t : Trace) (q : Query) (r : outcome unit)
| Ev_Locator_new (pid : ProgramID) (function_name : Identifier) (r : outcome Locator)
| Ev_Trace_prove_execution (t : Trace) (l : Locator) (r : outcome Execution)
| Ev_Execution_execution_id (e : Execution) (r : outcome Field)
| Ev_Field_str (f : Field) (r : outcome string)
| Ev_Process_verify_execution (p : Process) (e : Execution) (r : outcome unit)
| Ev_Process_authorize_fee_public (p : Process) (private_key : PrivateKey) (fee_cost : Z) (execution_id : Field) (priority_fee : option Z) (r : outcome Authorization)
| Ev_Trace_prove_fee (t : Trace) (r : outcome Fee)
| Ev_Process_verify_fee (p : Process) (fee : Fee) (execution_id : Field) (r : outcome unit)
| Ev_Transaction_from_execution (e : Execution) (fee : Fee) (r : outcome Transaction)
| Ev_Transaction_to_json (t : Transaction) (r : outcome string)
| Ev_requests_post (url : string) (data : string) (r : outcome http_response)
| Ev_print (line : string) (r : outcome unit)
| Ev_time_time (r : outcome float)
| Ev_time_sleep (seconds : Z) (r : outcome unit)
| Ev_db_init_db (r : outcome unit)
| Ev_db_get_pending_markets (r : outcome (list market_row))
| Ev_db_mark_resolved (market_id : string) (r : outcome unit).

(** The event a call and its answer make. *)
Definition event_of {X : Type} (c : call X) : outcome X -> event :=
  match c with
  | import_module name => Ev_import_module name
  | os_path_dirname path => Ev_os_path_dirname path
  | os_path_join dir name => Ev_os_path_join dir name
  | load_dotenv dotenv_path => Ev_load_dotenv dotenv_path
  | os_getenv name => Ev_os_getenv name
  | PrivateKey_from_string s => Ev_PrivateKey_from_string s
  | Query_rest url => Ev_Query_rest url
  | Process_load => Ev_Process_load
  | Query_get_program q program_id => Ev_Query_get_program q program_id
  | Program_from_string source => Ev_Program_from_string source
  | Process_add_program p program => Ev_Process_add_program p program
  | Identifier_from_string s => Ev_Identifier_from_string s
  | Value_from_string s => Ev_Value_from_string s
  | Program_id program => Ev_Program_id program
  | Process_authorize p private_key pid function_name inputs => Ev_Process_authorize p private_key pid function_name inputs
  | Process_execute p auth => Ev_Process_execute p auth
  | Trace_prepare t q => Ev_Trace_prepare t q
  | Locator_new pid function_name => Ev_Locator_new pid function_name
  | Trace_prove_execution t l => Ev_Trace_prove_execution t l
  | Execution_execution_id e => Ev_Execution_execution_id e
  | Field_str f => Ev_Field_str f
  | Process_verify_execution p e => Ev_Process_verify_execution p e
  | Process_authorize_fee_public p private_key fee_cost execution_id priority_fee => Ev_Process_authorize_fee_public p private_key fee_cost execution_id priority_fee
  | Trace_prove_fee t => Ev_Trace_prove_fee t
  | Process_verify_fee p fee execution_id => Ev_Process_verify_fee p fee execution_id
  | Transaction_from_execution e fee => Ev_Transaction_from_execution e fee
  | Transaction_to_json t => Ev_Transaction_to_json t
  | requests_post url data => Ev_requests_post url data
  | print line => Ev_print line
  | time_time => Ev_time_time
  | time_sleep seconds => Ev_time_sleep seconds
  | db_init_db => Ev_db_init_db
  | db_get_pending_markets => Ev_db_get_pending_markets
  | db_mark_resolved market_id => Ev_db_mark_resolved market_id
  end.

(** An environment: a state and the answer to each call from it. *)
Class Env : Type := {
  ext : Type;
  handle : forall X, call X -> ext -> outcome X * ext;
}.

Context `{Env}.

(** Make the call [c]. *)
Definition exec {X} (c : call X) : io ext event X :=
  fun s => let '(r, s') := handle X c s in (r, s', [event_of c r]).

(** ** Observations on events *)

(** The event is an HTTP POST. *)
Definition is_post (e : event) : bool :=
  match e with Ev_requests_post _ _ _ => true | _ => false end.

(** The event is an HTTP POST the node answered with status 200. *)
Definition is_accepted_post (e : event) : bool :=
  match e with
  | Ev_requests_post _ _ (Returns resp) => bool_decide (status_code resp = 200%Z)
  | _ => false
  end.

(** The event is [db.mark_resolved], whatever it answered. *)
Definition is_mark_resolved (e : event) : bool :=
  match e with Ev_db_mark_resolved _ _ => true | _ => false end.

(** The event is [db.mark_resolved(id)]. *)
Definition is_mark_resolved_of (id : string) (e : event) : bool :=
  match e with Ev_db_mark_resolved id' _ => bool_decide (id' = id) | _ => false end.

(** The event is a [print]. *)
Definition is_print (e : event) : bool :=
  match e with Ev_print _ _ => true | _ => false end.

(** The exception the call of the event raised, if it raised. *)
Definition ev_exn (e : event) : option exn :=
  match e with
  | Ev_import_module _ r => outcome_exn r
  | Ev_os_path_dirname _ r => outcome_exn r
  | Ev_os_path_join _ _ r => outcome_exn r
  | Ev_load_dotenv _ r => outcome_exn r
  | Ev_os_getenv _ r => outcome_exn r
  | Ev_PrivateKey_from_string _ r => outcome_exn r
  | Ev_Query_rest _ r => outcome_exn r
  | Ev_Process_load r => outcome_exn r
  | Ev_Query_get_program _ _ r => outcome_exn r
  | Ev_Program_from_string _ r => outcome_exn r
  | Ev_Process_add_program _ _ r => outcome_exn r
  | Ev_Identifier_from_string _ r => outcome_exn r
  | Ev_Value_from_string _ r => outcome_exn r
  | Ev_Program_id _ r => outcome_exn r
  | Ev_Process_authorize _ _ _ _ _ r => outcome_exn r
  | Ev_Process_execute _ _ r => outcome_exn r
  | Ev_Trace_prepare _ _ r => outcome_exn r
  | Ev_Locator_new _ _ r => outcome_exn r
  | Ev_Trace_prove_execution _ _ r => outcome_exn r
  | Ev_Execution_execution_id _ r => outcome_exn r
  | Ev_Field_str _ r => outcome_exn r
  | Ev_Process_verify_execution _ _ r => outcome_exn r
  | Ev_Process_authorize_fee_public _ _ _ _ _ r => outcome_exn r
  | Ev_Trace_prove_fee _ r => outcome_exn r
  | Ev_Process_verify_fee _ _ _ r => outcome_exn r
  | Ev_Transaction_from_execution _ _ r => outcome_exn r
  | Ev_Transaction_to_json _ r => outcome_exn r
  | Ev_requests_post _ _ r => outcome_exn r
  | Ev_print _ r => outcome_exn r
  | Ev_time_time r => outcome_exn r
  | Ev_time_sleep _ r => outcome_exn r
  | Ev_db_init_db r => outcome_exn r
  | Ev_db_get_pending_markets r => outcome_exn r
  | Ev_db_mark_resolved _ r => outcome_exn r
  end.

(** The call of the event raised. *)
Definition ev_raised (e : event) : bool :=
  match ev_exn e with Some _ => true | None => false end.

End Calls.

Arguments call {_} _.
Arguments event {_}.
Arguments Env {_}.
Arguments exec {_ _ _} c _.

(** ** Tactics *)

(** Name the answer of every call the goal is waiting for, and split on it. *)
Ltac destruct_handles :=
  repeat match goal with
  | |- context [handle ?X ?c ?s] =>
      let r := fresh "r" in let s' := fresh "s" in
      destruct (handle X c s) as [r s'] eqn:?; simpl
  end.

(** Run the program of the goal against every answer of the handler.
    Hypotheses about the run are to be left in the goal. *)
Ltac exec_crush :=
  unfold exec; io_unfold; simpl;
  repeat (destruct_handles; destruct_outcomes; try case_bool_decide; simpl);
  try done.

(** ** Theorems *)

Section ExecFacts.
Context `{SdkTypes} `{!Env}.

(** The event of a call carries the exception of its answer. *)
Lemma ev_exn_event_of {X} (c : call X) (r : outcome X) :
  ev_exn (event_of c r) = outcome_exn r.
Proof. by destruct c. Qed.

Lemma ev_raised_event_of {X} (c : call X) (r : outcome X) :
  ev_raised (event_of c r) = negb (returned r).
Proof. unfold ev_raised. rewrite ev_exn_event_of. by destruct r. Qed.

(** A call leaves exactly one event, carrying the answer of the handler. *)
Lemma exec_run {X} (c : call X) (s : ext) :
  exec c s = ((handle X c s).1, (handle X c s).2, [event_of c (handle X c s).1]).
Proof. unfold exec. by destruct (handle X c s). Qed.

Lemma exec_trace_length {X} (c : call X) (s : ext) :
  length (trace_of (exec c s)) = 1%nat.
Proof. by rewrite exec_run. Qed.

(** A property of every answer to a call holds of the trace of the call. *)
Lemma exec_trace {X} (c : call X) (s : ext) (P : list event -> Prop) :
  (forall r, P [event_of c r]) -> P (trace_of (exec c s)).
Proof. intros HP. rewrite exec_run. apply HP. Qed.

(** A relation that holds of a call and its answer holds of the run that
    makes the call. *)
Lemma runs_exec {X} (R : ext -> list event -> ext -> Prop) (c : call X) :
  (forall s, R s [event_of c (handle X c s).1] (handle X c s).2) -> runs R (exec c).
Proof. intros HR s. rewrite exec_run. apply HR. Qed.

Lemma traces_exec {X} (P : list event -> Prop) (c : call X) :
  (forall r, P [event_of c r]) -> traces P (exec c).
Proof. intros HP s. by apply exec_trace. Qed.

(** A call is one event. *)
Lemma bounded_exec {X} (p : event -> bool) (c : call X) : bounded p 1 (exec c).
Proof.
  intros s. rewrite exec_run. unfold trace_of, count_ev. simpl.
  destruct (p _); simpl; lia.
Qed.

(** And none of a kind it never is. *)
Lemma bounded_exec_none {X} (p : event -> bool) (c : call X) :
  (forall r, p (event_of c r) = false) -> bounded p 0 (exec c).
Proof.
  intros Hp s. rewrite exec_run. unfold trace_of, count_ev. simpl. by rewrite Hp.
Qed.

End ExecFacts.
