(* ===== verification/Store.v ===== *)
(** * Store: the market store and its contract

    [db] is not part of the sources; the loop relies on its contract:
    [get_pending_markets] lists the markets not yet resolved, in store
    order, and [mark_resolved] flags every row of an id.  [store] models the
    registry as the list of its rows with their status.

    [StoreLaws] states the contract for an environment: the environment
    holds a store, [db.get_pending_markets()] returns its pending rows, and
    the store changes by the calls of [db.mark_resolved] that return and by
    nothing else.  The theorems that follow a market through the rounds of
    the loop are proved for every environment with these laws; [Reference]
    gives one. *)

From Stdlib Require Import ZArith Floats.
From stdpp Require Import base tactics strings list.
From S2P Require Import Prelude Runs Python Env.

(** ** Definitions *)

Record store_row : Type := {
  row : market_row;
  resolved : bool;
}.

Definition store : Type := list store_row.

(** [db.get_pending_markets()]. *)
Definition get_pending_markets (st : store) : list market_row :=
  map row (List.filter (fun r => negb (resolved r)) st).

(** [db.mark_resolved(market_id)]. *)
Definition mark_resolved (id : string) (st : store) : store :=
  map (fun r => if bool_decide (market_id (row r) = id)
               then {| row := row r; resolved := true |} else r) st.

(** The ids of the pending markets. *)
Definition pending_ids (st : store) : list string :=
  map market_id (get_pending_markets st).

(** The ids of all the markets. *)
Definition ids (st : store) : list string :=
  map (fun r => market_id (row r)) st.

(** A store is well formed when the id is a key. *)
Definition wf_store (st : store) : Prop := NoDup (ids st).

(** A row is not the market [id]. *)
Definition other_than (id : string) (m : market_row) : bool :=
  negb (bool_decide (market_id m = id)).

Section Store.
Context `{SdkTypes}.

(** What a call does to the store: a [mark_resolved] that returned marks,
    and nothing else changes it. *)
Definition apply_event (st : store) (e : event) : store :=
  match e with
  | Ev_db_mark_resolved id (Returns _) => mark_resolved id st
  | _ => st
  end.

(** The store after a trace. *)
Definition apply_marks (t : list event) (st : store) : store :=
  foldl apply_event st t.

(** The event is a [db.mark_resolved(id)] that returned. *)
Definition is_marked_of (id : string) (e : event) : bool :=
  match e with
  | Ev_db_mark_resolved id' (Returns _) => bool_decide (id' = id)
  | _ => false
  end.

(** The contract of [db], for an environment. *)
Class StoreLaws {env : Env} : Type := {
  store_of : ext -> store;
  store_law : forall X (c : call X) (s : ext),
    store_of (handle X c s).2 =
    apply_event (store_of s) (event_of c (handle X c s).1);
  pending_law : forall (s : ext) (l : list market_row),
    (handle _ db_get_pending_markets s).1 = Returns l ->
    l = get_pending_markets (store_of s);
}.

(** The store after a run is the store before it with the marks of its
    trace. *)
Definition follows `{!Env} `{!StoreLaws} (s : ext) (t : list event) (s' : ext) : Prop :=
  store_of s' = apply_marks t (store_of s).

End Store.

(** ** Theorems *)

(** *** The store *)

(** The pending rows after a mark are the pending rows that are not the
    market marked. *)
Lemma get_pending_mark_resolved (id : string) (st : store) :
  get_pending_markets (mark_resolved id st) =
  List.filter (other_than id) (get_pending_markets st).
Proof.
  unfold get_pending_markets, mark_resolved, other_than.
  induction st as [|r st IH]; simpl; [done|].
  destruct (bool_decide (market_id (row r) = id)) eqn:Hid, (resolved r) eqn:Hr;
    simpl; rewrite ?Hr, ?Hid; simpl; by rewrite ?Hid, IH.
Qed.

Lemma pending_ids_mark_resolved (id : string) (st : store) :
  pending_ids (mark_resolved id st) =
  List.filter (fun i => negb (bool_decide (i = id))) (pending_ids st).
Proof.
  unfold pending_ids. rewrite get_pending_mark_resolved.
  induction (get_pending_markets st) as [|m l IH]; simpl; [done|].
  unfold other_than at 1. destruct (bool_decide (market_id m = id)); simpl; by rewrite IH.
Qed.

(** A marked market is no longer pending. *)
Lemma mark_resolved_not_pending (id : string) (st : store) :
  id ∉ pending_ids (mark_resolved id st).
Proof.
  rewrite pending_ids_mark_resolved, list_elem_of_In, filter_In.
  intros [_ Hid]. by rewrite bool_decide_eq_true_2 in Hid.
Qed.

(** A market that is not pending stays so. *)
Lemma mark_resolved_keeps_not_pending (id id' : string) (st : store) :
  id ∉ pending_ids st -> id ∉ pending_ids (mark_resolved id' st).
Proof.
  rewrite pending_ids_mark_resolved, !list_elem_of_In, filter_In. tauto.
Qed.

(** Marking a market that is not pending changes nothing for the loop. *)
Lemma mark_resolved_not_pending_id (id : string) (st : store) :
  id ∉ pending_ids st ->
  get_pending_markets (mark_resolved id st) = get_pending_markets st.
Proof.
  unfold pending_ids. rewrite get_pending_mark_resolved.
  induction (get_pending_markets st) as [|m l IH]; simpl; [done|].
  rewrite not_elem_of_cons. intros [Hm Hl]. unfold other_than at 1.
  rewrite bool_decide_eq_false_2 by done. simpl. by rewrite IH.
Qed.

(** Marking makes the pending list no longer. *)
Lemma mark_resolved_pending_le (id : string) (st : store) :
  length (get_pending_markets (mark_resolved id st)) <=
  length (get_pending_markets st).
Proof. rewrite get_pending_mark_resolved. apply filter_length_le. Qed.

(** Marking twice is marking once. *)
Lemma mark_resolved_idem (id : string) (st : store) :
  mark_resolved id (mark_resolved id st) = mark_resolved id st.
Proof.
  unfold mark_resolved. rewrite map_map. apply map_ext. intros r.
  by repeat (case_bool_decide; simpl).
Qed.

(** Marks commute. *)
Lemma mark_resolved_comm (id id' : string) (st : store) :
  mark_resolved id (mark_resolved id' st) = mark_resolved id' (mark_resolved id st).
Proof.
  unfold mark_resolved. rewrite !map_map. apply map_ext. intros r.
  by repeat (case_bool_decide; simpl).
Qed.

(** Marking changes no id, so it keeps the store well formed. *)
Lemma ids_mark_resolved (id : string) (st : store) :
  ids (mark_resolved id st) = ids st.
Proof.
  unfold ids, mark_resolved. rewrite map_map. apply map_ext. intros r.
  by case_bool_decide.
Qed.

Lemma mark_resolved_wf (id : string) (st : store) :
  wf_store st -> wf_store (mark_resolved id st).
Proof. unfold wf_store. by rewrite ids_mark_resolved. Qed.

Lemma mark_resolved_length (id : string) (st : store) :
  length (mark_resolved id st) = length st.
Proof. unfold mark_resolved. by rewrite length_map. Qed.

(** The pending ids are ids of the store, in its order. *)
Lemma pending_ids_sublist (st : store) : sublist (pending_ids st) (ids st).
Proof.
  unfold pending_ids, get_pending_markets, ids.
  induction st as [|r st IH]; simpl; [done|].
  destruct (resolved r); simpl; by constructor.
Qed.

(** In a well-formed store no two pending rows have the same id. *)
Lemma wf_store_pending (st : store) : wf_store st -> NoDup (pending_ids st).
Proof. intros Hwf. eapply sublist_NoDup; [done | apply pending_ids_sublist]. Qed.

Lemma pending_length_le (st : store) :
  length (get_pending_markets st) <= length st.
Proof.
  unfold get_pending_markets. rewrite length_map. apply filter_length_le.
Qed.

(** *** The store along a trace *)

Section StoreFacts.
Context `{SdkTypes}.

Lemma apply_marks_cons (e : event) (t : list event) (st : store) :
  apply_marks (e :: t) st = apply_marks t (apply_event st e).
Proof. done. Qed.

Lemma apply_marks_app (t1 t2 : list event) (st : store) :
  apply_marks (t1 ++ t2) st = apply_marks t2 (apply_marks t1 st).
Proof. unfold apply_marks. by rewrite foldl_app. Qed.

Lemma apply_marks_ids (t : list event) (st : store) :
  ids (apply_marks t st) = ids st.
Proof.
  revert st. induction t as [|e t IH]; intros st; [done|]. simpl. rewrite IH.
  destruct e; try done. destruct r; [simpl|done]. apply ids_mark_resolved.
Qed.

(** A trace keeps the ids of the store, so its length and its being well
    formed. *)
Lemma apply_marks_wf (t : list event) (st : store) :
  wf_store st -> wf_store (apply_marks t st).
Proof. unfold wf_store. by rewrite apply_marks_ids. Qed.

Lemma apply_marks_length (t : list event) (st : store) :
  length (apply_marks t st) = length st.
Proof.
  revert st. induction t as [|e t IH]; intros st; [done|]. simpl. rewrite IH.
  destruct e; try done. destruct r; [simpl|done]. apply mark_resolved_length.
Qed.

(** A market that is not pending is not pending after any trace. *)
Lemma apply_marks_keeps_not_pending (id : string) (t : list event) (st : store) :
  id ∉ pending_ids st -> id ∉ pending_ids (apply_marks t st).
Proof.
  revert st. induction t as [|e t IH]; intros st Hid; [done|].
  apply IH. destruct e; try done. destruct r; [simpl|done].
  by apply mark_resolved_keeps_not_pending.
Qed.

(** A market marked in a trace is not pending after it. *)
Lemma apply_marks_marked (id : string) (t : list event) (st : store) :
  count_ev (is_marked_of id) t <> 0 -> id ∉ pending_ids (apply_marks t st).
Proof.
  revert st. induction t as [|e t IH]; intros st; [done|].
  rewrite count_ev_cons. change (apply_marks (e :: t) st) with (apply_marks t (apply_event st e)).
  destruct (is_marked_of id e) eqn:He.
  - intros _. apply apply_marks_keeps_not_pending.
    destruct e; try done. destruct r; [simpl in *|done].
    apply bool_decide_eq_true in He as ->. apply mark_resolved_not_pending.
  - intros Ht. apply IH. lia.
Qed.

(** A mark that returned is a mark. *)
Lemma marked_is_mark (id : string) (e : event) :
  is_marked_of id e = true -> is_mark_resolved_of id e = true.
Proof. destruct e; try done. by destruct r. Qed.

(** A trace without marks leaves the store as it is. *)
Lemma apply_marks_no_marks (t : list event) (st : store) :
  count_ev is_mark_resolved t = 0 -> apply_marks t st = st.
Proof.
  revert st. induction t as [|e t IH]; intros st; [done|].
  rewrite count_ev_cons. destruct e; simpl; try (intros; apply IH; lia). lia.
Qed.

Section Laws.
Context `{!Env} `{!StoreLaws}.

#[export] Instance follows_closed : RunClosed follows.
Proof.
  split; [done|]. unfold follows. intros s1 t1 s2 t2 s3 Ha Hb.
  by rewrite apply_marks_app, <- Ha.
Qed.

(** Every call follows the store. *)
Lemma exec_follows {X} (c : call X) : runs follows (exec c).
Proof. intros s. rewrite exec_run. unfold follows. simpl. apply store_law. Qed.

(** A call that is not [db.mark_resolved] leaves the store. *)
Lemma store_law_other {X} (c : call X) (s : ext) :
  (forall r, is_mark_resolved (event_of c r) = false) ->
  store_of (handle X c s).2 = store_of s.
Proof.
  intros Hc. rewrite store_law. specialize (Hc (handle X c s).1).
  by destruct (event_of c (handle X c s).1).
Qed.

End Laws.

End StoreFacts.
