(* ===== verification/Reference.v ===== *)
(** * Reference: an environment to run the worker in

    [reference] is a whole environment built around the store of [Store]: the
    variables of the process and the [.env] file, a clock, a console, a node
    that records what it accepted, and a stand-in for the SDK whose objects
    are the texts that describe them.  A [script] chooses
    the status the node answers with and which call, counted from 0, raises
    what; the theorems of the other files are applied to it. *)

From Stdlib Require Import ZArith Floats Ascii.
From stdpp Require Import base tactics strings list.
From S2P Require Import Prelude Python Env Store.

(** ** The reference environment *)

#[export] Instance text_sdk : SdkTypes := {|
  PrivateKey := string; Query := string; Process := string; Program := string;
  ProgramID := string; Identifier := string; Value := string;
  Authorization := string; Response := string; Trace := string;
  Locator := string; Execution := string; Field := string; Fee := string;
  Transaction := string;
|}.

Record script : Type := {
  fault : nat -> option exn;
  post_status : Z;
  node_down : option exn;
}.

Record world : Type := {
  w_store : store;
  w_clock : float;
  w_calls : nat;
  w_stdout : list string;
  w_node : list string;
  w_environ : list (string * string);
  w_dotenv : list (string * string);
}.

(** One more call was made. *)
Definition tick (w : world) : world :=
  {| w_store := w_store w; w_clock := w_clock w; w_calls := S (w_calls w);
     w_stdout := w_stdout w; w_node := w_node w;
     w_environ := w_environ w; w_dotenv := w_dotenv w |}.

Definition with_store (st : store) (w : world) : world :=
  {| w_store := st; w_clock := w_clock w; w_calls := w_calls w;
     w_stdout := w_stdout w; w_node := w_node w;
     w_environ := w_environ w; w_dotenv := w_dotenv w |}.

Definition with_clock (c : float) (w : world) : world :=
  {| w_store := w_store w; w_clock := c; w_calls := w_calls w;
     w_stdout := w_stdout w; w_node := w_node w;
     w_environ := w_environ w; w_dotenv := w_dotenv w |}.

Definition with_line (line : string) (w : world) : world :=
  {| w_store := w_store w; w_clock := w_clock w; w_calls := w_calls w;
     w_stdout := w_stdout w ++ [line]; w_node := w_node w;
     w_environ := w_environ w; w_dotenv := w_dotenv w |}.

Definition with_accepted (body : string) (w : world) : world :=
  {| w_store := w_store w; w_clock := w_clock w; w_calls := w_calls w;
     w_stdout := w_stdout w; w_node := w_node w ++ [body];
     w_environ := w_environ w; w_dotenv := w_dotenv w |}.

Definition with_environ (vars : list (string * string)) (w : world) : world :=
  {| w_store := w_store w; w_clock := w_clock w; w_calls := w_calls w;
     w_stdout := w_stdout w; w_node := w_node w;
     w_environ := vars; w_dotenv := w_dotenv w |}.

Definition with_dotenv (vars : list (string * string)) (w : world) : world :=
  {| w_store := w_store w; w_clock := w_clock w; w_calls := w_calls w;
     w_stdout := w_stdout w; w_node := w_node w;
     w_environ := w_environ w; w_dotenv := vars |}.

(** The value of a variable in a list of bindings; the first one counts. *)
Fixpoint lookup_var (name : string) (vars : list (string * string)) : option string :=
  match vars with
  | [] => None
  | (n, v) :: vars' => if bool_decide (n = name) then Some v else lookup_var name vars'
  end.

(** The bindings of the [.env] file come after those of the process, which
    they do not override. *)
Definition merge_dotenv (w : world) : world :=
  with_environ (w_environ w ++ w_dotenv w) w.

(** The part of a path before its last [/]. *)
Fixpoint dirname_go (path : string) : option string :=
  match path with
  | EmptyString => None
  | String a rest =>
      match dirname_go rest with
      | Some d => Some (String a d)
      | None => if Ascii.eqb a "/"%char then Some EmptyString else None
      end
  end.

Definition dirname (path : string) : string := default "" (dirname_go path).

(** A clock shows a time: what is not a number reads as zero. *)
Definition finite_or_zero (x : float) : float :=
  match Prim2SF x with
  | S754_nan | S754_infinity _ => 0%float
  | _ => x
  end.

(** The answer to a call that does not raise. *)
Definition answer (sc : script) {X : Type} (c : call X) (w : world) : X * world :=
  match c in call X return X * world with
  | import_module _ => (tt, w)
  | os_path_dirname path => (dirname path, w)
  | os_path_join dir name => (dir +:+ "/" +:+ name, w)
  | load_dotenv _ => (bool_decide (w_dotenv w <> []), merge_dotenv w)
  | os_getenv name => (lookup_var name (w_environ w), w)
  | PrivateKey_from_string s => (s, w)
  | Query_rest url => (url, w)
  | Process_load => ("process", w)
  | Query_get_program _ program_id => ("program " +:+ program_id +:+ ";", w)
  | Program_from_string source => (source, w)
  | Process_add_program _ _ => (tt, w)
  | Identifier_from_string s => (s, w)
  | Value_from_string s => (s, w)
  | Program_id program => (program, w)
  | Process_authorize _ _ _ f inputs =>
      ("auth " +:+ f +:+ "(" +:+ String.concat "," inputs +:+ ")", w)
  | Process_execute _ auth => (("response", "trace of " +:+ auth), w)
  | Trace_prepare _ _ => (tt, w)
  | Locator_new pid f => (pid +:+ "/" +:+ f, w)
  | Trace_prove_execution t _ => ("execution of " +:+ t, w)
  | Execution_execution_id e => ("id of " +:+ e, w)
  | Field_str f => (f, w)
  | Process_verify_execution _ _ => (tt, w)
  | Process_authorize_fee_public _ _ _ execution_id _ =>
      ("fee auth for " +:+ execution_id, w)
  | Trace_prove_fee t => ("fee of " +:+ t, w)
  | Process_verify_fee _ _ _ => (tt, w)
  | Transaction_from_execution e fee => ("tx[" +:+ e +:+ "; " +:+ fee +:+ "]", w)
  | Transaction_to_json t => (t, w)
  | requests_post _ data =>
      ({| status_code := post_status sc; text := " at1accepted " |},
       if bool_decide (post_status sc = 200%Z) then with_accepted data w else w)
  | print line => (tt, with_line line w)
  | time_time => (finite_or_zero (w_clock w), w)
  | time_sleep seconds =>
      (tt, match float_of_int seconds with
           | Returns d => with_clock (w_clock w + d)%float w
           | Raises _ => w
           end)
  | db_init_db => (tt, w)
  | db_get_pending_markets => (get_pending_markets (w_store w), w)
  | db_mark_resolved id => (tt, with_store (mark_resolved id (w_store w)) w)
  end.

(** What the script makes of a call: the call counted [w_calls w] raises
    when the script says so, and every POST does when the node is down. *)
Definition refusal (sc : script) {X : Type} (c : call X) (w : world) : option exn :=
  match fault sc (w_calls w) with
  | Some e => Some e
  | None => match c with requests_post _ _ => node_down sc | _ => None end
  end.

(** The handler: a call the script refuses raises, the others are
    answered. *)
Definition reference_handle (sc : script) (X : Type) (c : call X) (w : world)
    : outcome X * world :=
  match refusal sc c w with
  | Some e => (Raises e, tick w)
  | None => let '(x, w') := answer sc c w in (Returns x, tick w')
  end.

Definition reference (sc : script) : Env :=
  {| ext := world; handle := reference_handle sc |}.

(** A script without faults, on a node that accepts. *)
Definition cooperative : script :=
  {| fault := fun _ => None; post_status := 200; node_down := None |}.

(** The node answers with [status]. *)
Definition answering (status : Z) : script :=
  {| fault := fun _ => None; post_status := status; node_down := None |}.

(** Call number [k] raises [e]. *)
Definition failing_at (k : nat) (e : exn) : script :=
  {| fault := fun n => if bool_decide (n = k) then Some e else None;
     post_status := 200; node_down := None |}.

(** The node cannot be reached: every POST raises [e]. *)
Definition unreachable (e : exn) : script :=
  {| fault := fun _ => None; post_status := 200; node_down := Some e |}.

(** A world with the given store and clock, and nothing done yet. *)
Definition start (st : store) (clock : float) : world :=
  {| w_store := st; w_clock := clock; w_calls := 0; w_stdout := []; w_node := [];
     w_environ := []; w_dotenv := [] |}.

(** ** Theorems *)

(** The reference environment keeps the contract of the store, whatever
    the script: a call that raises changes nothing but the count of calls. *)
Lemma reference_store_law (sc : script) X (c : call X) (w : world) :
  w_store (reference_handle sc X c w).2 =
  apply_event (w_store w) (event_of c (reference_handle sc X c w).1).
Proof.
  unfold reference_handle. destruct (refusal sc c w); [by destruct c|].
  destruct c; simpl; try done.
  - by case_bool_decide.
  - by destruct (float_of_int seconds).
Qed.

Lemma reference_pending_law (sc : script) (w : world) (l : list market_row) :
  (reference_handle sc _ db_get_pending_markets w).1 = Returns l ->
  l = get_pending_markets (w_store w).
Proof.
  unfold reference_handle. destruct (refusal sc _ w); [done|].
  simpl. by intros [= <-].
Qed.

#[export] Instance reference_store_laws (sc : script) : StoreLaws (env := reference sc) := {|
  store_of := w_store : @ext _ (reference sc) -> store;
  store_law := reference_store_law sc;
  pending_law := reference_pending_law sc;
|}.
