(* ===== verification/Ledger.v ===== *)
(** * Ledger: marks are paid for by accepted broadcasts

    The invariant of the settlement, as a ledger over the trace: a POST the
    node answered with 200 earns one credit, a [db.mark_resolved] spends
    one, and the balance never goes below zero.  [credit] runs the ledger;
    [paid_spec] says the same of every prefix of the trace by counting, and
    the two are proved equivalent. *)

From Stdlib Require Import ZArith.
From stdpp Require Import base tactics strings list.
From S2P Require Import Prelude Runs Env.

Section Ledger.
Context `{SdkTypes}.

(** ** Definitions *)

(** The ledger of settlements: a POST the node accepted earns one credit,
    a [mark_resolved] spends one.  [None] when a mark is not paid for. *)
Fixpoint credit (c : nat) (t : list event) : option nat :=
  match t with
  | [] => Some c
  | e :: t' =>
      if is_accepted_post e then credit (S c) t'
      else if is_mark_resolved e then
        match c with O => None | S c' => credit c' t' end
      else credit c t'
  end.

(** Every [mark_resolved] of the trace is paid for by an accepted POST of
    its own that came before it. *)
Definition paid (t : list event) : Prop := is_Some (credit 0 t).

(** At every point of the trace, the marks so far are no more than [c] and
    the accepted POSTs so far. *)
Definition covered (c : nat) (t : list event) : Prop :=
  forall t1, t1 `prefix_of` t ->
    count_ev is_mark_resolved t1 <= c + count_ev is_accepted_post t1.

(** The specification of the ledger: at every point of the trace there are
    at least as many accepted POSTs as marks. *)
Definition paid_spec (t : list event) : Prop := covered 0 t.

(** ** Theorems *)

Lemma credit_app (c : nat) (t1 t2 : list event) :
  credit c (t1 ++ t2) = credit c t1 ≫= fun c' => credit c' t2.
Proof.
  revert c. induction t1 as [|e t1 IH]; intros c; simpl; [done|].
  destruct (is_accepted_post e); [done|].
  destruct (is_mark_resolved e); [|done]. by destruct c.
Qed.

(** More credit at the start is as much more at the end. *)
Lemma credit_add (c k : nat) (t : list event) (c' : nat) :
  credit c t = Some c' -> credit (c + k) t = Some (c' + k).
Proof.
  revert c. induction t as [|e t IH]; intros c; simpl; [by intros [= ->]|].
  destruct (is_accepted_post e); [apply (IH (S c))|].
  destruct (is_mark_resolved e); [|apply IH].
  destruct c as [|c]; [done|]. apply IH.
Qed.

#[export] Instance paid_closed : TraceClosed paid.
Proof.
  split; [by eexists|]. intros t1 t2 [c1 H1] [c2 H2]. unfold paid.
  rewrite credit_app, H1. simpl.
  apply (credit_add 0 c1) in H2. rewrite Nat.add_0_l in H2. by rewrite H2.
Qed.

(** A ledger that balances has balanced at every point. *)
Lemma paid_prefix (t1 t2 : list event) : t1 `prefix_of` t2 -> paid t2 -> paid t1.
Proof.
  intros [t ->]. unfold paid. rewrite credit_app. by destruct (credit 0 t1).
Qed.

(** A trace without marks earns its accepted POSTs. *)
Lemma credit_no_marks (c : nat) (t : list event) :
  count_ev is_mark_resolved t = 0 ->
  credit c t = Some (c + count_ev is_accepted_post t).
Proof.
  revert c. induction t as [|e t IH]; intros c Hm.
  - simpl. f_equal. unfold count_ev. simpl. lia.
  - rewrite count_ev_cons in *. simpl.
    destruct (is_accepted_post e), (is_mark_resolved e); try lia;
      rewrite IH by lia; f_equal; lia.
Qed.

Lemma paid_single (e : event) : is_mark_resolved e = false -> paid [e].
Proof. intros He. unfold paid. simpl. rewrite He. by destruct (is_accepted_post e). Qed.

Section Exec.
Context `{!Env}.

(** A call that is not [mark_resolved] is paid. *)
Lemma paid_exec {X} (c : call X) (s : ext) :
  (forall r, is_mark_resolved (event_of c r) = false) -> paid (trace_of (exec c s)).
Proof. intros Hc. apply exec_trace. auto using paid_single. Qed.

End Exec.

(** *** The ledger and its specification *)

(** An accepted POST is no mark. *)
Lemma accepted_post_no_mark (e : event) :
  is_accepted_post e = true -> is_mark_resolved e = false.
Proof. by destruct e. Qed.

(** What one more event at the front asks of the balance. *)
Lemma covered_cons (c : nat) (e : event) (t : list event) :
  covered c (e :: t) <->
  (if is_mark_resolved e then 1 else 0) <= c + (if is_accepted_post e then 1 else 0) /\
  covered (c + (if is_accepted_post e then 1 else 0)
             - (if is_mark_resolved e then 1 else 0)) t.
Proof.
  unfold covered. split.
  - intros Hc. split.
    + specialize (Hc [e] (prefix_cons e [] t (prefix_nil t))).
      count_events.
    + intros t1 Ht1. specialize (Hc (e :: t1) (prefix_cons _ _ _ Ht1)).
      count_events.
  - intros [He Hc] [|e' t1] Ht1; [change (count_ev _ []) with 0; lia|].
    apply prefix_cons_inv_1 in Ht1 as He'. subst e'.
    apply prefix_cons_inv_2 in Ht1. specialize (Hc t1 Ht1).
    count_events.
Qed.

(** The ledger runs to the end exactly when the balance covers every
    prefix. *)
Lemma credit_covered (c : nat) (t : list event) :
  is_Some (credit c t) <-> covered c t.
Proof.
  revert c. induction t as [|e t IH]; intros c.
  - split; [|by eexists]. intros _ t1 ->%prefix_nil_inv.
    change (count_ev _ []) with 0. lia.
  - rewrite covered_cons. simpl. destruct (is_accepted_post e) eqn:Ha.
    + rewrite (accepted_post_no_mark e Ha), IH.
      replace (c + 1 - 0) with (S c) by lia. split; [split; [lia|done] | by intros []].
    + destruct (is_mark_resolved e).
      * destruct c as [|c]; [split; [by intros [] | lia]|].
        rewrite IH. replace (S c + 0 - 1) with c by lia.
        split; [split; [lia|done] | by intros []].
      * rewrite IH. replace (c + 0 - 0) with c by lia.
        split; [split; [lia|done] | by intros []].
Qed.

(** The ledger is its specification: [paid] holds of a trace exactly when,
    at every point of the trace, the marks made so far are no more than the
    POSTs accepted so far. *)
Theorem paid_iff_paid_spec (t : list event) : paid t <-> paid_spec t.
Proof. apply credit_covered. Qed.

End Ledger.
