(* ===== verification/Source.v ===== *)
(** * Source: the outcome source, [fetch_eth_staking_data] (lines 15-45)

    The function prints a notice, computes the staking rate from two
    constants in floating point, prints it with two decimals and returns
    it; any [Exception] on the way is printed and turned into [None]. *)

From Stdlib Require Import ZArith Floats.
From stdpp Require Import base tactics strings list.
From S2P Require Import Prelude Python Env.

#[local] Open Scope io_scope.

(** ** Definitions *)

(** Line 36. *)
Definition total_staked : Z := 34500000.

(** Line 37. *)
Definition total_supply : Z := 120000000.

(** Line 39: [(total_staked / total_supply) * 100]. *)
Definition staking_rate : outcome float :=
  match int_truediv total_staked total_supply with
  | Returns q => float_mul_int q 100
  | Raises e => Raises e
  end.

Section Source.
Context `{SdkTypes} `{!Env}.

(** The body of the [try] (lines 33-42). *)
Definition fetch_body : io ext event (option float) :=
  exec (print "📸 Taking snapshot of ETH staking data...") ;;
  rate <- io_lift staking_rate ;;
  exec (print ("📊 Snapshot Value: " +:+ format_2f rate +:+ "%")) ;;
  io_ret (Some rate).

(** The [except Exception as e] clause (lines 43-45). *)
Definition fetch_handler (e : string) : io ext event (option float) :=
  exec (print ("❌ Error fetching staking data: " +:+ e)) ;;
  io_ret None.

Definition fetch_eth_staking_data : io ext event (option float) :=
  io_try_except fetch_body fetch_handler.

(** ** Theorems *)

(** The double the expression of line 39 evaluates to. *)
Definition snapshot : float := SF2Prim (S754_finite false 8092405580431359 (-48)).

(** Line 39 raises nothing and gives [snapshot]. *)
Lemma staking_rate_computes : staking_rate = Returns snapshot.
Proof. vm_compute. reflexivity. Qed.


(** The exact percentage is 28.75, a double; [snapshot] is not [>=] it. *)
Lemma snapshot_misses_exact :
  (total_staked * 100 * 4 = 115 * total_supply)%Z /\
  float_ge snapshot 28.75 = false.
Proof. by vm_compute. Qed.

(** The text of [snapshot] in the log. *)
Lemma format_2f_snapshot : format_2f snapshot = "28.75".
Proof. vm_compute. reflexivity. Qed.

(** With two decimals, as the worker logs it, [snapshot] prints as
    28.75 does, although it is smaller: the log does not tell them apart. *)
Lemma snapshot_prints_as :
  format_2f snapshot = format_2f 28.75 /\ format_2f 28.75 = "28.75" /\
  (snapshot <? 28.75)%float = true.
Proof. by vm_compute. Qed.

(** C36. When the console takes both lines, the measurement is [snapshot] and
    the trace is the two prints. *)
Lemma fetch_returns_snapshot (s s1 s2 : ext) :
  handle _ (print "📸 Taking snapshot of ETH staking data...") s = (Returns tt, s1) ->
  handle _ (print "📊 Snapshot Value: 28.75%") s1 = (Returns tt, s2) ->
  fetch_eth_staking_data s =
    (Returns (Some snapshot), s2,
     [Ev_print ("📸 Taking snapshot of ETH staking data...") (Returns tt);
      Ev_print ("📊 Snapshot Value: 28.75%") (Returns tt)]).
Proof.
  intros H1 H2. unfold fetch_eth_staking_data, fetch_body.
  rewrite staking_rate_computes. unfold exec; io_unfold; simpl.
  rewrite H1; simpl. rewrite format_2f_snapshot. eval_strings. by rewrite H2.
Qed.

(** The function calls nothing but [print]. *)
Lemma fetch_prints (s : ext) :
  forallb is_print (trace_of (fetch_eth_staking_data s)) = true.
Proof.
  unfold fetch_eth_staking_data, fetch_body, fetch_handler.
  apply (closed_try_except (fun t => forallb is_print t = true)); [|intros].
  all: closed_run (fun t => forallb is_print t = true).
  all: by apply exec_trace.
Qed.

(** Whatever the console does, the function makes between one and three
    calls, all of them prints. *)
Lemma fetch_only_prints (s : ext) :
  forallb is_print (trace_of (fetch_eth_staking_data s)) = true /\
  (1 <= length (trace_of (fetch_eth_staking_data s)) <= 3)%nat.
Proof.
  split; [apply fetch_prints|].
  unfold fetch_eth_staking_data, fetch_body, fetch_handler.
  rewrite staking_rate_computes.
  exec_crush; simpl; lia.
Qed.

(** C37. The measurement is absent only when one of the function's own prints
    raised: the computation itself cannot fail. *)
Lemma fetch_none_only_if_print_raised (s : ext) :
  result_of (fetch_eth_staking_data s) = Returns None ->
  existsb (fun e => is_print e && ev_raised e) (trace_of (fetch_eth_staking_data s)) = true.
Proof.
  unfold fetch_eth_staking_data, fetch_body, fetch_handler.
  rewrite staking_rate_computes.
  exec_crush.
Qed.

(** When it returns a measurement, the measurement is [snapshot]. *)
Lemma fetch_some_is_snapshot (s : ext) (v : float) :
  result_of (fetch_eth_staking_data s) = Returns (Some v) -> v = snapshot.
Proof.
  unfold fetch_eth_staking_data, fetch_body, fetch_handler.
  rewrite staking_rate_computes.
  exec_crush; by intros [= <-].
Qed.

End Source.
