(* ===== verification/Protocol.v ===== *)
(** * Protocol: the staged pipeline as a state machine

    The specification of the transaction pipeline, independent of the code:
    the stages a resolution goes through (load, authorize, execute, prepare,
    prove, verify, then the same for the fee, assemble, serialize,
    broadcast), each holding the SDK values the next stage must be given.
    [step] says which event may follow in which stage: a stage's call is
    accepted only on the values the stage holds, so a trace the machine
    accepts skips no stage, reorders none, and feeds every stage the output
    of the one before.  Calls the protocol does not order (parsing, printing)
    are free while the pipeline is live; any call that raises ends it in
    [Failed]; after the end only diagnostics are printed.

    The theorems are about the machine alone: how many POSTs an accepted
    trace holds, and what must have happened before one. *)

From Stdlib Require Import ZArith.
From stdpp Require Import base tactics strings list sets.
From S2P Require Import Prelude Env.

(* [set_solver] clears hypotheses that may be gone. *)
#[local] Set Warnings "-clear-no-such-hyp".

Section Protocol.
Context `{SdkTypes}.

(** ** Definitions *)

Inductive stage : Type :=
| Init
| Loaded (p : Process)
| Authorized (p : Process) (auth : Authorization)
| Executed (p : Process) (t : Trace)
| Prepared (p : Process) (t : Trace)
| Proved (p : Process) (e : Execution)
| Identified (p : Process) (e : Execution) (id : Field)
| Verified (p : Process) (e : Execution) (id : Field)
| FeeAuthorized (p : Process) (e : Execution) (id : Field) (auth : Authorization)
| FeeExecuted (p : Process) (e : Execution) (id : Field) (t : Trace)
| FeePrepared (p : Process) (e : Execution) (id : Field) (t : Trace)
| FeeProved (p : Process) (e : Execution) (id : Field) (fee : Fee)
| FeeVerified (p : Process) (e : Execution) (id : Field) (fee : Fee)
| Assembled (tx : Transaction)
| Serialized (body : string)
| Broadcast (r : outcome http_response)
| Failed.

(** The pipeline has not ended. *)
Definition live (q : stage) : bool :=
  match q with Broadcast _ | Failed => false | _ => true end.

(** The number of POSTs behind a stage. *)
Definition posted (q : stage) : nat :=
  match q with Broadcast _ => 1 | _ => 0 end.

(** The node accepted the transaction. *)
Definition accepted (q : stage) : bool :=
  match q with
  | Broadcast (Returns resp) => bool_decide (status_code resp = 200%Z)
  | _ => false
  end.

(** Calls the protocol does not order. *)
Definition is_free (e : event) : bool :=
  match e with
  | Ev_PrivateKey_from_string _ _ | Ev_Query_rest _ _ | Ev_Process_load _
  | Ev_Query_get_program _ _ _ | Ev_Program_from_string _ _
  | Ev_Identifier_from_string _ _ | Ev_Value_from_string _ _ | Ev_Program_id _ _
  | Ev_Locator_new _ _ _ | Ev_Field_str _ _ | Ev_print _ _ => true
  | _ => false
  end.

(** Calls that are no part of a resolution: the clock and the store. *)
Definition is_foreign (e : event) : bool :=
  match e with
  | Ev_time_time _ | Ev_time_sleep _ _ | Ev_db_init_db _
  | Ev_db_get_pending_markets _ | Ev_db_mark_resolved _ _ => true
  | _ => false
  end.

Inductive step : stage -> event -> stage -> Prop :=
| step_load p program u :
    step Init (Ev_Process_add_program p program (Returns u)) (Loaded p)
| step_authorize p k pid f inputs auth :
    step (Loaded p) (Ev_Process_authorize p k pid f inputs (Returns auth))
      (Authorized p auth)
| step_execute p auth rt :
    step (Authorized p auth) (Ev_Process_execute p auth (Returns rt))
      (Executed p rt.2)
| step_prepare p t q u :
    step (Executed p t) (Ev_Trace_prepare t q (Returns u)) (Prepared p t)
| step_prove p t l e :
    step (Prepared p t) (Ev_Trace_prove_execution t l (Returns e)) (Proved p e)
| step_identify p e id :
    step (Proved p e) (Ev_Execution_execution_id e (Returns id)) (Identified p e id)
| step_verify p e id u :
    step (Identified p e id) (Ev_Process_verify_execution p e (Returns u))
      (Verified p e id)
| step_fee_authorize p e id k cost priority auth :
    step (Verified p e id)
      (Ev_Process_authorize_fee_public p k cost id priority (Returns auth))
      (FeeAuthorized p e id auth)
| step_fee_execute p e id auth rt :
    step (FeeAuthorized p e id auth) (Ev_Process_execute p auth (Returns rt))
      (FeeExecuted p e id rt.2)
| step_fee_prepare p e id t q u :
    step (FeeExecuted p e id t) (Ev_Trace_prepare t q (Returns u))
      (FeePrepared p e id t)
| step_fee_prove p e id t fee :
    step (FeePrepared p e id t) (Ev_Trace_prove_fee t (Returns fee))
      (FeeProved p e id fee)
| step_fee_verify p e id fee u :
    step (FeeProved p e id fee) (Ev_Process_verify_fee p fee id (Returns u))
      (FeeVerified p e id fee)
| step_assemble p e id fee tx :
    step (FeeVerified p e id fee) (Ev_Transaction_from_execution e fee (Returns tx))
      (Assembled tx)
| step_serialize tx body :
    step (Assembled tx) (Ev_Transaction_to_json tx (Returns body)) (Serialized body)
| step_broadcast url body r :
    step (Serialized body) (Ev_requests_post url body r) (Broadcast r)
| step_free q e :
    live q = true -> is_free e = true -> ev_raised e = false -> step q e q
| step_fail q e :
    live q = true -> is_post e = false -> is_foreign e = false ->
    ev_raised e = true -> step q e Failed
| step_after q line r :
    live q = false -> step q (Ev_print line r) q.

(** The machine reads a trace. *)
Inductive steps : stage -> list event -> stage -> Prop :=
| steps_nil q : steps q [] q
| steps_cons q e q' t q'' : step q e q' -> steps q' t q'' -> steps q (e :: t) q''.

(** What a stage holds as evidence in the trace that led to it. *)
Definition evidence (q : stage) (t : list event) : Prop :=
  match q with
  | Identified p e id =>
      Ev_Execution_execution_id e (Returns id) ∈ t
  | Verified p e id | FeeAuthorized p e id _ | FeeExecuted p e id _
  | FeePrepared p e id _ | FeeProved p e id _ =>
      Ev_Execution_execution_id e (Returns id) ∈ t /\
      Ev_Process_verify_execution p e (Returns tt) ∈ t
  | FeeVerified p e id fee =>
      Ev_Execution_execution_id e (Returns id) ∈ t /\
      Ev_Process_verify_execution p e (Returns tt) ∈ t /\
      Ev_Process_verify_fee p fee id (Returns tt) ∈ t
  | Assembled tx =>
      exists p e id fee,
        Ev_Execution_execution_id e (Returns id) ∈ t /\
        Ev_Process_verify_execution p e (Returns tt) ∈ t /\
        Ev_Process_verify_fee p fee id (Returns tt) ∈ t /\
        Ev_Transaction_from_execution e fee (Returns tx) ∈ t
  | Serialized body =>
      exists p e id fee tx,
        Ev_Execution_execution_id e (Returns id) ∈ t /\
        Ev_Process_verify_execution p e (Returns tt) ∈ t /\
        Ev_Process_verify_fee p fee id (Returns tt) ∈ t /\
        Ev_Transaction_from_execution e fee (Returns tx) ∈ t /\
        Ev_Transaction_to_json tx (Returns body) ∈ t
  | _ => True
  end.

(** ** Theorems *)

Lemma steps_app q t1 q' t2 q'' :
  steps q t1 q' -> steps q' t2 q'' -> steps q (t1 ++ t2) q''.
Proof. induction 1; simpl; eauto using steps. Qed.

Lemma steps_app_inv q t1 t2 q'' :
  steps q (t1 ++ t2) q'' -> exists q', steps q t1 q' /\ steps q' t2 q''.
Proof.
  revert q. induction t1 as [|e t1 IH]; simpl; intros q Hs.
  - eauto using steps.
  - inversion Hs; subst. edestruct IH as (q2 & ? & ?); eauto using steps.
Qed.

Lemma steps_snoc q t q' e q'' :
  steps q t q' -> step q' e q'' -> steps q (t ++ [e]) q''.
Proof. intros. eapply steps_app; eauto using steps. Qed.

(** A step posts exactly when it enters [Broadcast]. *)
Lemma step_posted q e q' :
  step q e q' -> (if is_post e then 1 else 0) + posted q = posted q'.
Proof. destruct 1; try done; by destruct q, e. Qed.

(** The POSTs of an accepted trace are counted by its last stage. *)
Lemma steps_posted q t q' :
  steps q t q' -> count_ev is_post t + posted q = posted q'.
Proof.
  induction 1 as [|q e q' t q'' Hs _ IH]; [done|].
  apply step_posted in Hs. count_events.
Qed.

(** An accepted trace holds at most one POST. *)
Lemma steps_at_most_one_post q t q' :
  steps q t q' -> count_ev is_post t <= 1.
Proof.
  intros Hs. apply steps_posted in Hs.
  assert (posted q' <= 1) by (destruct q'; simpl; lia). lia.
Qed.

(** The machine never leaves a dead stage. *)
Lemma step_dead q e q' : step q e q' -> live q = false -> q' = q.
Proof. destruct 1; simpl; intros; try done; congruence. Qed.

Lemma steps_dead q t q' : steps q t q' -> live q = false -> q' = q.
Proof.
  induction 1 as [|q e q' t q'' Hs _ IH]; [done|]. intros Hq.
  apply step_dead in Hs as ->; auto.
Qed.

(** Only the broadcast step accepts a POST. *)
Lemma step_post_inv q url body r q' :
  step q (Ev_requests_post url body r) q' ->
  q = Serialized body /\ q' = Broadcast r.
Proof. inversion 1; naive_solver. Qed.

(** Evidence is kept by longer traces. *)
Lemma evidence_mono q t t' : evidence q t -> t ⊆ t' -> evidence q t'.
Proof.
  intros Hev Hsub. destruct q; simpl in *; try done;
    repeat (destruct Hev as [? Hev]); repeat eexists; eauto.
Qed.

(** A step builds the evidence of its target from that of its source. *)
Lemma step_evidence q e q' t :
  step q e q' -> evidence q t -> evidence q' (t ++ [e]).
Proof.
  destruct 1; repeat match goal with u : unit |- _ => destruct u end;
    intros Hev; try (by eapply evidence_mono; [done | set_solver]);
    simpl in *; try done; set_solver.
Qed.

Lemma steps_evidence q t q' t0 :
  steps q t q' -> evidence q t0 -> evidence q' (t0 ++ t).
Proof.
  intros Hs. revert t0. induction Hs as [|q e q' t q'' Hs _ IH]; intros t0 Hev.
  - by rewrite app_nil_r.
  - rewrite (assoc_L _ t0 [e] t : t0 ++ e :: t = (t0 ++ [e]) ++ t).
    eauto using step_evidence.
Qed.

(** What precedes a POST in an accepted trace: the body posted is the
    serialization of a transaction assembled from an execution and a fee
    that the process verified, the fee against the id of that execution. *)
Theorem post_provenance t1 url body r t2 q :
  steps Init (t1 ++ Ev_requests_post url body r :: t2) q ->
  evidence (Serialized body) t1 /\ q = Broadcast r.
Proof.
  intros (q1 & H1 & H2)%steps_app_inv. inversion H2 as [|? ? q2 ? ? Hp Hrest]; subst.
  apply step_post_inv in Hp as [-> ->]. split.
  - by apply (steps_evidence _ _ _ []) in H1.
  - by apply steps_dead in Hrest.
Qed.

(** A step is an accepted POST exactly when it enters an accepted
    broadcast. *)
Lemma step_accepted q e q' :
  step q e q' ->
  (if is_accepted_post e then 1 else 0) + (if accepted q then 1 else 0) =
  (if accepted q' then 1 else 0).
Proof.
  destruct 1; try done; simpl.
  - by destruct e.
  - by destruct q, e.
Qed.

(** The accepted POSTs of an accepted trace are counted by its last stage. *)
Lemma steps_accepted q t q' :
  steps q t q' ->
  count_ev is_accepted_post t + (if accepted q then 1 else 0) =
  (if accepted q' then 1 else 0).
Proof.
  induction 1 as [|q e q' t q'' Hs _ IH]; [done|].
  apply step_accepted in Hs. count_events.
Qed.

(** A run from [Init] that ends in an accepted broadcast holds exactly one
    accepted POST. *)
Lemma steps_accepted_one t q :
  steps Init t q -> accepted q = true -> count_ev is_accepted_post t = 1.
Proof. intros Hs%steps_accepted Hq. rewrite Hq in Hs. simpl in Hs. lia. Qed.

(** The protocol accepts no call to the clock or the store. *)
Lemma step_not_foreign q e q' : step q e q' -> is_foreign e = false.
Proof. destruct 1; try done. by destruct e. Qed.

Lemma steps_not_foreign q t q' : steps q t q' -> count_ev is_foreign t = 0.
Proof.
  induction 1 as [|q e q' t q'' Hs _ IH]; [done|].
  rewrite count_ev_cons, IH. by rewrite (step_not_foreign _ _ _ Hs).
Qed.

(** A call that raises ends the pipeline. *)
Lemma step_raised_dead q e q' : step q e q' -> ev_raised e = true -> live q' = false.
Proof. destruct 1; simpl; intros; try done; congruence. Qed.

(** From a dead stage the machine accepts prints only. *)
Lemma step_dead_print q e q' : step q e q' -> live q = false -> is_print e = true.
Proof. destruct 1; simpl; intros; try done; congruence. Qed.

Lemma steps_dead_prints q t q' :
  steps q t q' -> live q = false -> forallb is_print t = true.
Proof.
  induction 1 as [|q e q' t q'' Hs _ IH]; [done|]. intros Hq. simpl.
  rewrite (step_dead_print _ _ _ Hs Hq).
  apply step_dead in Hs as ->; auto.
Qed.

(** Fail-stop: after a call that raised, an accepted trace holds nothing
    but prints. *)
Theorem steps_fail_stop q t1 e t2 q' :
  steps q (t1 ++ e :: t2) q' -> ev_raised e = true -> forallb is_print t2 = true.
Proof.
  intros (q1 & _ & H2)%steps_app_inv Hr. inversion H2; subst.
  eauto using steps_dead_prints, step_raised_dead.
Qed.

(** The machine is deterministic: a trace leads to one stage at most. *)
Lemma step_deterministic q e q1 q2 : step q e q1 -> step q e q2 -> q1 = q2.
Proof.
  destruct 1; inversion 1; subst; simpl in *; try done; try congruence.
Qed.

Lemma steps_deterministic q t q1 q2 : steps q t q1 -> steps q t q2 -> q1 = q2.
Proof.
  intros H1. revert q2. induction H1 as [|q e q' t q'' Hs _ IH]; intros q2 H2.
  - by inversion H2.
  - inversion H2 as [|? ? q3 ? ? Hs' Hrest]; subst.
    rewrite (step_deterministic _ _ _ _ Hs Hs') in IH. auto.
Qed.

End Protocol.

(** ** Tactics *)

(** Find the rule that accepts the next event of a concrete trace. *)
Ltac protocol_step := solve [econstructor; reflexivity].

(** Run the machine over a concrete trace. *)
Ltac protocol_run :=
  repeat (eapply steps_cons; [protocol_step|]); apply steps_nil.
