(* ===== verification/Pipeline.v ===== *)
(** * Pipeline: the transaction pipeline, [resolve_market] (lines 48-126)

    The function is one guard and one [try].  The body of the [try] is cut
    here at the numbered comments of the source: set up the account, load
    the program, authorize, execute and prove, handle the fee, create and
    broadcast.  Each stage is a program of its own that takes what the
    earlier stages bound and returns what the later ones use, and
    [resolve_market_body] chains them in the order of the source. *)

From Stdlib Require Import ZArith.
From stdpp Require Import base tactics strings pretty list.
From S2P Require Import Prelude Text Python Env.

#[local] Open Scope io_scope.

(** ** Definitions *)

(** The two module globals read from the environment (lines 11-12);
    [os.getenv] gives [None] for a variable that is not set. *)
Record config : Type := {
  ORACLE_PRIVATE_KEY : option string;
  ALEO_NODE_URL : option string;
}.

(** Line 64. *)
Definition program_id : string := "prediction.aleo".

(** Line 97: the fee, in microcredits. *)
Definition fee_cost : Z := 100000.

Section Pipeline.
Context `{SdkTypes} `{!Env}.
Local Abbreviation io := (io ext event).

(** 1. Setup Oracle Account and Query (lines 59-61). *)
Definition setup (key url : string) : io (PrivateKey * Query * Process) :=
  private_key <- exec (PrivateKey_from_string key) ;;
  query <- exec (Query_rest url) ;;
  process <- exec Process_load ;;
  io_ret (private_key, query, process).

(** 2. Load the prediction program from the network (lines 64-69). *)
Definition load_program (query : Query) (process : Process) : io Program :=
  exec (print ("📡 Fetching program " +:+ program_id +:+ " from the network...")) ;;
  program_source <- exec (Query_get_program query program_id) ;;
  program <- exec (Program_from_string program_source) ;;
  exec (Process_add_program process program) ;;
  io_ret program.

(** 3. Authorize Resolution (lines 72-83). *)
Definition authorize_resolution (process : Process) (private_key : PrivateKey)
    (program : Program) (market_id : string) (winning_option : Z)
    : io (Identifier * Authorization) :=
  exec (print ("🚀 Authorizing resolution for market " +:+ market_id +:+
               " with option " +:+ pretty winning_option +:+ "...")) ;;
  function_name <- exec (Identifier_from_string "resolve_pool") ;;
  input_id <- exec (Value_from_string market_id) ;;
  input_option <- exec (Value_from_string (pretty winning_option +:+ "u64")) ;;
  pid <- exec (Program_id program) ;;
  auth <- exec (Process_authorize process private_key pid function_name
                  [input_id; input_option]) ;;
  io_ret (function_name, auth).

(** 4. Execute and Prove (lines 86-92). *)
Definition execute_and_prove (process : Process) (query : Query)
    (program : Program) (function_name : Identifier) (auth : Authorization)
    : io (Execution * Field) :=
  exec (print "🔧 Generating zero-knowledge proof...") ;;
  resp_trace <- exec (Process_execute process auth) ;;
  exec (Trace_prepare resp_trace.2 query) ;;
  pid <- exec (Program_id program) ;;
  locator <- exec (Locator_new pid function_name) ;;
  execution <- exec (Trace_prove_execution resp_trace.2 locator) ;;
  execution_id <- exec (Execution_execution_id execution) ;;
  exec (Process_verify_execution process execution) ;;
  io_ret (execution, execution_id).

(** 5. Handle Fees (lines 97-104). *)
Definition handle_fees (process : Process) (private_key : PrivateKey)
    (query : Query) (execution_id : Field) : io Fee :=
  fee_auth <- exec (Process_authorize_fee_public process private_key fee_cost
                      execution_id None) ;;
  fee_resp_trace <- exec (Process_execute process fee_auth) ;;
  exec (Trace_prepare fee_resp_trace.2 query) ;;
  fee <- exec (Trace_prove_fee fee_resp_trace.2) ;;
  exec (Process_verify_fee process fee execution_id) ;;
  io_ret fee.

(** 6. Create and Broadcast Transaction (lines 107-122). *)
Definition create_and_broadcast (url : string) (execution : Execution)
    (fee : Fee) (execution_id : Field) : io bool :=
  transaction <- exec (Transaction_from_execution execution fee) ;;
  id_text <- exec (Field_str execution_id) ;;
  exec (print ("📡 Broadcasting transaction " +:+ id_text +:+ "...")) ;;
  tx_json <- exec (Transaction_to_json transaction) ;;
  response <- exec (requests_post (url +:+ "/testnet3/transaction/broadcast") tx_json) ;;
  if bool_decide (status_code response = 200%Z) then
    exec (print ("✅ Transaction Broadcasted! ID: " +:+ strip (text response))) ;;
    io_ret true
  else
    exec (print ("❌ Broadcast failed: " +:+ text response)) ;;
    io_ret false.

(** The body of the [try] (lines 58-122). *)
Definition resolve_market_body (key url market_id : string) (winning_option : Z)
    : io bool :=
  account <- setup key url ;;
  let '(private_key, query, process) := account in
  program <- load_program query process ;;
  authorized <- authorize_resolution process private_key program market_id
                  winning_option ;;
  let '(function_name, auth) := authorized in
  proved <- execute_and_prove process query program function_name auth ;;
  let '(execution, execution_id) := proved in
  fee <- handle_fees process private_key query execution_id ;;
  create_and_broadcast url execution fee execution_id.

(** The [except Exception as e] clause (lines 124-126). *)
Definition resolve_market_handler (e : string) : io bool :=
  exec (print ("❌ SDK Error during resolution: " +:+ e)) ;;
  io_ret false.

(** The guard of lines 53-55. *)
Definition missing_credentials (cfg : config) : bool :=
  falsy (ORACLE_PRIVATE_KEY cfg) || falsy (ALEO_NODE_URL cfg).

(** [resolve_market(market_id, winning_option)]. *)
Definition resolve_market (cfg : config) (market_id : string) (winning_option : Z)
    : io bool :=
  if missing_credentials cfg then
    exec (print "❌ Missing Oracle credentials in .env.") ;;
    io_ret false
  else
    io_try_except
      (resolve_market_body (default "" (ORACLE_PRIVATE_KEY cfg))
         (default "" (ALEO_NODE_URL cfg)) market_id winning_option)
      resolve_market_handler.

End Pipeline.


(** ** Tactics *)

Ltac unfold_pipeline :=
  unfold resolve_market, resolve_market_body, resolve_market_handler, setup,
    load_program, authorize_resolution, execute_and_prove, handle_fees,
    create_and_broadcast.

(** Run [resolve_market] against every answer of the handler. *)
Ltac pipeline_cases cfg :=
  unfold_pipeline; destruct (missing_credentials cfg) eqn:?; exec_crush.
