(* ===== verification/Refinement.v ===== *)
(** * Refinement: [resolve_market] implements the protocol

    Whatever the SDK, the node and the console answer, the calls
    [resolve_market] makes are a trace the machine of [Protocol] accepts
    from [Init], and the function returns [True] only when the machine
    ended in an accepted broadcast.  The properties of the pipeline then
    follow from those of the machine. *)

From Stdlib Require Import ZArith.
From stdpp Require Import base tactics strings list.
From S2P Require Import Prelude Python Env Protocol Pipeline.

Section Refinement.
Context `{SdkTypes} `{!Env}.

(** ** Theorems *)

(** The guard lets through exactly the configurations with two non-empty
    settings. *)
Lemma missing_credentials_false (cfg : config) :
  missing_credentials cfg = false <->
  exists key url, ORACLE_PRIVATE_KEY cfg = Some key /\ ALEO_NODE_URL cfg = Some url /\
                  key <> "" /\ url <> "".
Proof.
  unfold missing_credentials, falsy.
  destruct (ORACLE_PRIVATE_KEY cfg) as [k|], (ALEO_NODE_URL cfg) as [u|]; simpl;
    rewrite ?orb_true_r; try (split; [done | by intros (? & ? & ? & ? & _)]).
  rewrite orb_false_iff, !bool_decide_eq_false. split.
  - intros []. by exists k, u.
  - by intros (? & ? & [= <-] & [= <-] & ? & ?).
Qed.

(** The run of [resolve_market] against every answer of the handler: each
    of its traces is read by the machine, and the ones that end with [True]
    returned end in an accepted broadcast. *)
Lemma resolve_market_steps (cfg : config) (market_id : string)
    (winning_option : Z) (s : ext) :
  exists q,
    steps Init (trace_of (resolve_market cfg market_id winning_option s)) q /\
    (result_of (resolve_market cfg market_id winning_option s) = Returns true ->
     accepted q = true).
Proof.
  pipeline_cases cfg.
  all: eexists; (split; [protocol_run | try done]).
  all: intros _; simpl; by case_bool_decide.
Qed.

(** C1. [resolve_market] refines the protocol: whatever the outside world
    answers, the machine accepts the trace of the function from [Init] and
    ends in a stage that tells whether a POST was sent; the function
    returns [True] only when that stage is a broadcast the node
    accepted. *)
Theorem resolve_market_refines (cfg : config) (market_id : string)
    (winning_option : Z) (s : ext) :
  exists q,
    steps Init (trace_of (resolve_market cfg market_id winning_option s)) q /\
    posted q = count_ev is_post (trace_of (resolve_market cfg market_id winning_option s)) /\
    (result_of (resolve_market cfg market_id winning_option s) = Returns true ->
     accepted q = true).
Proof.
  destruct (resolve_market_steps cfg market_id winning_option s) as (q & Hs & Hq).
  exists q. split_and!; [done| |done].
  apply steps_posted in Hs. simpl in Hs. lia.
Qed.

(** C17. [resolve_market] sends at most one POST. *)
Theorem resolve_market_posts_at_most_once (cfg : config) (market_id : string)
    (winning_option : Z) (s : ext) :
  count_ev is_post (trace_of (resolve_market cfg market_id winning_option s)) <= 1.
Proof.
  destruct (resolve_market_steps cfg market_id winning_option s) as (q & Hs & _).
  eauto using steps_at_most_one_post.
Qed.

(** C9. What [resolve_market] posts is the serialization of a
    transaction assembled from an execution and a fee that
    [verify_execution] and [verify_fee] accepted before the POST, the fee
    against the id of that very execution; and nothing but prints follows
    the POST. *)
Theorem resolve_market_post_provenance (cfg : config) (market_id : string)
    (winning_option : Z) (s : ext) t1 url body r t2 :
  trace_of (resolve_market cfg market_id winning_option s) =
    t1 ++ Ev_requests_post url body r :: t2 ->
  (exists p e id fee tx,
     Ev_Execution_execution_id e (Returns id) ∈ t1 /\
     Ev_Process_verify_execution p e (Returns tt) ∈ t1 /\
     Ev_Process_verify_fee p fee id (Returns tt) ∈ t1 /\
     Ev_Transaction_from_execution e fee (Returns tx) ∈ t1 /\
     Ev_Transaction_to_json tx (Returns body) ∈ t1) /\
  forallb is_print t2 = true.
Proof.
  intros Ht.
  destruct (resolve_market_steps cfg market_id winning_option s) as (q & Hs & _).
  rewrite Ht in Hs. split; [by apply post_provenance in Hs as [? _]|].
  apply steps_app_inv in Hs as (q1 & _ & Hs). inversion Hs as [|? ? q2 ? ? Hp Hrest]; subst.
  apply step_post_inv in Hp as [-> ->]. eauto using steps_dead_prints.
Qed.

(** C16. When [resolve_market] returns [True], exactly one POST was
    answered with status 200. *)
Theorem resolve_market_true_accepted (cfg : config) (market_id : string)
    (winning_option : Z) (s : ext) :
  result_of (resolve_market cfg market_id winning_option s) = Returns true ->
  count_ev is_accepted_post (trace_of (resolve_market cfg market_id winning_option s)) = 1.
Proof.
  intros Hr.
  destruct (resolve_market_steps cfg market_id winning_option s) as (q & Hs & Hq).
  eauto using steps_accepted_one.
Qed.

(** C24. [resolve_market] never calls the store or the clock: whatever
    happens in the pipeline, the market store is not touched by it. *)
Theorem resolve_market_leaves_store (cfg : config) (market_id : string)
    (winning_option : Z) (s : ext) :
  count_ev is_foreign (trace_of (resolve_market cfg market_id winning_option s)) = 0.
Proof.
  destruct (resolve_market_steps cfg market_id winning_option s) as (q & Hs & _).
  eauto using steps_not_foreign.
Qed.

(** C18. Fail-stop: once a call of the pipeline has raised, [resolve_market]
    makes no further call but prints. *)
Theorem resolve_market_fail_stop (cfg : config) (market_id : string)
    (winning_option : Z) (s : ext) t1 e t2 :
  trace_of (resolve_market cfg market_id winning_option s) = t1 ++ e :: t2 ->
  ev_raised e = true -> forallb is_print t2 = true.
Proof.
  intros Ht He.
  destruct (resolve_market_steps cfg market_id winning_option s) as (q & Hs & _).
  rewrite Ht in Hs. eauto using steps_fail_stop.
Qed.

(** C23. Without credentials [resolve_market] makes one call, the print
    of the notice, and returns [False] when the print returns. *)
Theorem resolve_market_missing_credentials (cfg : config) (market_id : string)
    (winning_option : Z) (s : ext) :
  missing_credentials cfg = true ->
  exists r,
    trace_of (resolve_market cfg market_id winning_option s) =
      [Ev_print "❌ Missing Oracle credentials in .env." r] /\
    result_of (resolve_market cfg market_id winning_option s) =
      outcome_map (fun _ => false) r.
Proof.
  intros Hm. unfold resolve_market. rewrite Hm. exec_crush; by eexists.
Qed.

End Refinement.
