(* ===== verification/Outcomes.v ===== *)
(** * Outcomes: what [resolve_market] returns, and when

    The result of the pipeline on each kind of world: one where every call
    returns and the node accepts, one where the node refuses, and the
    worlds in which something raises.  The last theorem gives the calls of
    a successful resolution in full. *)

From Stdlib Require Import ZArith.
From stdpp Require Import base tactics strings pretty list.
From S2P Require Import Prelude Text Python Env Protocol Pipeline Refinement.

(** ** Tactics *)

(** Close a case in which a call raised although every call returns. *)
Ltac absurd_raise Hret :=
  match goal with
  | Hc : handle ?X ?c ?s = (Raises _, _) |- _ =>
      pose proof (Hret X c s) as Hr; rewrite Hc in Hr; done
  end.

(** Close a case in which the status of the answer is not the one the node
    gives. *)
Ltac absurd_status Hnode :=
  match goal with
  | Hc : handle _ (requests_post ?u ?d) ?s = (Returns ?resp, _) |- _ =>
      pose proof (Hnode u d s resp) as Hr; rewrite Hc in Hr;
      specialize (Hr eq_refl); done
  end.

(** Close a case in which a print raised although the console works. *)
Ltac absurd_print Hprint :=
  match goal with
  | Hc : handle _ (print ?line) ?s = (Raises _, _) |- _ =>
      pose proof (Hprint line s) as Hr; rewrite Hc in Hr; done
  end.

Section Outcomes.
Context `{SdkTypes} `{!Env}.

(** ** Definitions *)

(** Every call returns: the SDK, the node, the store and the console work. *)
Definition always_returns : Prop :=
  forall X (c : call X) (s : ext), returned (handle X c s).1 = true.

(** The node answers every POST with status 200. *)
Definition node_accepts : Prop :=
  forall url data (s : ext) resp,
    (handle _ (requests_post url data) s).1 = Returns resp ->
    status_code resp = 200%Z.

(** The node answers no POST with status 200. *)
Definition node_rejects : Prop :=
  forall url data (s : ext) resp,
    (handle _ (requests_post url data) s).1 = Returns resp ->
    status_code resp <> 200%Z.

(** The console works: every print returns. *)
Definition prints_return : Prop :=
  forall (line : string) (s : ext), returned (handle _ (print line) s).1 = true.

(** The last event of a trace is a print that raised [e]. *)
Definition ends_in_failed_print (e : exn) (t : list event) : Prop :=
  exists t' line, t = t' ++ [Ev_print line (Raises e)].

(** ** Theorems *)

(** C20. [resolve_market] raises only what [except Exception] does not
    catch, or what its own last print raised (the notice of the guard or
    the diagnostic of the [except] clause). *)
Theorem resolve_market_raises_only (cfg : config) (market_id : string)
    (winning_option : Z) (s : ext) (e : exn) :
  result_of (resolve_market cfg market_id winning_option s) = Raises e ->
  caught e = false \/
  ends_in_failed_print e (trace_of (resolve_market cfg market_id winning_option s)).
Proof.
  pipeline_cases cfg.
  all: intros [= <-]; (by left) || right.
  all: match goal with
       | |- ends_in_failed_print _ ?t =>
           exists (removelast t); eexists; reflexivity
       end.
Qed.

(** With working calls and an accepting node the pipeline goes through. *)
Lemma resolve_market_returns_true (cfg : config) (market_id : string)
    (winning_option : Z) (s : ext) :
  always_returns -> node_accepts -> missing_credentials cfg = false ->
  result_of (resolve_market cfg market_id winning_option s) = Returns true.
Proof.
  intros Hret Hnode Hcfg. unfold_pipeline. rewrite Hcfg. exec_crush.
  all: try absurd_raise Hret. all: absurd_status Hnode.
Qed.

(** C21. When every call returns and the node answers 200, [resolve_market]
    returns [True], and the node has accepted exactly one transaction. *)
Theorem resolve_market_succeeds (cfg : config) (market_id : string)
    (winning_option : Z) (s : ext) :
  always_returns -> node_accepts -> missing_credentials cfg = false ->
  result_of (resolve_market cfg market_id winning_option s) = Returns true /\
  count_ev is_accepted_post
    (trace_of (resolve_market cfg market_id winning_option s)) = 1.
Proof.
  intros Hret Hnode Hcfg.
  pose proof (resolve_market_returns_true cfg market_id winning_option s
                Hret Hnode Hcfg) as Hr.
  destruct (resolve_market_steps cfg market_id winning_option s) as (q & Hs & Hq).
  eauto using steps_accepted_one.
Qed.

(** C22. When every call returns and the node answers anything but 200,
    [resolve_market] returns [False], after exactly one POST. *)
Theorem resolve_market_rejected (cfg : config) (market_id : string)
    (winning_option : Z) (s : ext) :
  always_returns -> node_rejects -> missing_credentials cfg = false ->
  result_of (resolve_market cfg market_id winning_option s) = Returns false /\
  count_ev is_post (trace_of (resolve_market cfg market_id winning_option s)) = 1.
Proof.
  intros Hret Hnode Hcfg. unfold_pipeline. rewrite Hcfg. exec_crush.
  all: try absurd_raise Hret. all: absurd_status Hnode.
Qed.

(** When the console works, [resolve_market] returns [True] exactly when
    the node accepted a transaction: an accepted broadcast is never
    reported as a failure. *)
Lemma resolve_market_accepted_true (cfg : config) (market_id : string)
    (winning_option : Z) (s : ext) :
  prints_return ->
  count_ev is_accepted_post (trace_of (resolve_market cfg market_id winning_option s)) =
  match result_of (resolve_market cfg market_id winning_option s) with
  | Returns true => 1
  | _ => 0
  end.
Proof.
  intros Hprint. pipeline_cases cfg. all: try absurd_print Hprint.
  all: unfold count_ev; simpl.
  all: by rewrite ?bool_decide_eq_true_2, ?bool_decide_eq_false_2 by done.
Qed.

(** The settings that pass the guard are the ones the body is run on. *)
Lemma credentials_present (cfg : config) :
  missing_credentials cfg = false ->
  ORACLE_PRIVATE_KEY cfg = Some (default "" (ORACLE_PRIVATE_KEY cfg)) /\
  ALEO_NODE_URL cfg = Some (default "" (ALEO_NODE_URL cfg)).
Proof.
  unfold missing_credentials.
  by destruct (ORACLE_PRIVATE_KEY cfg), (ALEO_NODE_URL cfg); simpl; rewrite ?orb_true_r.
Qed.

(** C10. The calls of a successful resolution, in full: when
    [resolve_market] returns [True] its trace is the thirty-two calls of the
    source in their order, each on the values the earlier ones returned,
    with the program [prediction.aleo], the function [resolve_pool], the
    inputs [market_id] and [<winning_option>u64], the fee of 100000
    microcredits bound to the execution id, and the POST of the serialized
    transaction to [<url>/testnet3/transaction/broadcast] answered 200. *)
Theorem resolve_market_true_trace (cfg : config) (market_id : string)
    (winning_option : Z) (s : ext) :
  result_of (resolve_market cfg market_id winning_option s) = Returns true ->
  exists key url pk q p src prog fname v1 v2 pid1 auth rt pid2 loc ex id fauth
         frt fee tx idtext json resp,
    ORACLE_PRIVATE_KEY cfg = Some key /\ ALEO_NODE_URL cfg = Some url /\
    status_code resp = 200%Z /\
    trace_of (resolve_market cfg market_id winning_option s) =
    [ Ev_PrivateKey_from_string key (Returns pk);
      Ev_Query_rest url (Returns q);
      Ev_Process_load (Returns p);
      Ev_print "📡 Fetching program prediction.aleo from the network..." (Returns tt);
      Ev_Query_get_program q "prediction.aleo" (Returns src);
      Ev_Program_from_string src (Returns prog);
      Ev_Process_add_program p prog (Returns tt);
      Ev_print ("🚀 Authorizing resolution for market " +:+ market_id +:+
                " with option " +:+ pretty winning_option +:+ "...") (Returns tt);
      Ev_Identifier_from_string "resolve_pool" (Returns fname);
      Ev_Value_from_string market_id (Returns v1);
      Ev_Value_from_string (pretty winning_option +:+ "u64") (Returns v2);
      Ev_Program_id prog (Returns pid1);
      Ev_Process_authorize p pk pid1 fname [v1; v2] (Returns auth);
      Ev_print "🔧 Generating zero-knowledge proof..." (Returns tt);
      Ev_Process_execute p auth (Returns rt);
      Ev_Trace_prepare rt.2 q (Returns tt);
      Ev_Program_id prog (Returns pid2);
      Ev_Locator_new pid2 fname (Returns loc);
      Ev_Trace_prove_execution rt.2 loc (Returns ex);
      Ev_Execution_execution_id ex (Returns id);
      Ev_Process_verify_execution p ex (Returns tt);
      Ev_Process_authorize_fee_public p pk 100000 id None (Returns fauth);
      Ev_Process_execute p fauth (Returns frt);
      Ev_Trace_prepare frt.2 q (Returns tt);
      Ev_Trace_prove_fee frt.2 (Returns fee);
      Ev_Process_verify_fee p fee id (Returns tt);
      Ev_Transaction_from_execution ex fee (Returns tx);
      Ev_Field_str id (Returns idtext);
      Ev_print ("📡 Broadcasting transaction " +:+ idtext +:+ "...") (Returns tt);
      Ev_Transaction_to_json tx (Returns json);
      Ev_requests_post (url +:+ "/testnet3/transaction/broadcast") json (Returns resp);
      Ev_print ("✅ Transaction Broadcasted! ID: " +:+ strip (text resp)) (Returns tt) ].
Proof.
  pipeline_cases cfg. intros _.
  repeat match goal with u : unit |- _ => destruct u end.
  destruct (credentials_present cfg) as [Hk Hu]; [done|].
  do 24 eexists. by split_and!.
Qed.

End Outcomes.
