(* ===== verification/Errors.v ===== *)
(** * Errors: what a failed resolution reports

    The specification wants a result that tags the stage that failed, and
    diagnostics that identify the market and the stage.  [resolve_market]
    returns a Boolean and prints one line.  This file says which runs
    return [True], which call a [False] stands for, and what the line
    holds: the run stops at the first call that fails, by raising or by an
    answer of the node that is not 200, and the report is made from the
    message of the exception, or from the text of the answer, alone.

    [pipeline_error] and [error_of] are the taxonomy of the specification,
    by the stage a call belongs to; the code does not compute them. *)

From Stdlib Require Import ZArith.
From stdpp Require Import base tactics strings list.
From S2P Require Import Prelude Python Env Pipeline.

(** ** Definitions *)

Section Errors.
Context `{SdkTypes}.

(** The node answered the POST, with a status that is not 200. *)
Definition is_refused_post (e : event) : bool :=
  match e with
  | Ev_requests_post _ _ (Returns resp) => negb (bool_decide (status_code resp = 200%Z))
  | _ => false
  end.

(** The call failed: it raised, or the node refused. *)
Definition failed (e : event) : bool := ev_raised e || is_refused_post e.

(** The first call of a trace that failed. *)
Definition first_failure (t : list event) : option event := List.find failed t.

(** Lines 120-125: the line printed for a call that failed, in the [else]
    of the status test and in the [except] clause. *)
Definition diagnostic (e : event) : option string :=
  match ev_exn e with
  | Some (Exception msg) => Some ("❌ SDK Error during resolution: " +:+ msg)
  | Some (BaseException _) => None
  | None =>
      match e with
      | Ev_requests_post _ _ (Returns resp) => Some ("❌ Broadcast failed: " +:+ text resp)
      | _ => None
      end
  end.

(** The errors of the specification. *)
Inductive pipeline_error : Type :=
| ConfigurationError
| ProtocolError
| InputError
| ProofError
| BroadcastError.

#[export] Instance pipeline_error_eq_dec : EqDecision pipeline_error.
Proof. solve_decision. Defined.

(** The error the specification gives the failure of a call, by the stage
    of the pipeline the call belongs to: loading the program, authorizing,
    executing and proving with the two verifications, broadcasting.  It
    names none for the making of the key and of the query, for the
    assembling of the transaction, and for a print. *)
Definition error_of (e : event) : option pipeline_error :=
  match e with
  | Ev_Process_load _ | Ev_Query_get_program _ _ _ | Ev_Program_from_string _ _
  | Ev_Process_add_program _ _ _ => Some ProtocolError
  | Ev_Identifier_from_string _ _ | Ev_Value_from_string _ _ | Ev_Program_id _ _
  | Ev_Process_authorize _ _ _ _ _ _ => Some InputError
  | Ev_Process_execute _ _ _ | Ev_Trace_prepare _ _ _ | Ev_Locator_new _ _ _
  | Ev_Trace_prove_execution _ _ _ | Ev_Execution_execution_id _ _
  | Ev_Process_verify_execution _ _ _ | Ev_Process_authorize_fee_public _ _ _ _ _ _
  | Ev_Trace_prove_fee _ _ | Ev_Process_verify_fee _ _ _ _ => Some ProofError
  | Ev_requests_post _ _ _ => Some BroadcastError
  | _ => None
  end.

(** ** Theorems *)

(** A trace without a failure is one in which no call failed. *)
Lemma first_failure_None (t : list event) :
  first_failure t = None <-> forallb (fun e => negb (failed e)) t = true.
Proof.
  unfold first_failure. induction t as [|e t IH]; simpl; [done|].
  destruct (failed e); simpl; [done | apply IH].
Qed.

(** The first failure of a trace is behind the calls that did not fail. *)
Lemma first_failure_app (t1 t2 : list event) :
  first_failure t1 = None -> first_failure (t1 ++ t2) = first_failure t2.
Proof.
  unfold first_failure. induction t1 as [|e t1 IH]; simpl; [done|].
  by destruct (failed e).
Qed.

(** What is reported for a call is made of what the call raised, or of
    the answer of the node. *)
Lemma diagnostic_raised (e : event) (msg : string) :
  ev_exn e = Some (Exception msg) ->
  diagnostic e = Some ("❌ SDK Error during resolution: " +:+ msg).
Proof. unfold diagnostic. by intros ->. Qed.

(** A call that is reported failed, and did not raise a [BaseException]. *)
Lemma diagnostic_failed (e : event) (line : string) :
  diagnostic e = Some line -> ev_exn e <> None \/ exists u d r, e = Ev_requests_post u d r.
Proof.
  unfold diagnostic. destruct (ev_exn e) as [[]|] eqn:E; [by left..|].
  destruct e; try done. intros _. right. by eexists _, _, _.
Qed.

Section Pipeline.
Context `{!Env}.

(** Evaluate the tests of [failed] on the events of a run. *)
Ltac eval_failed :=
  unfold first_failure, failed, is_refused_post; simpl;
  rewrite ?bool_decide_eq_true_2, ?bool_decide_eq_false_2 by done; simpl.

(** C11. [resolve_market] returns [True] exactly when the settings are
    present and no call of the run failed: every call returned, and the
    node answered the POST with 200.  A [True] is never the result of a run
    in which a stage failed, and a run in which nothing failed never
    returns [False]. *)
Theorem resolve_market_true_iff (cfg : config) (market_id : string)
    (winning_option : Z) (s : ext) :
  result_of (resolve_market cfg market_id winning_option s) = Returns true <->
  missing_credentials cfg = false /\
  first_failure (trace_of (resolve_market cfg market_id winning_option s)) = None.
Proof.
  pipeline_cases cfg; eval_failed; try (split; [done | by intros [? ?]]); by split.
Qed.

(** C19. With its settings present, [resolve_market] returns [False]
    only after a call failed and was reported: no call before it raised,
    no call is made after it but the print of the report, and the report
    is the line of that call.  The call is the first of the run that
    failed, unless it is the print that reports a refusal of the node: a
    refusal that cannot be printed is reported as an error of the SDK.
    The line holds the message of the exception, or the text of the
    answer of the node: it names neither the market nor the stage that
    failed. *)
Theorem resolve_market_reports_failure (cfg : config) (market_id : string)
    (winning_option : Z) (s : ext) :
  missing_credentials cfg = false ->
  result_of (resolve_market cfg market_id winning_option s) = Returns false ->
  exists t e line,
    trace_of (resolve_market cfg market_id winning_option s) =
      t ++ [e; Ev_print line (Returns tt)] /\
    count_ev ev_raised t = 0 /\ failed e = true /\ diagnostic e = Some line /\
    (first_failure t = None \/ is_print e = true).
Proof.
  intros Hcfg. revert Hcfg. pipeline_cases cfg. all: intros _ [=].
  all: repeat match goal with u : unit |- _ => destruct u end.
  all: match goal with
       | |- exists t e line, ?T = _ /\ _ =>
           exists (removelast (removelast T)); eexists _, _; split; [reflexivity|]
       end.
  all: eval_failed; split_and!; try done; first [by left | by right].
Qed.

End Pipeline.

End Errors.
