(* ===== verification/Loop.v ===== *)
(** * Loop: the resolution loop, [main] (lines 129-157)

    One round of [while True] reads the pending markets and the clock once,
    then goes through the rows in the order the store gave them.  A row
    whose deadline has passed is resolved: fetch the measurement, decide
    the winning option, run the pipeline, and mark the market resolved when
    the pipeline returned [True].  Nothing in [main] is inside a [try]:
    what [fetch_eth_staking_data] and [resolve_market] let through, and
    what the store, the clock and the console raise, ends the worker. *)

From Stdlib Require Import ZArith Floats.
From stdpp Require Import base tactics strings pretty list sets.
From S2P Require Import Prelude Python Env Ledger Source Protocol Pipeline Refinement Outcomes.

(* [set_solver] clears hypotheses that may be gone. *)
#[local] Set Warnings "-clear-no-such-hyp".

#[local] Open Scope io_scope.

(** ** Definitions *)

(** Line 144: option 1 (yes) when the value reaches the threshold, option 2
    (no) otherwise. *)
Definition decide_winning_option (value threshold : float) : Z :=
  if float_ge value threshold then 1%Z else 2%Z.

(** Line 149: the name of an option in the log. *)
Definition option_name (winning_option : Z) : string :=
  if bool_decide (winning_option = 1%Z) then "YES" else "NO".

Section Loop.
Context `{SdkTypes} `{!Env}.
Local Abbreviation io := (io ext event).

(** Lines 139-154: what is done for a market whose deadline has passed. *)
Definition resolve_due_market (cfg : config) (row : market_row) : io unit :=
  exec (print ("⏰ Deadline reached for market: " +:+ market_id row)) ;;
  value <- fetch_eth_staking_data ;;
  match value with
  | Some v =>
      let winning_option := decide_winning_option v (threshold row) in
      ok <- resolve_market cfg (market_id row) winning_option ;;
      if ok : bool then
        exec (db_mark_resolved (market_id row)) ;;
        exec (print ("✅ Market " +:+ market_id row +:+ " resolved as " +:+
                     option_name winning_option))
      else io_ret tt
  | None =>
      exec (print ("⚠️ Could not fetch data for market " +:+ market_id row +:+
                   ", retrying next loop..."))
  end.

(** Lines 137-154: the body of the [for]. *)
Definition process_market (cfg : config) (current_time : Z) (row : market_row)
    : io unit :=
  if bool_decide (deadline row <= current_time)%Z then resolve_due_market cfg row
  else io_ret tt.

(** Lines 134-157: one round of [while True]. *)
Definition main_iteration (cfg : config) : io unit :=
  pending <- exec db_get_pending_markets ;;
  now <- exec time_time ;;
  current_time <- io_lift (int_of_float now) ;;
  for_each pending (process_market cfg current_time) ;;
  exec (time_sleep 60).

(** Lines 129-157: [main], for the first [n] rounds of its loop. *)
Definition main (cfg : config) (n : nat) : io unit :=
  exec db_init_db ;;
  exec (print "🤖 Oracle Worker is running and monitoring pending markets...") ;;
  loop_n n (main_iteration cfg).

(** Every [mark_resolved] of the trace is for one of [ids]. *)
Definition marks_within (ids : list string) (t : list event) : bool :=
  forallb (fun e => match e with
                    | Ev_db_mark_resolved id _ => bool_decide (id ∈ ids)
                    | _ => true
                    end) t.

(** The ids of the rows whose deadline has passed at [current_time]. *)
Definition due_ids (current_time : Z) (pending : list market_row) : list string :=
  market_id <$> List.filter (fun r => bool_decide (deadline r <= current_time)%Z) pending.

End Loop.

(** ** Theorems *)

(** *** The decision rule *)


(** A tie favours option 1, for every value that is a number. *)
Theorem decide_winning_option_tie (value : float) :
  is_nan value = false -> decide_winning_option value value = 1%Z.
Proof.
  intros Hn. unfold decide_winning_option. by rewrite float_ge_refl, Hn.
Qed.

(** What is given to the program as a [u64] is in range: the option is 1
    or 2, written [1u64] or [2u64], and the fee is 100000. *)
Lemma decide_winning_option_u64 (value threshold : float) :
  (0 <= decide_winning_option value threshold < 2 ^ 64)%Z /\
  (pretty (decide_winning_option value threshold) +:+ "u64" = "1u64" \/
   pretty (decide_winning_option value threshold) +:+ "u64" = "2u64").
Proof.
  unfold decide_winning_option. destruct (float_ge value threshold); split; try done; auto.
Qed.

Lemma fee_cost_u64 : (0 <= fee_cost < 2 ^ 64)%Z.
Proof. done. Qed.

(** C33. A measurement or a threshold that is NaN gives option 2. *)
Theorem decide_winning_option_nan (x : float) :
  decide_winning_option nan x = 2%Z /\ decide_winning_option x nan = 2%Z.
Proof.
  unfold decide_winning_option. by rewrite float_ge_nan_l, float_ge_nan_r.
Qed.


Section LoopFacts.
Context `{SdkTypes} `{!Env}.

(** *** The ledger of a run *)

(** The pipeline marks nothing. *)
Lemma resolve_market_no_marks cfg id opt (s : ext) :
  count_ev is_mark_resolved (trace_of (resolve_market cfg id opt s)) = 0.
Proof.
  destruct (resolve_market_steps cfg id opt s) as (q & Hf%steps_not_foreign & _).
  assert (Hle := count_ev_le is_mark_resolved is_foreign
                   (trace_of (resolve_market cfg id opt s))
                   ltac:(by intros [])).
  lia.
Qed.

(** The outcome source marks and posts nothing. *)
Lemma fetch_paid (s : ext) : paid (trace_of (fetch_eth_staking_data s)).
Proof.
  unfold fetch_eth_staking_data, fetch_body, fetch_handler.
  closed_run paid; by apply paid_exec.
Qed.

(** The pipeline followed by the mark it earned is paid. *)
Lemma resolve_then_mark_paid cfg (row : market_row) (v : float) (s : ext) :
  paid (trace_of (io_bind
    (resolve_market cfg (market_id row) (decide_winning_option v (threshold row)))
    (fun ok : bool =>
       if ok then
         io_bind (exec (db_mark_resolved (market_id row)))
           (fun _ => exec (print ("✅ Market " +:+ market_id row +:+ " resolved as " +:+
                             option_name (decide_winning_option v (threshold row)))))
       else io_ret tt) s)).
Proof.
  set (opt := decide_winning_option v (threshold row)).
  pose proof (resolve_market_no_marks cfg (market_id row) opt s) as Hm.
  destruct (resolve_market_steps cfg (market_id row) opt s) as (q & Hs & Hq).
  pose proof (fun Hr => steps_accepted_one _ _ Hs (Hq Hr)) as Ha. clear Hs Hq.
  unfold io_bind.
  destruct (resolve_market cfg (market_id row) opt s) as [[[ok|e] s1] t1];
    simpl in *; unfold paid; [|by rewrite credit_no_marks].
  destruct ok; [|exec_crush; by rewrite app_nil_r, credit_no_marks].
  specialize (Ha eq_refl).
  exec_crush; rewrite credit_app, credit_no_marks, Ha by done; by eexists.
Qed.

(** In the handling of a due market every [mark_resolved] is paid for by a
    POST the node accepted before it. *)
Lemma resolve_due_market_paid (cfg : config) (row : market_row) (s : ext) :
  paid (trace_of (resolve_due_market cfg row s)).
Proof.
  unfold resolve_due_market.
  apply (closed_bind paid); [by apply paid_exec|]. intros _ s1.
  apply (closed_bind paid); [apply fetch_paid|]. intros [v|] s2.
  - apply resolve_then_mark_paid.
  - by apply paid_exec.
Qed.

(** A market whose deadline is after the time read for the round
    causes no call at all. *)
Theorem process_market_not_due (cfg : config) (current_time : Z)
    (row : market_row) (s : ext) :
  (current_time < deadline row)%Z ->
  process_market cfg current_time row s = (Returns tt, s, []).
Proof. intros Hd. unfold process_market. by rewrite bool_decide_eq_false_2 by lia. Qed.

Lemma process_market_paid cfg now row (s : ext) :
  paid (trace_of (process_market cfg now row s)).
Proof.
  unfold process_market. case_bool_decide; [apply resolve_due_market_paid|by eexists].
Qed.

(** One round of the loop is paid. *)
Lemma main_iteration_paid cfg (s : ext) : paid (trace_of (main_iteration cfg s)).
Proof.
  unfold main_iteration.
  closed_run paid; first [apply process_market_paid | by apply paid_exec].
Qed.

(** C2. At every round of [main], every [mark_resolved] is paid for by
    an accepted POST of its own that came before it: over the whole run,
    however it ends, no market is marked resolved without a transaction
    the node accepted, and no accepted transaction pays for two marks. *)
Theorem main_paid (cfg : config) (n : nat) (s : ext) :
  paid (trace_of (main cfg n s)).
Proof.
  unfold main.
  closed_run paid; first [apply main_iteration_paid | by apply paid_exec].
Qed.

(** *** Which markets are marked *)

#[export] Instance marks_within_closed (ids : list string) :
  TraceClosed (fun t => marks_within ids t = true).
Proof. apply forallb_closed. Qed.

Lemma marks_within_mono (ids ids' : list string) (t : list event) :
  ids ⊆ ids' -> marks_within ids t = true -> marks_within ids' t = true.
Proof.
  intros Hsub. unfold marks_within. rewrite !forallb_forall.
  intros Ht e He. specialize (Ht e He). destruct e; try done.
  rewrite bool_decide_eq_true in *. auto.
Qed.

(** A trace without marks is within any list of ids. *)
Lemma marks_within_no_marks (ids : list string) (t : list event) :
  count_ev is_mark_resolved t = 0 -> marks_within ids t = true.
Proof.
  rewrite count_ev_zero. unfold marks_within. rewrite !forallb_forall.
  intros Ht e He. specialize (Ht e He). by destruct e.
Qed.

Lemma marks_within_exec {X} (ids : list string) (c : call X) (s : ext) :
  (forall r, is_mark_resolved (event_of c r) = false) ->
  marks_within ids (trace_of (exec c s)) = true.
Proof.
  intros Hc. apply exec_trace. intros r. apply marks_within_no_marks.
  rewrite count_ev_cons, Hc. done.
Qed.

(** The outcome source makes no call of a kind that excludes prints. *)
Lemma fetch_count_zero (p : event -> bool) (s : ext) :
  (forall e, is_print e = true -> p e = false) ->
  count_ev p (trace_of (fetch_eth_staking_data s)) = 0.
Proof.
  intros Hp. pose proof (fetch_prints s) as Hf. apply count_ev_zero.
  rewrite forallb_forall in *. intros e He. by rewrite Hp by auto.
Qed.

(** The handling of a due market marks no market but its own. *)
Lemma resolve_due_market_marks_own cfg (row : market_row) (s : ext) :
  marks_within [market_id row] (trace_of (resolve_due_market cfg row s)) = true.
Proof.
  unfold resolve_due_market.
  set (P := fun t => marks_within [market_id row] t = true).
  apply (closed_bind P); [by apply marks_within_exec|]. intros _ s1.
  apply (closed_bind P).
  { apply marks_within_no_marks, fetch_count_zero. by intros []. }
  intros [v|] s2; [|by apply marks_within_exec].
  apply (closed_bind P); [apply marks_within_no_marks, resolve_market_no_marks|].
  intros [] s3; [|done].
  apply (closed_bind P); [|intros; by apply marks_within_exec].
  apply exec_trace. intros r. unfold P. simpl.
  rewrite bool_decide_eq_true_2; [done|]. by apply list_elem_of_singleton.
Qed.

(** In one pass over the pending rows, the only markets marked
    resolved are rows of the list whose deadline is not after the time read
    for the round. *)
Theorem for_each_marks_due (cfg : config) (current_time : Z)
    (pending : list market_row) (s : ext) :
  marks_within (due_ids current_time pending)
    (trace_of (for_each pending (process_market cfg current_time) s)) = true.
Proof.
  revert s. induction pending as [|row pending IH]; intros s; [done|]. simpl.
  apply (closed_bind (fun t => marks_within _ t = true)).
  - unfold process_market, due_ids. simpl. case_bool_decide; [|done].
    eapply marks_within_mono, resolve_due_market_marks_own. set_solver.
  - intros _ s'. eapply marks_within_mono, IH.
    unfold due_ids. simpl. case_bool_decide; set_solver.
Qed.

(** *** The loop over the due markets *)


(** *** Progress *)

(** When the console works, the outcome source returns the snapshot. *)
Lemma fetch_succeeds (s : ext) :
  always_returns -> result_of (fetch_eth_staking_data s) = Returns (Some snapshot).
Proof.
  intros Hret. unfold fetch_eth_staking_data, fetch_body, fetch_handler.
  rewrite staking_rate_computes. exec_crush; absurd_raise Hret.
Qed.

(** The pipeline never marks the market it is given. *)
Lemma resolve_market_no_mark_of cfg id opt id' (s : ext) :
  count_ev (is_mark_resolved_of id') (trace_of (resolve_market cfg id opt s)) = 0.
Proof.
  assert (Hle := count_ev_le (is_mark_resolved_of id') is_mark_resolved
    (trace_of (resolve_market cfg id opt s)) ltac:(by intros [])).
  rewrite resolve_market_no_marks in Hle. lia.
Qed.

(** The run of the handling of a due market when nothing fails: it
    returns, and its trace holds one mark, of that market, which
    returned. *)
Lemma resolve_due_market_marks cfg (row : market_row) (s : ext) :
  always_returns -> node_accepts -> missing_credentials cfg = false ->
  result_of (resolve_due_market cfg row s) = Returns tt /\
  exists t1 t2,
    trace_of (resolve_due_market cfg row s) =
      t1 ++ Ev_db_mark_resolved (market_id row) (Returns tt) :: t2 /\
    count_ev is_mark_resolved t1 = 0 /\ count_ev is_mark_resolved t2 = 0.
Proof.
  intros Hret Hnode Hcfg. unfold resolve_due_market, exec. io_unfold.
  destruct (handle _ (print _) s) as [[[]|e] s1] eqn:E1; [|absurd_raise Hret].
  pose proof (fetch_succeeds s1 Hret) as Hf.
  pose proof (fetch_count_zero is_mark_resolved s1 ltac:(by intros [])) as Hfc.
  destruct (fetch_eth_staking_data s1) as [[rf s2] tf].
  unfold result_of, trace_of in Hf, Hfc. simpl in Hf, Hfc. subst rf.
  set (opt := decide_winning_option snapshot (threshold row)).
  pose proof (resolve_market_returns_true cfg (market_id row) opt s2 Hret Hnode Hcfg) as Hr.
  pose proof (resolve_market_no_marks cfg (market_id row) opt s2) as Hrc.
  destruct (resolve_market cfg (market_id row) opt s2) as [[rr s3] tr].
  unfold result_of, trace_of in Hr, Hrc. simpl in Hr, Hrc. subst rr.
  destruct (handle _ (db_mark_resolved _) s3) as [[[]|e] s4] eqn:E4; [|absurd_raise Hret].
  destruct (handle _ (print _) s4) as [[[]|e] s5] eqn:E5; [|absurd_raise Hret].
  simpl. split; [done|]. eexists (_ :: tf ++ tr), [_].
  split; [simpl; by rewrite <- app_assoc|]. by rewrite count_ev_cons, count_ev_app, Hfc, Hrc.
Qed.

(** C31. When every call returns and the node answers 200, the handling
    of a due market returns after marking that market resolved, once. *)
Theorem resolve_due_market_settles (cfg : config) (row : market_row) (s : ext) :
  always_returns -> node_accepts -> missing_credentials cfg = false ->
  result_of (resolve_due_market cfg row s) = Returns tt /\
  count_ev (is_mark_resolved_of (market_id row))
    (trace_of (resolve_due_market cfg row s)) = 1.
Proof.
  intros Hret Hnode Hcfg.
  destruct (resolve_due_market_marks cfg row s Hret Hnode Hcfg)
    as (Hr & t1 & t2 & -> & Ht1 & Ht2).
  split; [done|]. rewrite count_ev_app, count_ev_cons. simpl.
  rewrite bool_decide_eq_true_2 by done.
  pose proof (count_ev_le (is_mark_resolved_of (market_id row)) is_mark_resolved t1
                ltac:(by intros [])).
  pose proof (count_ev_le (is_mark_resolved_of (market_id row)) is_mark_resolved t2
                ltac:(by intros [])).
  lia.
Qed.

End LoopFacts.
