(* ===== verification/Calls.v ===== *)
(** * Calls: the worker is built from its calls

    Every function of the worker is a composition, by sequencing,
    [try/except], [if] and [for], of calls to the outside world and of pure
    computations.  Two consequences are drawn here for all of them at once.

    A relation between state, trace and state that every call is in, and
    that is closed under sequencing, holds of every run of every function,
    however the run ends ([main_runs]): this is how the contract of the
    store reaches the loop in [Settlement].

    The number of calls of a run is bounded by the sum of the calls the
    source writes on its longest path: no function of the worker loops
    except [main] itself, and each round of [main] ends after a number of
    calls that depends on the number of markets only.

    And while the console, the clock and the store answer, every round
    returns whatever the SDK and the node do, and marks what the node
    accepted. *)

From Stdlib Require Import ZArith Floats Lia.
From stdpp Require Import base tactics strings list.
From S2P Require Import Prelude Runs Python Env Source Pipeline Outcomes Loop.

#[local] Open Scope io_scope.

Section Calls.
Context `{SdkTypes} `{!Env}.

(** ** Definitions *)

(** An event of any kind. *)
Definition any_call (e : event) : bool := true.

(** The calls of [fetch_eth_staking_data] at most: two prints and the
    diagnostic. *)
Definition fetch_calls : nat := 3.

(** The calls of [resolve_market] at most: the thirty-two of the [try] and
    the diagnostic of the [except]. *)
Definition resolve_market_calls : nat := 33.

(** The calls made for one due market at most: the notice, the
    measurement, the pipeline, the mark and its report. *)
Definition market_calls : nat := 1 + fetch_calls + resolve_market_calls + 2.

(** The calls of one round over [k] pending markets at most: the store,
    the clock, the markets and the sleep. *)
Definition round_calls (k : nat) : nat := 2 + k * market_calls + 1.

(** The calls [main] makes outside any [try]: the console, the clock and
    the store. *)
Definition is_local {X} (c : call X) : bool :=
  match c with
  | print _ | time_time | time_sleep _ | db_init_db | db_get_pending_markets
  | db_mark_resolved _ => true
  | _ => false
  end.

(** The console, the clock and the store answer. *)
Definition local_calls_return : Prop :=
  forall X (c : call X) (s : ext), is_local c = true -> returned (handle X c s).1 = true.

(** No call raises what [except Exception] does not catch: nothing
    interrupts the worker. *)
Definition no_interrupt : Prop :=
  forall X (c : call X) (s : ext) (e : exn), (handle X c s).1 = Raises e -> caught e = true.

(** The clock gives a time [int()] converts. *)
Definition clock_finite : Prop :=
  forall (s : ext) (now : float),
    (handle _ time_time s).1 = Returns now -> returned (int_of_float now) = true.

(** The event is a [db.mark_resolved] that returned. *)
Definition is_marked (e : event) : bool :=
  match e with Ev_db_mark_resolved _ (Returns _) => true | _ => false end.

(** As many markets were marked as transactions were accepted. *)
Definition settled (t : list event) : Prop :=
  count_ev is_accepted_post t = count_ev is_marked t.

(** ** Theorems *)

(** *** What every call keeps, the worker keeps *)

Section Built.
Context (R : ext -> list event -> ext -> Prop) `{!RunClosed R}.
Context (Hexec : forall X (c : call X), runs R (exec c)).

Lemma fetch_runs : runs R fetch_eth_staking_data.
Proof. unfold fetch_eth_staking_data, fetch_body, fetch_handler. runs_walk; apply Hexec. Qed.

Lemma resolve_market_runs cfg id opt : runs R (resolve_market cfg id opt).
Proof. unfold_pipeline. runs_walk; apply Hexec. Qed.

Lemma resolve_due_market_runs cfg row : runs R (resolve_due_market cfg row).
Proof.
  unfold resolve_due_market.
  runs_walk; first [apply Hexec | apply fetch_runs | apply resolve_market_runs].
Qed.

Lemma process_market_runs cfg now row : runs R (process_market cfg now row).
Proof. unfold process_market. runs_walk. apply resolve_due_market_runs. Qed.

Lemma main_iteration_runs cfg : runs R (main_iteration cfg).
Proof.
  unfold main_iteration. runs_walk; first [apply Hexec | apply process_market_runs].
Qed.

Lemma main_runs cfg n : runs R (main cfg n).
Proof. unfold main. runs_walk; first [apply Hexec | apply main_iteration_runs]. Qed.

End Built.

(** *** The number of calls *)

Lemma fetch_bounded : bounded any_call fetch_calls fetch_eth_staking_data.
Proof.
  unfold fetch_eth_staking_data, fetch_body, fetch_handler.
  eapply bounded_weaken; [bounded_walk; apply bounded_exec | vm_compute; lia].
Qed.

Lemma resolve_market_bounded cfg id opt :
  bounded any_call resolve_market_calls (resolve_market cfg id opt).
Proof.
  unfold_pipeline.
  eapply bounded_weaken; [bounded_walk; apply bounded_exec | vm_compute; lia].
Qed.

Lemma resolve_due_market_bounded cfg row :
  bounded any_call market_calls (resolve_due_market cfg row).
Proof.
  unfold resolve_due_market.
  eapply bounded_weaken;
    [bounded_walk;
     first [apply fetch_bounded | apply resolve_market_bounded | apply bounded_exec]
    | vm_compute; lia].
Qed.

Lemma process_market_bounded cfg now row :
  bounded any_call market_calls (process_market cfg now row).
Proof.
  unfold process_market.
  eapply bounded_weaken; [bounded_walk; apply resolve_due_market_bounded | vm_compute; lia].
Qed.

(** *** The failures the worker survives *)

Section Survives.
Context (Hlocal : local_calls_return) (Hgentle : no_interrupt).

Lemma exec_total {X} (c : call X) : is_local c = true -> total (exec c).
Proof. intros Hc s. rewrite exec_run. by apply Hlocal. Qed.

Lemma exec_gentle {X} (c : call X) : gentle (exec c).
Proof. intros s e. rewrite exec_run. apply Hgentle. Qed.

#[local] Hint Resolve exec_gentle : io.
#[local] Hint Extern 1 (total (exec _)) => (by apply exec_total) : io.

(** The outcome source returns. *)
Lemma fetch_total : total fetch_eth_staking_data.
Proof.
  unfold fetch_eth_staking_data, fetch_body, fetch_handler.
  total_walk; auto with io. by rewrite staking_rate_computes.
Qed.

(** The pipeline returns, whatever the SDK and the network do. *)
Lemma resolve_market_total cfg id opt : total (resolve_market cfg id opt).
Proof.
  unfold_pipeline. total_walk; solve [auto with io].
Qed.

#[local] Hint Resolve fetch_total resolve_market_total : io.

Lemma process_market_total cfg now row : total (process_market cfg now row).
Proof.
  unfold process_market, resolve_due_market.
  total_walk; solve [auto with io].
Qed.

#[local] Hint Resolve process_market_total : io.

Lemma main_iteration_total cfg : clock_finite -> total (main_iteration cfg).
Proof.
  intros Hclock s. unfold main_iteration.
  apply returns_bind_run; [by apply exec_total|]. intros l _.
  apply returns_bind_run; [by apply exec_total|]. intros now Hnow.
  rewrite exec_run in Hnow. apply Hclock in Hnow.
  generalize (state_of (exec time_time (state_of (exec db_get_pending_markets s)))).
  match goal with |- forall w, returned (result_of (?m w)) = true => change (total m) end.
  total_walk; solve [auto with io].
Qed.

End Survives.

#[local] Hint Resolve exec_gentle fetch_total resolve_market_total process_market_total
  main_iteration_total : io.
#[local] Hint Extern 1 (total (exec _)) =>
  (apply exec_total; [assumption | reflexivity]) : io.

Lemma main_total cfg (n : nat) :
  local_calls_return -> no_interrupt -> clock_finite -> total (main cfg n).
Proof.
  intros Hlocal Hgentle Hclock. unfold main.
  total_walk; solve [auto with io].
Qed.

(** C12. No failure of the SDK or of the network stops the worker: when
    the console, the clock and the store answer, and no call raises
    anything but an [Exception], every round of [main] returns, whatever
    the pipeline meets. *)
Theorem main_survives (cfg : config) (n : nat) (s : ext) :
  local_calls_return -> no_interrupt -> clock_finite ->
  result_of (main cfg n s) = Returns tt.
Proof. intros Hlocal Hgentle Hclock. by apply total_unit, main_total. Qed.

(** *** What is accepted is marked *)

#[export] Instance settled_closed : TraceClosed settled.
Proof.
  split; [done|]. unfold settled. intros t1 t2 Ha Hb.
  by rewrite !count_ev_app, Ha, Hb.
Qed.

(** A call that is neither a POST nor a mark is settled. *)
Lemma settled_exec {X} (c : call X) (s : ext) :
  (forall r, is_post (event_of c r) = false) ->
  (forall r, is_mark_resolved (event_of c r) = false) ->
  settled (trace_of (exec c s)).
Proof.
  intros Hp Hm. apply exec_trace. intros r. specialize (Hp r). specialize (Hm r).
  unfold settled. rewrite !count_ev_cons. by destruct (event_of c r).
Qed.

Section Settled.
Context (Hlocal : local_calls_return).

Lemma local_prints_return : prints_return.
Proof. intros line s. by apply Hlocal. Qed.

(** The pipeline followed by the mark it earned is settled: the node
    accepted a transaction exactly when the market is marked. *)
Lemma resolve_then_mark_settled cfg (row : market_row) (v : float) (s : ext) :
  settled (trace_of (io_bind
    (resolve_market cfg (market_id row) (decide_winning_option v (threshold row)))
    (fun ok : bool =>
       if ok then
         io_bind (exec (db_mark_resolved (market_id row)))
           (fun _ => exec (print ("✅ Market " +:+ market_id row +:+ " resolved as " +:+
                             option_name (decide_winning_option v (threshold row)))))
       else io_ret tt) s)).
Proof.
  set (opt := decide_winning_option v (threshold row)).
  pose proof (resolve_market_accepted_true cfg (market_id row) opt s local_prints_return) as Ha.
  pose proof (resolve_market_no_marks cfg (market_id row) opt s) as Hm.
  pose proof (count_ev_le is_marked is_mark_resolved
                (trace_of (resolve_market cfg (market_id row) opt s))
                ltac:(by intros []; destruct r)) as Hle.
  unfold io_bind, settled.
  destruct (resolve_market cfg (market_id row) opt s) as [[[[]|e] s1] t1];
    unfold result_of, trace_of in *; simpl in *; try lia.
  - rewrite !exec_run. pose proof (Hlocal _ (db_mark_resolved (market_id row)) s1 eq_refl) as Hr.
    destruct (handle _ (db_mark_resolved (market_id row)) s1) as [[[]|e] s2]; [|done].
    simpl. rewrite !count_ev_app, !count_ev_cons. simpl.
    change (count_ev _ []) with 0. lia.
  - rewrite app_nil_r. lia.
Qed.

Lemma resolve_due_market_settled cfg row (s : ext) :
  settled (trace_of (resolve_due_market cfg row s)).
Proof.
  unfold resolve_due_market.
  apply (closed_bind settled); [by apply settled_exec|]. intros _ s1.
  apply (closed_bind settled).
  { unfold fetch_eth_staking_data, fetch_body, fetch_handler.
    closed_run settled; by apply settled_exec. }
  intros [v|] s2; [apply resolve_then_mark_settled | by apply settled_exec].
Qed.

Lemma process_market_settled cfg now row (s : ext) :
  settled (trace_of (process_market cfg now row s)).
Proof. unfold process_market. case_bool_decide; [apply resolve_due_market_settled | done]. Qed.

Lemma main_iteration_settled cfg (s : ext) : settled (trace_of (main_iteration cfg s)).
Proof.
  unfold main_iteration.
  closed_run settled; first [by apply settled_exec | apply process_market_settled].
Qed.

End Settled.

(** C4. While the console and the store answer, the worker marks what
    the node accepts: in every run of [main], however it ends, as many
    markets were marked resolved in the store as transactions were
    accepted by the node.  With the ledger, in which no mark comes before
    its transaction, each accepted transaction has its mark. *)
Theorem main_settles_what_it_posts (cfg : config) (n : nat) (s : ext) :
  local_calls_return ->
  count_ev is_accepted_post (trace_of (main cfg n s)) =
  count_ev is_marked (trace_of (main cfg n s)).
Proof.
  intros Hlocal. change (settled (trace_of (main cfg n s))). unfold main.
  closed_run settled; first [by apply main_iteration_settled | by apply settled_exec].
Qed.

End Calls.

(** ** Hints *)

(** The same rules outside the section, where the hypotheses on the
    environment are premises. *)
#[export] Hint Resolve exec_gentle fetch_total resolve_market_total process_market_total
  main_iteration_total : io.
#[export] Hint Extern 1 (total (exec _)) =>
  (apply exec_total; [assumption | reflexivity]) : io.
