(* ===== verification/Settlement.v ===== *)
(** * Settlement: the loop and the store

    The theorems of [Loop] speak of the trace of [main].  Here the
    environment keeps the contract of the store ([StoreLaws]), and the
    markets are followed through the rounds: the store after a run is the
    store before it with the marks of the trace; the worker keeps the store
    well formed; a market is marked resolved at most once over the whole
    run; and a round in which nothing fails leaves no due market pending. *)

From Stdlib Require Import ZArith Floats.
From stdpp Require Import base tactics strings list sets.
From S2P Require Import Prelude Runs Python Env Store Source Pipeline Outcomes Loop Calls.

#[local] Open Scope io_scope.
#[local] Set Warnings "-clear-no-such-hyp".

(** ** Definitions *)

(** The weight of a row for the marks of [id]: one when the row is that
    market. *)
Definition is_row_of (id : string) (r : market_row) : nat :=
  if bool_decide (market_id r = id) then 1 else 0.

(** The store after marking each id of a list. *)
Definition mark_all (l : list string) (st : store) : store :=
  foldl (fun st id => mark_resolved id st) st l.

Section Settlement.
Context `{SdkTypes} `{!Env} `{!StoreLaws}.

(** ** Theorems *)

(** *** Marking the due markets *)

Lemma filter_filter_and {A} (f g : A -> bool) (l : list A) :
  List.filter f (List.filter g l) = List.filter (fun x => g x && f x) l.
Proof.
  induction l as [|x l IH]; simpl; [done|].
  destruct (g x); simpl; [destruct (f x)|]; by rewrite IH.
Qed.

(** The pending rows after marking a list of ids are the pending rows
    whose id is not in the list. *)
Lemma get_pending_mark_all (l : list string) (st : store) :
  get_pending_markets (mark_all l st) =
  List.filter (fun m => forallb (fun id => other_than id m) l) (get_pending_markets st).
Proof.
  revert st. induction l as [|id l IH]; intros st; simpl.
  - induction (get_pending_markets st) as [|m k IHk]; simpl; by rewrite <- ?IHk.
  - unfold mark_all in *. simpl. rewrite IH, get_pending_mark_resolved.
    apply filter_filter_and.
Qed.

(** Once the due markets are marked, no pending market is due. *)
Lemma mark_all_due_none (now : Z) (st : store) (m : market_row) :
  m ∈ get_pending_markets (mark_all (due_ids now (get_pending_markets st)) st) ->
  (now < deadline m)%Z.
Proof.
  rewrite get_pending_mark_all, list_elem_of_In, filter_In, forallb_forall.
  intros [Hm Hall]. destruct (decide (deadline m <= now)%Z) as [Hd|]; [|lia].
  specialize (Hall (market_id m)). unfold other_than in Hall.
  rewrite bool_decide_eq_true_2 in Hall by done. discriminate Hall.
  unfold due_ids. apply list_elem_of_In, list_elem_of_fmap. exists m. split; [done|].
  apply list_elem_of_In, filter_In. split; [done|]. by apply bool_decide_eq_true_2.
Qed.

(** *** The store follows the trace *)

Lemma resolve_due_market_follows cfg row : runs follows (resolve_due_market cfg row).
Proof. apply resolve_due_market_runs; [apply _ | intros; apply exec_follows]. Qed.

Lemma main_iteration_follows cfg : runs follows (main_iteration cfg).
Proof. apply main_iteration_runs; [apply _ | intros; apply exec_follows]. Qed.

Lemma main_follows cfg n : runs follows (main cfg n).
Proof. apply main_runs; [apply _ | intros; apply exec_follows]. Qed.


(** *** The marks of a round *)

(** The handling of a row marks its market at most once, and no other. *)
Lemma process_market_marks cfg now row id :
  bounded (is_mark_resolved_of id) (is_row_of id row) (process_market cfg now row).
Proof.
  unfold process_market, resolve_due_market, fetch_eth_staking_data, fetch_body,
    fetch_handler. unfold_pipeline. unfold is_row_of.
  case_bool_decide as Hid;
    (eapply bounded_weaken;
     [bounded_walk;
      first [apply bounded_exec_none; intros ?; simpl;
               first [reflexivity | by apply bool_decide_eq_false_2]
            | apply bounded_exec]
     | by vm_compute]).
Qed.

(** Rows with distinct ids weigh one at most. *)
Lemma sum_of_is_row_of (id : string) (l : list market_row) :
  NoDup (map market_id l) -> sum_of (is_row_of id) l <= 1.
Proof.
  induction l as [|r l IH]; simpl; [lia|]. rewrite NoDup_cons.
  intros [Hr Hl]. specialize (IH Hl). unfold is_row_of at 1.
  case_bool_decide as Hid; [|lia].
  assert (sum_of (is_row_of id) l = 0); [|lia].
  clear IH Hl. induction l as [|r' l IH]; simpl; [done|].
  simpl in Hr. rewrite not_elem_of_cons in Hr. destruct Hr as [Hr Hl].
  unfold is_row_of at 1. rewrite bool_decide_eq_false_2 by congruence. auto.
Qed.

(** What a round makes of the rows the store gave it. *)
Lemma main_iteration_run (P : list event -> Prop) `{!TraceClosed P} cfg (s : ext) :
  (forall r, P [Ev_db_get_pending_markets r]) ->
  (forall r, P [Ev_time_time r]) -> (forall r, P [Ev_time_sleep 60 r]) ->
  (forall now s', P (trace_of (for_each (get_pending_markets (store_of s))
                                 (process_market cfg now) s'))) ->
  P (trace_of (main_iteration cfg s)).
Proof.
  intros Hp Ht Hs Hfor. unfold main_iteration.
  apply closed_bind_run; [done | by apply exec_trace |]. intros l Hl.
  rewrite exec_run in Hl. apply pending_law in Hl as ->.
  apply (closed_bind P); [by apply exec_trace|]. intros now s1.
  apply (closed_bind P); [apply (closed_lift P)|]. intros ct s2.
  apply (closed_bind P); [apply Hfor|]. intros _ s3. by apply exec_trace.
Qed.

(** The marks of a round are for markets that were pending when the round
    began. *)
Lemma main_iteration_marks_pending cfg (s : ext) :
  marks_within (pending_ids (store_of s)) (trace_of (main_iteration cfg s)) = true.
Proof.
  apply main_iteration_run; [apply _ | done..|]. intros now s'.
  apply (runs_for_each_in (fun _ t _ => marks_within _ t = true)).
  intros r Hr s''. unfold process_market. case_bool_decide; [|done].
  eapply marks_within_mono, resolve_due_market_marks_own.
  intros id ->%list_elem_of_singleton. unfold pending_ids.
  apply list_elem_of_In, in_map, list_elem_of_In, Hr.
Qed.

(** A round marks a market at most once when the pending rows have
    distinct ids. *)
Lemma main_iteration_marks_once cfg (s : ext) (id : string) :
  NoDup (pending_ids (store_of s)) ->
  count_ev (is_mark_resolved_of id) (trace_of (main_iteration cfg s)) <= 1.
Proof.
  intros Hnd. unfold main_iteration. change 1 with (0 + 1).
  apply count_bind_run; [by apply bounded_exec_none|]. intros l Hl.
  rewrite exec_run in Hl. apply pending_law in Hl as ->.
  etrans; [|apply (sum_of_is_row_of id _ Hnd)].
  generalize (state_of (exec db_get_pending_markets s)).
  eapply bounded_weaken;
    [bounded_walk;
     first [eapply bounded_for_each; intros; apply process_market_marks
           | by apply bounded_exec_none]
    | apply Nat.eq_le_incl; by rewrite !Nat.add_0_l, Nat.add_0_r].
Qed.

(** *** The marks of a run *)

(** A market that is not pending is not marked again. *)
Lemma loop_never_marks_resolved cfg (n : nat) (s : ext) (id : string) :
  id ∉ pending_ids (store_of s) ->
  count_ev (is_mark_resolved_of id) (trace_of (loop_n n (main_iteration cfg) s)) = 0.
Proof.
  revert s. induction n as [|n IH]; intros s Hid; [done|]. simpl.
  assert (count_ev (is_mark_resolved_of id) (trace_of (main_iteration cfg s)) = 0) as Hnone.
  { apply count_ev_zero. pose proof (main_iteration_marks_pending cfg s) as Hm.
    unfold marks_within in Hm. rewrite forallb_forall in *. intros e He.
    specialize (Hm e He). destruct e; try done. simpl in *.
    apply bool_decide_eq_true in Hm. rewrite bool_decide_eq_false_2; [done|].
    by intros ->. }
  apply (closed_bind_run (fun t => count_ev (is_mark_resolved_of id) t = 0)); [done|].
  intros _ _. apply IH. rewrite (main_iteration_follows cfg s).
  by apply apply_marks_keeps_not_pending.
Qed.

(** Over the rounds of the loop, a market is marked resolved at most
    once. *)
Lemma loop_marks_once cfg (n : nat) (s : ext) (id : string) :
  wf_store (store_of s) ->
  count_ev (is_marked_of id) (trace_of (loop_n n (main_iteration cfg) s)) <= 1.
Proof.
  revert s. induction n as [|n IH]; intros s Hwf; simpl; [unfold count_ev; simpl; lia|].
  pose proof (main_iteration_marks_once cfg s id (wf_store_pending _ Hwf)) as Hone.
  pose proof (count_ev_le (is_marked_of id) (is_mark_resolved_of id)
                (trace_of (main_iteration cfg s))) as Hle.
  pose proof (main_iteration_follows cfg s) as Hf. unfold follows in Hf.
  destruct (decide (count_ev (is_marked_of id) (trace_of (main_iteration cfg s)) = 0))
    as [Hz|Hnz].
  - change 1 with (0 + 1). apply count_bind_run; [lia|]. intros _ _.
    apply IH. rewrite Hf. by apply apply_marks_wf.
  - change 1 with (1 + 0). apply count_bind_run.
    { etrans; [apply Hle, marked_is_mark | done]. }
    intros _ _. apply Nat.le_0_r.
    pose proof (loop_never_marks_resolved cfg n (state_of (main_iteration cfg s)) id) as Hnone.
    pose proof (count_ev_le (is_marked_of id) (is_mark_resolved_of id)
      (trace_of (loop_n n (main_iteration cfg) (state_of (main_iteration cfg s))))) as Hle'.
    rewrite Hf in Hnone. specialize (Hnone (apply_marks_marked _ _ _ Hnz)).
    apply Nat.le_0_r. etrans; [apply Hle', marked_is_mark | lia].
Qed.

(** C3. In an environment that keeps the contract of the store, and from
    a store in which the id is a key, no market is marked resolved twice
    in a run of [main], however many rounds it makes and whatever fails in
    them: a market marked resolved is never listed as pending again, and a
    round handles each pending market once. *)
Theorem main_marks_once (cfg : config) (n : nat) (s : ext) (id : string) :
  wf_store (store_of s) ->
  count_ev (is_marked_of id) (trace_of (main cfg n s)) <= 1.
Proof.
  intros Hwf. unfold main. change 1 with (0 + (0 + 1)).
  apply count_bind_run; [by apply bounded_exec_none|]. intros _ _.
  apply count_bind_run; [by apply bounded_exec_none|]. intros _ _.
  apply loop_marks_once. rewrite !exec_run. unfold state_of. simpl.
  by rewrite !store_law_other.
Qed.

(** *** Progress *)

Section Progress.
Context (cfg : config).
Context (Hret : always_returns) (Hnode : node_accepts).
Context (Hcfg : missing_credentials cfg = false).

(** When nothing fails, the handling of a due market marks it in the
    store. *)
Lemma resolve_due_market_store (row : market_row) (s : ext) :
  result_of (resolve_due_market cfg row s) = Returns tt /\
  store_of (state_of (resolve_due_market cfg row s)) =
    mark_resolved (market_id row) (store_of s).
Proof.
  destruct (resolve_due_market_marks cfg row s Hret Hnode Hcfg)
    as (Hr & t1 & t2 & Ht & Ht1 & Ht2).
  split; [done|]. rewrite (resolve_due_market_follows cfg row s), Ht.
  by rewrite apply_marks_app, apply_marks_cons, !apply_marks_no_marks.
Qed.

Lemma process_market_settles (now : Z) (row : market_row) (s : ext) :
  result_of (process_market cfg now row s) = Returns tt /\
  store_of (state_of (process_market cfg now row s)) =
    mark_all (due_ids now [row]) (store_of s).
Proof.
  unfold process_market, due_ids. simpl. case_bool_decide; [|done].
  apply resolve_due_market_store.
Qed.

Lemma due_ids_cons (now : Z) (row : market_row) (l : list market_row) :
  due_ids now (row :: l) = due_ids now [row] ++ due_ids now l.
Proof. unfold due_ids. simpl. by case_bool_decide. Qed.

Lemma for_each_settles (now : Z) (l : list market_row) (s : ext) :
  result_of (for_each l (process_market cfg now) s) = Returns tt /\
  store_of (state_of (for_each l (process_market cfg now) s)) =
    mark_all (due_ids now l) (store_of s).
Proof.
  revert s. induction l as [|row l IH]; intros s; [done|].
  destruct (process_market_settles now row s) as [Hr Hs]. simpl.
  destruct (io_bind_returns (process_market cfg now row)
              (fun _ => for_each l (process_market cfg now)) s tt Hr) as (E1 & E2 & _).
  destruct (IH (state_of (process_market cfg now row s))) as [E3 E4].
  rewrite E1, E2, E3, E4. split; [done|].
  rewrite Hs, (due_ids_cons now row l). unfold mark_all. by rewrite foldl_app.
Qed.

End Progress.


(** C29. Marking and listing: after the handling of a due market in
    which nothing failed, [db.get_pending_markets()] lists the markets it
    listed before except that one, in the same order. *)
Theorem settled_not_listed (cfg : config) (row : market_row) (s : ext)
    (l : list market_row) :
  always_returns -> node_accepts -> missing_credentials cfg = false ->
  result_of ((resolve_due_market cfg row ;; exec db_get_pending_markets) s) = Returns l ->
  l = List.filter (other_than (market_id row)) (get_pending_markets (store_of s)) /\
  market_id row ∉ map market_id l.
Proof.
  intros Hret Hnode Hcfg.
  destruct (resolve_due_market_store cfg Hret Hnode Hcfg row s) as [Hr Hs].
  destruct (io_bind_returns (resolve_due_market cfg row)
              (fun _ => exec db_get_pending_markets) s tt Hr) as (-> & _ & _).
  rewrite exec_run. intros ->%pending_law. rewrite Hs.
  split; [apply get_pending_mark_resolved | apply mark_resolved_not_pending].
Qed.

(** *** The calls of a round *)

(** A round makes at most the calls of a round over all the markets of
    the store. *)
Lemma main_iteration_calls cfg (s : ext) :
  count_ev any_call (trace_of (main_iteration cfg s)) <=
  round_calls (length (store_of s)).
Proof.
  unfold main_iteration, round_calls. change 2 with (1 + 1). rewrite <- !Nat.add_assoc.
  apply count_bind_run; [apply bounded_exec|]. intros l Hl.
  rewrite exec_run in Hl. apply pending_law in Hl as ->.
  generalize (state_of (exec db_get_pending_markets s)).
  eapply bounded_weaken;
    [bounded_walk;
     first [eapply bounded_for_each; intros; apply process_market_bounded
           | apply bounded_exec]|].
  rewrite sum_of_const. pose proof (pending_length_le (store_of s)). simpl. nia.
Qed.

(** C26. Every round of [main] ends: it makes at most three calls and
    thirty-nine for each market of the store, whatever the calls answer;
    so [n] rounds of [main] make at most [2 + n * (3 + 39 * k)] calls on a
    store of [k] markets.  The worker waits for the outside world, and
    never loops on its own, in a round. *)
Theorem main_calls_bounded (cfg : config) (n : nat) (s : ext) :
  length (trace_of (main cfg n s)) <= 2 + n * round_calls (length (store_of s)) /\
  round_calls (length (store_of s)) = 3 + 39 * length (store_of s).
Proof.
  split; [|unfold round_calls, market_calls, fetch_calls, resolve_market_calls; lia].
  rewrite <- count_ev_all. unfold main. change 2 with (1 + 1). rewrite <- !Nat.add_assoc.
  apply count_bind_run; [apply (bounded_exec any_call)|]. intros _ _.
  apply count_bind_run; [apply (bounded_exec any_call)|]. intros _ _.
  rewrite !exec_run. unfold state_of. simpl.
  etrans;
    [apply (count_loop_n any_call (fun s => round_calls (length (store_of s))));
     [apply main_iteration_calls|]|].
  - intros s'. by rewrite (main_iteration_follows cfg s'), apply_marks_length.
  - by rewrite !store_law_other.
Qed.

End Settlement.
