(* ===== verification/Provenance.v ===== *)
(** * Provenance: what stands behind a mark

    [main] calls [db.mark_resolved(market_id)] in one place, line 147,
    under four conditions it has just established: the row was in the list
    the round read from the store, its deadline is not after the second
    the round read from the clock, the option was decided from the
    measurement against the threshold of the row, and [resolve_market]
    returned [True] for this market and this option.  The theorem of this
    file reads the four conditions back from the trace: before every mark
    of every run stand the calls of such a run of [resolve_market], and
    before them the readings of the round.

    The argument is by the shape of the trace.  [each_mark B] says that [B]
    holds of what precedes each mark; it is kept by sequencing when [B]
    looks at the end of what precedes only ([Recent]). *)

From Stdlib Require Import ZArith Floats Lia.
From stdpp Require Import base tactics strings list.
From S2P Require Import Prelude Runs Python Env Source Pipeline Outcomes Loop.

#[local] Open Scope io_scope.

Section Provenance.
Context `{SdkTypes} `{!Env}.

(** ** Definitions *)

(** The event reads the store or the clock. *)
Definition is_reading (e : event) : bool :=
  match e with Ev_db_get_pending_markets _ | Ev_time_time _ => true | _ => false end.

(** [t] is the trace of a run of [resolve_market] for the market [id] and
    the option [opt] that returned [True]. *)
Definition resolved_as (cfg : config) (id : string) (opt : Z) (t : list event) : Prop :=
  exists s : ext,
    result_of (resolve_market cfg id opt s) = Returns true /\
    trace_of (resolve_market cfg id opt s) = t.

(** The trace ends with a round that read the rows [l] from the store and
    the second [ct] from the clock, and has read neither since. *)
Definition last_read (l : list market_row) (ct : Z) (t : list event) : Prop :=
  exists t0 now t1,
    t = t0 ++ Ev_db_get_pending_markets (Returns l) :: Ev_time_time (Returns now) :: t1 /\
    int_of_float now = Returns ct /\ count_ev is_reading t1 = 0.

(** [t] is what [resolve_market] did for the market of [row], with the
    option the measurement decides against the threshold of the row. *)
Definition resolved_row (cfg : config) (row : market_row) (t : list event) (id : string)
    : Prop :=
  market_id row = id /\
  resolved_as cfg id (decide_winning_option snapshot (threshold row)) t.

(** [t] is what [resolve_market] did for a row of [l] that is due at
    [ct]. *)
Definition backed (cfg : config) (l : list market_row) (ct : Z) (t : list event)
    (id : string) : Prop :=
  exists row, row ∈ l /\ (deadline row <= ct)%Z /\ resolved_row cfg row t id.

(** What stands behind a mark of [id] that comes after [t]: the readings
    of a round, and then a resolution of a due row of that round. *)
Definition behind (cfg : config) (t : list event) (id : string) : Prop :=
  exists tr tp l ct, t = tr ++ tp /\ last_read l ct tr /\ backed cfg l ct tp id.

(** [B] holds of what precedes each mark of the trace. *)
Definition each_mark (B : list event -> string -> Prop) (t : list event) : Prop :=
  forall t1 id r t2, t = t1 ++ Ev_db_mark_resolved id r :: t2 -> B t1 id.

(** [B] holds of the last events of the trace. *)
Definition lately (B : list event -> string -> Prop) (t : list event) (id : string)
    : Prop :=
  exists t0 t1, t = t0 ++ t1 /\ B t1 id.

(** [B] looks at the end of a trace only. *)
Class Recent (B : list event -> string -> Prop) : Prop :=
  recent : forall t t1 id, B t1 id -> B (t ++ t1) id.

(** ** Theorems *)

(** *** Marks in a trace *)

#[export] Instance lately_recent B : Recent (lately B).
Proof. intros t t1 id (t0 & t' & -> & HB). exists (t ++ t0), t'. by rewrite app_assoc. Qed.

#[export] Instance behind_recent cfg : Recent (behind cfg).
Proof.
  intros t t1 id (tr & tp & l & ct & -> & (t0 & now & t' & -> & Hct & Hr) & Hb).
  exists (t ++ t0 ++ Ev_db_get_pending_markets (Returns l) :: Ev_time_time (Returns now) :: t'),
    tp, l, ct.
  split_and!; [by rewrite app_assoc | | done].
  exists (t ++ t0), now, t'. by rewrite <- app_assoc.
Qed.

Lemma each_mark_weaken (B B' : list event -> string -> Prop) (t : list event) :
  (forall t1 id, B t1 id -> B' t1 id) -> each_mark B t -> each_mark B' t.
Proof. intros HB Ht t1 id r t2 Heq. eapply HB, Ht, Heq. Qed.

(** A trace without marks. *)
Lemma each_mark_no_marks B (t : list event) :
  count_ev is_mark_resolved t = 0 -> each_mark B t.
Proof.
  intros Ht t1 id r t2 ->. count_events.
Qed.

(** A call that is not a mark. *)
Lemma each_mark_exec B {X} (c : call X) (s : ext) :
  (forall r, is_mark_resolved (event_of c r) = false) ->
  each_mark B (trace_of (exec c s)).
Proof.
  intros Hc. apply exec_trace. intros r. apply each_mark_no_marks.
  by rewrite count_ev_cons, Hc.
Qed.

(** Where a mark of a trace in two parts is. *)
Lemma mark_split (ta tb t1 t2 : list event) (m : event) :
  ta ++ tb = t1 ++ m :: t2 ->
  (exists v, ta = t1 ++ m :: v) \/ (exists v, t1 = ta ++ v /\ tb = v ++ m :: t2).
Proof.
  intros Heq. apply app_eq_app in Heq as [l [[-> Heq]|[-> ->]]]; [|right; by eexists].
  destruct l as [|b l]; simplify_eq/=; [right; exists [] | left; by eexists].
  by rewrite !app_nil_r.
Qed.

(** A trace with a mark has marks. *)
Lemma count_marks_pos (t1 t2 : list event) (m : event) :
  is_mark_resolved m = true -> count_ev is_mark_resolved (t1 ++ m :: t2) <> 0.
Proof. intros Hm. autorewrite with trace. rewrite Hm. lia. Qed.

(** A mark of a trace in two parts, the second without marks, is in the
    first. *)
Lemma mark_in_left (ta tb t1 t2 : list event) (m : event) :
  count_ev is_mark_resolved tb = 0 -> is_mark_resolved m = true ->
  ta ++ tb = t1 ++ m :: t2 -> exists v, ta = t1 ++ m :: v.
Proof.
  intros Hb Hm [?|(v & _ & ->)]%mark_split; [done|]. by apply count_marks_pos in Hb.
Qed.

(** One mark, between two traces without marks. *)
Lemma each_mark_after B (tp tq : list event) (id : string) (r : outcome unit) :
  count_ev is_mark_resolved tp = 0 -> count_ev is_mark_resolved tq = 0 ->
  B tp id -> each_mark B (tp ++ Ev_db_mark_resolved id r :: tq).
Proof.
  intros Hp Hq HB t1 id' r' t2 [[v ->]|(v & -> & Heq)]%mark_split.
  - by apply count_marks_pos in Hp.
  - destruct v as [|b v]; simplify_eq/=; [by rewrite app_nil_r|].
    by apply count_marks_pos in Hq.
Qed.

(** Sequencing keeps what stands behind the marks. *)
#[export] Instance each_mark_closed B `{!Recent B} : TraceClosed (each_mark B).
Proof.
  split; [by intros [] ? ? ? ?|].
  intros ta tb Ha Hb t1 id r t2 [[v ->]|(v & -> & ->)]%mark_split.
  - by eapply Ha.
  - apply recent. by eapply Hb.
Qed.

(** *** The marks of the worker *)

(** The pipeline and the mark it earned. *)
Lemma resolve_then_mark_backed cfg (row : market_row) (s : ext) :
  each_mark (lately (resolved_row cfg row)) (trace_of (io_bind
    (resolve_market cfg (market_id row) (decide_winning_option snapshot (threshold row)))
    (fun ok : bool =>
       if ok then
         io_bind (exec (db_mark_resolved (market_id row)))
           (fun _ => exec (print ("✅ Market " +:+ market_id row +:+ " resolved as " +:+
                             option_name (decide_winning_option snapshot (threshold row)))))
       else io_ret tt) s)).
Proof.
  set (opt := decide_winning_option snapshot (threshold row)).
  pose proof (resolve_market_no_marks cfg (market_id row) opt s) as Hm.
  unfold io_bind.
  destruct (resolve_market cfg (market_id row) opt s) as [[[[]|e] s1] tp] eqn:E;
    unfold trace_of in *; simpl in *; [|apply each_mark_no_marks; by rewrite ?app_nil_r..].
  assert (resolved_row cfg row tp (market_id row)) as Hrow.
  { split; [done|]. exists s. fold opt. by rewrite E. }
  rewrite !exec_run.
  destruct (handle _ (db_mark_resolved (market_id row)) s1) as [[[]|e] s2]; simpl;
    (eapply each_mark_weaken; [|by apply each_mark_after]);
    intros t1 id Ht; by exists [], t1.
Qed.

Lemma resolve_due_market_backed cfg (row : market_row) (s : ext) :
  each_mark (lately (resolved_row cfg row)) (trace_of (resolve_due_market cfg row s)).
Proof.
  unfold resolve_due_market.
  apply (closed_bind _); [by apply each_mark_exec|]. intros _ s1.
  apply closed_bind_run; [apply _ | |].
  { by apply each_mark_no_marks, fetch_count_zero; intros []. }
  intros [v|] Hv; [|by apply each_mark_exec].
  apply fetch_some_is_snapshot in Hv as ->. apply resolve_then_mark_backed.
Qed.

(** The body of the [for], on a row of the list. *)
Lemma process_market_backed cfg (l : list market_row) (ct : Z) (row : market_row) :
  row ∈ l -> traces (each_mark (lately (backed cfg l ct))) (process_market cfg ct row).
Proof.
  intros Hrow s. unfold process_market. case_bool_decide as Hdue; [|by apply each_mark_no_marks].
  eapply each_mark_weaken; [|apply resolve_due_market_backed].
  intros t1 id (t0 & tp & -> & Hres). exists t0, tp. split; [done|]. by exists row.
Qed.

(** The body of the [for] reads neither the store nor the clock. *)
Lemma process_market_reads_nothing cfg (ct : Z) (row : market_row) :
  traces (fun t => count_ev is_reading t = 0) (process_market cfg ct row).
Proof.
  unfold process_market, resolve_due_market, fetch_eth_staking_data, fetch_body,
    fetch_handler.
  unfold_pipeline. runs_walk; by apply traces_exec.
Qed.

(** A round, after its readings. *)
Lemma each_mark_round cfg (l : list market_row) (now : float) (ct : Z)
    (tfor rest : list event) :
  int_of_float now = Returns ct ->
  each_mark (lately (backed cfg l ct)) tfor -> count_ev is_reading tfor = 0 ->
  count_ev is_mark_resolved rest = 0 ->
  each_mark (behind cfg)
    (Ev_db_get_pending_markets (Returns l) :: Ev_time_time (Returns now) :: tfor ++ rest).
Proof.
  intros Hct Hfor Hnr Hrest [|a [|b t1]] id r t2 Heq; [done..|].
  injection Heq as <- <- Heq. apply mark_in_left in Heq as [v ->]; [|done..].
  destruct (Hfor _ _ _ _ eq_refl) as (t0 & tp & -> & Hb).
  exists (Ev_db_get_pending_markets (Returns l) :: Ev_time_time (Returns now) :: t0), tp, l, ct.
  split_and!; [done | | done]. exists [], now, t0. split_and!; [done..|].
  count_events.
Qed.

Lemma main_iteration_backed cfg (s : ext) :
  each_mark (behind cfg) (trace_of (main_iteration cfg s)).
Proof.
  unfold main_iteration, io_bind at 1. rewrite exec_run.
  destruct (handle _ db_get_pending_markets s) as [[l|e] s1]; simpl;
    [|by apply each_mark_no_marks].
  unfold io_bind at 1. rewrite exec_run.
  destruct (handle _ time_time s1) as [[now|e] s2]; simpl; [|by apply each_mark_no_marks].
  unfold io_bind at 1, io_lift.
  destruct (int_of_float now) as [ct|e] eqn:Hct; simpl; [|by apply each_mark_no_marks].
  pose proof (runs_for_each_in _ l (process_market cfg ct)
                (process_market_backed cfg l ct) s2) as Hfor.
  pose proof (runs_for_each _ l (process_market cfg ct)
                (process_market_reads_nothing cfg ct) s2) as Hnr.
  unfold io_bind, trace_of in *.
  destruct (for_each l (process_market cfg ct) s2) as [[[[]|e] s3] tfor]; simpl in *.
  - rewrite exec_run. by apply (each_mark_round cfg l now ct).
  - rewrite <- (app_nil_r tfor). by apply (each_mark_round cfg l now ct).
Qed.

(** What is behind the marks of a trace is behind the marks of its
    beginnings. *)
Lemma each_mark_prefix B (l l' : list event) :
  l' `prefix_of` l -> each_mark B l -> each_mark B l'.
Proof.
  intros [t ->] Hl t1 id r t2 ->. apply (Hl t1 id r (t2 ++ t)).
  by rewrite <- app_assoc.
Qed.

Lemma main_backed cfg (n : nat) (s : ext) :
  each_mark (behind cfg) (trace_of (main cfg n s)).
Proof.
  unfold main. closed_run (each_mark (behind cfg));
    first [apply main_iteration_backed | by apply each_mark_exec].
Qed.

(** C5. Nothing is marked that was not resolved, for the market it is
    marked for and on the terms of the round: in every run of [main],
    before every call of [db.mark_resolved(id)] stand the calls of a run of
    [resolve_market] that returned [True], for the market [id] and the
    option decided from the measurement against the threshold of a row of
    that market; the row is one of those the last reading of the store
    listed as pending, and its deadline is not after the second the clock
    gave at that reading. *)
Theorem main_marks_backed (cfg : config) (n : nat) (s : ext)
    (t1 t2 : list event) (id : string) (r : outcome unit) :
  trace_of (main cfg n s) = t1 ++ Ev_db_mark_resolved id r :: t2 ->
  exists tr tp l ct row,
    t1 = tr ++ tp /\ last_read l ct tr /\
    row ∈ l /\ market_id row = id /\ (deadline row <= ct)%Z /\
    resolved_as cfg id (decide_winning_option snapshot (threshold row)) tp.
Proof.
  intros Heq.
  destruct (main_backed cfg n s _ _ _ _ Heq)
    as (tr & tp & l & ct & -> & Hr & row & Hl & Hd & Hid & Hres).
  by exists tr, tp, l, ct, row.
Qed.

End Provenance.
