(* ===== verification/Isolation.v ===== *)
(** * Isolation: one market does not stop the next

    The specification asks that each market be resolved independently,
    and that the failure of the pipeline for one market neither block nor
    corrupt the resolution of another.  The [for] of a round is the
    handlings of its due rows one after the other ([passes]); while the
    console, the clock and the store answer and nothing interrupts, every
    due row of the round has its handling, which ran to its end, whatever
    the SDK and the node did to the rows before it; and a handling marks
    no market but its own. *)

From Stdlib Require Import ZArith Floats.
From stdpp Require Import base tactics strings list.
From S2P Require Import Prelude Runs Python Env Source Pipeline Loop Calls.

#[local] Open Scope io_scope.

Section Isolation.
Context `{SdkTypes} `{!Env}.

(** ** Definitions *)

(** Line 139: the rows whose deadline is not after the time read. *)
Definition due_rows (current_time : Z) (pending : list market_row) : list market_row :=
  List.filter (fun r => bool_decide (deadline r <= current_time)%Z) pending.

(** The handlings of the due rows of a round, from [s]. *)
Definition handlings (cfg : config) (current_time : Z) (pending : list market_row)
    (s : ext) : list (outcome unit * ext * list event) :=
  passes (resolve_due_market cfg) (due_rows current_time pending) s.

(** ** Theorems *)

(** The ids of the due rows are the due ids. *)
Lemma due_ids_rows (now : Z) (pending : list market_row) :
  due_ids now pending = market_id <$> due_rows now pending.
Proof. done. Qed.

(** The calls of the [for] of a round are the calls of the handlings of
    its due rows, in the order of the list, and nothing else: whatever the
    calls answer. *)
Lemma for_each_handlings cfg (now : Z) (pending : list market_row) (s : ext) :
  trace_of (for_each pending (process_market cfg now) s) =
  concat (trace_of <$> handlings cfg now pending s).
Proof.
  unfold handlings, due_rows, process_market.
  rewrite (for_each_filter (fun r => bool_decide (deadline r <= now)%Z) pending
             (resolve_due_market cfg) s).
  apply for_each_passes.
Qed.

(** The handling of a due market returns, whatever the pipeline meets. *)
Lemma resolve_due_market_total cfg (row : market_row) :
  local_calls_return -> no_interrupt -> total (resolve_due_market cfg row).
Proof.
  intros Hlocal Hgentle. unfold resolve_due_market.
  total_walk; solve [auto with io].
Qed.

(** C14. No market blocks another: while the console, the clock and the
    store answer and no call raises anything but an [Exception], the [for]
    of a round makes the calls of one handling for each row of the list
    that is due, in the order of the list, and no other call; each of
    these handlings ran to its end and returned, whatever the SDK and the
    node did in it and in the handlings before it, and marked no market
    but its own. *)
Theorem for_each_handles_every_due_market (cfg : config) (now : Z)
    (pending : list market_row) (s : ext) :
  local_calls_return -> no_interrupt ->
  trace_of (for_each pending (process_market cfg now) s) =
    concat (trace_of <$> handlings cfg now pending s) /\
  Forall2 (fun row r => result_of r = Returns tt /\
                        marks_within [market_id row] (trace_of r) = true)
    (due_rows now pending) (handlings cfg now pending s).
Proof.
  intros Hlocal Hgentle. split; [apply for_each_handlings|].
  apply (passes_total (fun row r => marks_within [market_id row] (trace_of r) = true)).
  - intros row. by apply resolve_due_market_total.
  - intros row s'. apply resolve_due_market_marks_own.
Qed.

End Isolation.
