(* ===== verification/Forever.v ===== *)
(** * Forever: the loop that does not end

    [main] is [while True]: it returns only by an exception.  [Loop] cuts
    it at [n] rounds.  Here the loop is the infinite one: the worker is an
    interaction tree whose visible events are its calls with their
    answers, [forever] iterates a round with [ITree.iter], and
    [main_forever] is lines 129-157 as they are written.

    What is seen of a tree in finitely many steps is a list of events
    ([observes]).  The theorem of this file says that what is seen of
    [main_forever] is what [main cfg n] does for some [n], and the
    reverse: the worker cut at [n] rounds, for every [n], shows all that
    the worker ever shows and nothing more.  A property of the traces of
    every [main cfg n] that passes to prefixes is then a property of
    everything seen of the worker that never stops. *)

From Stdlib Require Import ZArith.
From ITree Require Import ITree.
From stdpp Require Import base tactics strings list.
From S2P Require Import Prelude Runs Python Env Store Ledger Pipeline Loop Provenance Calls.

#[local] Set Warnings "-clear-no-such-hyp".

Section Forever.
Context `{SdkTypes} `{!Env}.
Local Abbreviation io := (io ext event).

(** ** Definitions *)

(** What is seen of the worker: a call, with its answer. *)
Variant obsE : Type -> Type :=
| Obs (e : event) : obsE unit.

(** The calls of a trace, then [k]. *)
Definition emit_then {R} (t : list event) (k : itree obsE R) : itree obsE R :=
  fold_right (fun e k => Vis (Obs e) (fun _ => k)) k t.

(** How a run ends, for what comes after it: with a state to go on from, or
    with the exception that ends the program. *)
Definition next_round (x : outcome unit * ext * list event) : ext + exn :=
  match result_of x with
  | Returns _ => inl (state_of x)
  | Raises e => inr e
  end.

(** A program of [io] played from a state: its calls, then how it ended. *)
Definition play (m : io unit) (s : ext) : itree obsE (ext + exn) :=
  emit_then (trace_of (m s)) (Ret (next_round (m s))).

(** [while True: body]: round after round, until one raises. *)
Definition forever (body : io unit) : ext -> itree obsE exn :=
  ITree.iter (play body).

(** Lines 130-131: what [main] does before the loop. *)
Definition main_start : io unit :=
  io_bind (exec db_init_db)
    (fun _ => exec (print "🤖 Oracle Worker is running and monitoring pending markets...")).

(** Lines 129-157: [main]. *)
Definition main_forever (cfg : config) (s : ext) : itree obsE exn :=
  ITree.bind (play main_start s)
    (fun x => match x with
              | inl s' => forever (main_iteration cfg) s'
              | inr e => Ret e
              end).

(** The first thing a tree does: it ends, it takes a silent step, or it
    makes a call. *)
Variant head {R : Type} : Type :=
| Done (r : R)
| Silent (t : itree obsE R)
| Call (e : event) (t : itree obsE R).
Arguments head : clear implicits.

Definition first_of {R} (t : itree obsE R) : head R :=
  match observe t with
  | RetF r => Done r
  | TauF t' => Silent t'
  | VisF e k =>
      match e in obsE X return (X -> itree obsE R) -> head R with
      | Obs ev => fun k => Call ev (k tt)
      end k
  end.

(** The calls seen of a tree in finitely many steps. *)
Inductive observes {R} : itree obsE R -> list event -> Prop :=
| observes_nil t : observes t []
| observes_silent t t' l : first_of t = Silent t' -> observes t' l -> observes t l
| observes_call t e t' l : first_of t = Call e t' -> observes t' l -> observes t (e :: l).

(** The tree ends with [r], after the calls of the list. *)
Inductive ends {R} : itree obsE R -> list event -> R -> Prop :=
| ends_done t r : first_of t = Done r -> ends t [] r
| ends_silent t t' l r : first_of t = Silent t' -> ends t' l r -> ends t l r
| ends_call t e t' l r : first_of t = Call e t' -> ends t' l r -> ends t (e :: l) r.

(** What the rounds after a run add to its trace, when there are [n] of
    them. *)
Definition rounds_after (body : io unit) (n : nat) (x : ext + exn) : list event :=
  match x with
  | inl s' => trace_of (loop_n n body s')
  | inr _ => []
  end.

(** The rounds after a run end with the exception [e], when there are [n]
    of them. *)
Definition raises_after (body : io unit) (n : nat) (x : ext + exn) (e : exn) : Prop :=
  match x with
  | inl s' => result_of (loop_n n body s') = Raises e
  | inr e' => e' = e
  end.

(** A round half played: the calls [p] are still to come, then the round
    ends as [x] says and the loop goes on. *)
Definition half_round (body : io unit) (p : list event) (x : ext + exn) : itree obsE exn :=
  ITree.bind (emit_then p (Ret x))
    (fun lr => match lr with
               | inl l => Tau (forever body l)
               | inr r => Ret r
               end).

(** ** Theorems *)

(** *** What is seen of a tree *)

(** What is seen depends on the first step only. *)
Lemma observes_first {R} (t t' : itree obsE R) (l : list event) :
  first_of t = first_of t' -> observes t l -> observes t' l.
Proof.
  intros Heq Ho. destruct Ho as [t|t t1 l Hf Ho|t e t1 l Hf Ho]; [constructor|..];
    rewrite Heq in Hf.
  - by eapply observes_silent.
  - by eapply observes_call.
Qed.

(** What is seen can be cut short. *)
Lemma observes_prefix {R} (t : itree obsE R) (l l' : list event) :
  observes t l -> l' `prefix_of` l -> observes t l'.
Proof.
  intros Ho. revert l'. induction Ho as [t|t t' l Hf _ IH|t e t' l Hf _ IH]; intros l' Hl.
  - apply prefix_nil_inv in Hl as ->. constructor.
  - eapply observes_silent; eauto.
  - destruct l' as [|e' l']; [constructor|].
    apply prefix_cons_inv_1 in Hl as He. apply prefix_cons_inv_2 in Hl. subst e'.
    eapply observes_call; eauto.
Qed.

(** The calls of a trace are seen, and then what follows them. *)
Lemma observes_emit {R S} (p : list event) (x : R) (K : R -> itree obsE S)
    (l : list event) :
  observes (K x) l -> observes (ITree.bind (emit_then p (Ret x)) K) (p ++ l).
Proof.
  intros Ho. induction p as [|e p IH]; simpl.
  - by eapply observes_first; [|apply Ho].
  - by eapply observes_call.
Qed.

(** What is seen of the calls of a trace and what follows is a part of the
    trace, or the trace and something seen of what follows. *)
Lemma observes_emit_inv {R S} (p : list event) (x : R) (K : R -> itree obsE S)
    (l : list event) :
  observes (ITree.bind (emit_then p (Ret x)) K) l ->
  l `prefix_of` p \/ exists l', l = p ++ l' /\ observes (K x) l'.
Proof.
  revert l. induction p as [|e p IH]; intros l Ho.
  - right. exists l. split; [done|]. by eapply observes_first; [|apply Ho].
  - inversion Ho as [|? ? ? Hf|? ? ? ? Hf Ho']; simplify_eq/=.
    + left. apply prefix_nil.
    + destruct (IH _ Ho') as [Hl|(l' & -> & Hl)].
      * left. by apply prefix_cons.
      * right. by exists l'.
Qed.

(** *** The loop *)

Lemma loop_n_S_trace (body : io unit) (n : nat) (s : ext) :
  trace_of (loop_n (S n) body s) =
  trace_of (body s) ++ rounds_after body n (next_round (body s)).
Proof.
  simpl. unfold io_bind, next_round, rounds_after, result_of, state_of, trace_of.
  destruct (body s) as [[[[]|e] s1] t1]; simpl; [|by rewrite app_nil_r].
  by destruct (loop_n n body s1) as [[r2 s2] t2].
Qed.

(** What is seen of a round half played is seen of some number of rounds. *)
Lemma half_round_sound (body : io unit) (t : itree obsE exn) (l : list event) :
  observes t l -> forall p x, first_of t = first_of (half_round body p x) ->
  exists n, l `prefix_of` p ++ rounds_after body n x.
Proof.
  induction 1 as [t|t t' l Hf _ IH|t e t' l Hf _ IH]; intros p x Ht.
  - exists 0. apply prefix_nil.
  - rewrite Ht in Hf. destruct p as [|e p]; [destruct x as [s'|e]|]; simplify_eq/=.
    destruct (IH (trace_of (body s')) (next_round (body s')) eq_refl) as [n Hl].
    exists (S n). by rewrite loop_n_S_trace.
  - rewrite Ht in Hf. destruct p as [|e' p]; [destruct x as [s'|e']|]; simplify_eq/=.
    destruct (IH p x eq_refl) as [n Hl]. exists n. by apply prefix_cons.
Qed.

(** What is seen of the loop is seen of its first rounds. *)
Lemma forever_sound (body : io unit) (s : ext) (l : list event) :
  observes (forever body s) l -> exists n, l `prefix_of` trace_of (loop_n n body s).
Proof.
  intros Ho.
  destruct (half_round_sound body _ l Ho (trace_of (body s)) (next_round (body s)) eq_refl)
    as [n Hl].
  exists (S n). by rewrite loop_n_S_trace.
Qed.

(** What its first rounds do is seen of the loop. *)
Lemma forever_complete (body : io unit) (n : nat) (s : ext) :
  observes (forever body s) (trace_of (loop_n n body s)).
Proof.
  revert s. induction n as [|n IH]; intros s; [constructor|].
  rewrite loop_n_S_trace.
  eapply (observes_first (half_round body (trace_of (body s)) (next_round (body s))));
    [done|].
  apply observes_emit. destruct (next_round (body s)) as [s'|e]; [|constructor].
  by eapply observes_silent.
Qed.

(** *** How the loop ends *)

Lemma ends_first {R} (t t' : itree obsE R) (l : list event) (r : R) :
  first_of t = first_of t' -> ends t l r -> ends t' l r.
Proof.
  intros Heq He. destruct He as [t r Hf|t t1 l r Hf He|t e t1 l r Hf He];
    rewrite Heq in Hf.
  - by apply ends_done.
  - by eapply ends_silent.
  - by eapply ends_call.
Qed.

Lemma ends_emit {R S} (p : list event) (x : R) (K : R -> itree obsE S)
    (l : list event) (r : S) :
  ends (K x) l r -> ends (ITree.bind (emit_then p (Ret x)) K) (p ++ l) r.
Proof.
  intros He. induction p as [|e p IH]; simpl.
  - by eapply ends_first; [|apply He].
  - by eapply ends_call.
Qed.

Lemma ends_emit_inv {R S} (p : list event) (x : R) (K : R -> itree obsE S)
    (l : list event) (r : S) :
  ends (ITree.bind (emit_then p (Ret x)) K) l r ->
  exists l', l = p ++ l' /\ ends (K x) l' r.
Proof.
  revert l. induction p as [|e p IH]; intros l He.
  - exists l. split; [done|]. by eapply ends_first; [|apply He].
  - inversion He as [? ? Hf|? ? ? ? Hf|? ? ? ? ? Hf He']; simplify_eq/=.
    destruct (IH _ He') as (l' & -> & Hl). by exists l'.
Qed.

(** A loop of [S n] rounds raises when its first round does, or the [n]
    rounds after it. *)
Lemma loop_n_S_raises (body : io unit) (n : nat) (s : ext) (e : exn) :
  result_of (loop_n (S n) body s) = Raises e <->
  raises_after body n (next_round (body s)) e.
Proof.
  simpl. unfold io_bind, next_round, raises_after, result_of, state_of.
  destruct (body s) as [[[[]|e'] s1] t1]; simpl; [|naive_solver].
  by destruct (loop_n n body s1) as [[r2 s2] t2].
Qed.

(** A round half played that ends, ends as some number of rounds do. *)
Lemma half_round_ends (body : io unit) (t : itree obsE exn) (l : list event) (e : exn) :
  ends t l e -> forall p x, first_of t = first_of (half_round body p x) ->
  exists n, l = p ++ rounds_after body n x /\ raises_after body n x e.
Proof.
  induction 1 as [t r Hf|t t' l r Hf _ IH|t e t' l r Hf _ IH]; intros p x Ht;
    rewrite Ht in Hf; (destruct p as [|e' p]; [destruct x as [s'|e'']|]); simplify_eq/=.
  - by exists 0.
  - destruct (IH (trace_of (body s')) (next_round (body s')) eq_refl) as (n & -> & Hn).
    exists (S n). by rewrite loop_n_S_trace, loop_n_S_raises.
  - destruct (IH p x eq_refl) as (n & -> & Hn). by exists n.
Qed.

(** The loop ends with an exception exactly when some number of its rounds
    raise it, after the calls they made. *)
Lemma forever_ends (body : io unit) (s : ext) (l : list event) (e : exn) :
  ends (forever body s) l e <->
  exists n, result_of (loop_n n body s) = Raises e /\ trace_of (loop_n n body s) = l.
Proof.
  split.
  - intros He.
    destruct (half_round_ends body _ l e He (trace_of (body s)) (next_round (body s)) eq_refl)
      as (n & -> & Hn).
    exists (S n). by rewrite loop_n_S_trace, loop_n_S_raises.
  - intros (n & Hr & <-). revert s Hr. induction n as [|n IH]; intros s Hr; [done|].
    apply loop_n_S_raises in Hr. rewrite loop_n_S_trace.
    eapply (ends_first (half_round body (trace_of (body s)) (next_round (body s))));
      [done|].
    apply ends_emit. destruct (next_round (body s)) as [s'|e']; simpl in *.
    + eapply ends_silent; [done|]. by apply IH.
    + by apply ends_done; subst.
Qed.

(** *** The worker *)

(** [main] for [n] rounds is the start and [n] rounds of the loop. *)
Lemma main_trace (cfg : config) (n : nat) (s : ext) :
  trace_of (main cfg n s) =
  trace_of (main_start s) ++ rounds_after (main_iteration cfg) n (next_round (main_start s)).
Proof.
  unfold main, main_start, next_round, io_bind, result_of, state_of, trace_of.
  destruct (exec db_init_db s) as [[[[]|e] s1] t1]; simpl; [|by rewrite app_nil_r].
  destruct (exec (print _) s1) as [[[[]|e] s2] t2]; simpl; [|by rewrite app_nil_r].
  destruct (loop_n n (main_iteration cfg) s2) as [[r3 s3] t3]; simpl.
  by rewrite app_assoc.
Qed.

(** What is seen of the worker is seen of its first rounds. *)
Lemma main_forever_sound (cfg : config) (s : ext) (l : list event) :
  observes (main_forever cfg s) l -> exists n, l `prefix_of` trace_of (main cfg n s).
Proof.
  intros [Hl|(l' & -> & Ho)]%observes_emit_inv.
  { exists 0. rewrite main_trace. by apply prefix_app_r. }
  destruct (next_round (main_start s)) as [s'|e] eqn:E.
  - apply forever_sound in Ho as [n Hl]. exists n. rewrite main_trace, E.
    by apply prefix_app.
  - exists 0. rewrite main_trace, E. apply prefix_app. by inversion Ho; simplify_eq/=.
Qed.

(** What its first rounds do is seen of the worker. *)
Lemma main_forever_shows (cfg : config) (n : nat) (s : ext) :
  observes (main_forever cfg s) (trace_of (main cfg n s)).
Proof.
  rewrite main_trace. apply observes_emit.
  destruct (next_round (main_start s)) as [s'|e]; [apply forever_complete | constructor].
Qed.

(** [main] for [n] rounds raises when its start does, or the rounds. *)
Lemma main_raises (cfg : config) (n : nat) (s : ext) (e : exn) :
  result_of (main cfg n s) = Raises e <->
  raises_after (main_iteration cfg) n (next_round (main_start s)) e.
Proof.
  unfold main, main_start, next_round, raises_after, io_bind, result_of, state_of.
  destruct (exec db_init_db s) as [[[[]|e1] s1] t1]; simpl; [|naive_solver].
  destruct (exec (print _) s1) as [[[[]|e2] s2] t2]; simpl; [|naive_solver].
  by destruct (loop_n n (main_iteration cfg) s2) as [[r3 s3] t3].
Qed.

(** The worker ends exactly as some number of its rounds end. *)
Lemma main_forever_ends (cfg : config) (s : ext) (l : list event) (e : exn) :
  ends (main_forever cfg s) l e <->
  exists n, result_of (main cfg n s) = Raises e /\ trace_of (main cfg n s) = l.
Proof.
  setoid_rewrite main_raises. setoid_rewrite main_trace. split.
  - intros (l' & -> & He)%ends_emit_inv.
    destruct (next_round (main_start s)) as [s'|e'] eqn:E; simpl.
    + apply forever_ends in He as (n & Hr & <-). by exists n.
    + exists 0. by inversion He; simplify_eq/=.
  - intros (n & Hr & <-). apply ends_emit.
    destruct (next_round (main_start s)) as [s'|e']; simpl in *.
    + apply forever_ends. by exists n.
    + by apply ends_done; subst.
Qed.

(** A property of the traces of [main cfg n], for every [n], that passes
    to prefixes, holds of all that is seen of the worker. *)
Lemma main_forever_every (P : list event -> Prop) (cfg : config) (s : ext) :
  (forall l l', l' `prefix_of` l -> P l -> P l') ->
  (forall n, P (trace_of (main cfg n s))) ->
  forall l, observes (main_forever cfg s) l -> P l.
Proof. intros Hpre Hmain l [n Hl]%main_forever_sound. eauto. Qed.


(** C7. The ledger and the provenance of the marks hold of the worker
    that never stops: in whatever is seen of [main_forever], every
    [db.mark_resolved] is paid for by an accepted POST of its own before
    it, and stands after a run of [resolve_market] that returned [True]
    for its market, for a row the round had listed and found due. *)
Theorem main_forever_safe (cfg : config) (s : ext) (l : list event) :
  observes (main_forever cfg s) l ->
  paid l /\
  forall t1 id r t2, l = t1 ++ Ev_db_mark_resolved id r :: t2 -> behind cfg t1 id.
Proof.
  intros Ho. split; revert l Ho.
  - apply (main_forever_every paid); [intros l l'; apply paid_prefix|].
    intros n. unfold main.
    closed_run paid; first [apply main_iteration_paid | by apply paid_exec].
  - apply (main_forever_every (each_mark (behind cfg)));
      [intros l l'; apply each_mark_prefix | intros n; apply main_backed].
Qed.

(** C13. The worker does not stop: while the console, the clock and the
    store answer, and no call raises anything but an [Exception],
    [main_forever] never ends, whatever the SDK and the node do and
    however many calls it has made. *)
Theorem main_forever_runs (cfg : config) (s : ext) (l : list event) (e : exn) :
  local_calls_return -> no_interrupt -> clock_finite ->
  ~ ends (main_forever cfg s) l e.
Proof.
  intros Hlocal Hgentle Hclock (n & Hr & _)%main_forever_ends.
  pose proof (main_total cfg n Hlocal Hgentle Hclock s) as Ht. by rewrite Hr in Ht.
Qed.

End Forever.
