(* ===== verification/Alike.v ===== *)
(** * Alike: the worker keeps no state of its own

    The worker holds nothing between two calls but the values the calls
    gave it: what it does next is decided by the answers it has had.  Two
    environments, or two states of one environment, that answer every call
    alike and go on doing so ([Bisimulation]) cannot be told apart by it:
    run from such states, every function of the worker returns the same
    result after the same calls with the same answers, and leaves the
    environments in states that still answer alike ([uniform]).

    For a relation on the states of one environment this is a [Proper]
    instance of each function.  The specification asks that no state leak
    from one call of the pipeline to the next: when the environment answers
    the second call as it answered the first, the second run repeats the
    first ([resolve_market_twice]). *)

From Stdlib Require Import ZArith Floats.
From stdpp Require Import base tactics strings list.
From S2P Require Import Prelude Runs Python Env Source Pipeline Loop.

#[local] Open Scope io_scope.

(** ** Definitions *)

Section Alike.
Context `{SdkTypes} (E1 E2 : Env).
Let ext1 := @ext _ E1.
Let ext2 := @ext _ E2.

(** States that are related answer every call alike, and are related
    again after it. *)
Class Bisimulation (R : ext1 -> ext2 -> Prop) : Prop :=
  bisim : forall X (c : call X) (s1 : ext1) (s2 : ext2), R s1 s2 ->
    (@handle _ E1 X c s1).1 = (@handle _ E2 X c s2).1 /\
    R (@handle _ E1 X c s1).2 (@handle _ E2 X c s2).2.

(** Two runs with the same result and the same trace, that end in related
    states. *)
Definition alike (R : ext1 -> ext2 -> Prop) {A}
    (x1 : outcome A * ext1 * list event) (x2 : outcome A * ext2 * list event) : Prop :=
  result_of x1 = result_of x2 /\ trace_of x1 = trace_of x2 /\
  R (state_of x1) (state_of x2).

(** Two programs that run alike from related states. *)
Definition uniform (R : ext1 -> ext2 -> Prop) {A}
    (m1 : io ext1 event A) (m2 : io ext2 event A) : Prop :=
  forall s1 s2, R s1 s2 -> alike R (m1 s1) (m2 s2).

End Alike.

Arguments Bisimulation {_} E1 E2 R.
Arguments bisim {_ E1 E2 R _} X c s1 s2 _.
Arguments alike {_ E1 E2} R {A} x1 x2.
Arguments uniform {_ E1 E2} R {A} m1 m2.

(** ** Theorems *)

(** *** The rules *)

Section Rules.
Context `{SdkTypes} {E1 E2 : Env}.
Context (R : @ext _ E1 -> @ext _ E2 -> Prop) `{!Bisimulation E1 E2 R}.

Lemma uniform_ret {A} (a : A) : uniform R (io_ret a) (io_ret a).
Proof. by intros s1 s2 HR. Qed.

Lemma uniform_lift {A} (r : outcome A) : uniform R (io_lift r) (io_lift r).
Proof. by intros s1 s2 HR. Qed.

(** A call is answered alike. *)
Lemma uniform_exec {X} (c : call X) : uniform R (@exec _ E1 _ c) (@exec _ E2 _ c).
Proof.
  intros s1 s2 HR. rewrite !exec_run. destruct (bisim X c s1 s2 HR) as [Hr Hs].
  unfold alike, result_of, trace_of, state_of. simpl. by rewrite Hr.
Qed.

Lemma uniform_bind {A B} (m1 : io _ _ A) (m2 : io _ _ A) (f1 : A -> io _ _ B)
    (f2 : A -> io _ _ B) :
  uniform R m1 m2 -> (forall a, uniform R (f1 a) (f2 a)) ->
  uniform R (io_bind m1 f1) (io_bind m2 f2).
Proof.
  intros Hm Hf s1 s2 HR. destruct (Hm s1 s2 HR) as (Hr & Ht & Hs).
  unfold io_bind, alike, result_of, trace_of, state_of in *.
  destruct (m1 s1) as [[r1 s1'] t1], (m2 s2) as [[r2 s2'] t2]; simplify_eq/=.
  destruct r2 as [a|e]; [|done].
  destruct (Hf a s1' s2' Hs) as (Hr' & Ht' & Hs').
  destruct (f1 a s1') as [[? ?] ?], (f2 a s2') as [[? ?] ?]; by simplify_eq/=.
Qed.

Lemma uniform_try_except {A} (m1 : io _ _ A) (m2 : io _ _ A)
    (h1 : string -> io _ _ A) (h2 : string -> io _ _ A) :
  uniform R m1 m2 -> (forall msg, uniform R (h1 msg) (h2 msg)) ->
  uniform R (io_try_except m1 h1) (io_try_except m2 h2).
Proof.
  intros Hm Hh s1 s2 HR. destruct (Hm s1 s2 HR) as (Hr & Ht & Hs).
  unfold io_try_except, alike, result_of, trace_of, state_of in *.
  destruct (m1 s1) as [[r1 s1'] t1], (m2 s2) as [[r2 s2'] t2]; simplify_eq/=.
  destruct r2 as [a|[msg|msg]]; [done| |done].
  destruct (Hh msg s1' s2' Hs) as (Hr' & Ht' & Hs').
  destruct (h1 msg s1') as [[? ?] ?], (h2 msg s2') as [[? ?] ?]; by simplify_eq/=.
Qed.

Lemma uniform_for_each {A} (xs : list A) (b1 : A -> io _ _ unit) (b2 : A -> io _ _ unit) :
  (forall x, uniform R (b1 x) (b2 x)) -> uniform R (for_each xs b1) (for_each xs b2).
Proof.
  intros Hb. induction xs as [|x xs IH]; simpl.
  - apply uniform_ret.
  - apply uniform_bind; auto.
Qed.

Lemma uniform_loop_n (n : nat) (b1 : io _ _ unit) (b2 : io _ _ unit) :
  uniform R b1 b2 -> uniform R (loop_n n b1) (loop_n n b2).
Proof.
  intros Hb. induction n as [|n IH]; simpl.
  - apply uniform_ret.
  - apply uniform_bind; auto.
Qed.

End Rules.

(** Take the two programs of a goal [uniform R m1 m2] apart together, down
    to the programs that are not unfolded. *)
Ltac uniform_walk :=
  repeat lazymatch goal with
  | |- uniform _ (io_ret _) _ => apply uniform_ret
  | |- uniform _ (io_lift _) _ => apply uniform_lift
  | |- uniform _ (exec _) _ => apply uniform_exec; try apply _
  | |- uniform _ (io_bind _ _) _ => apply uniform_bind; [|intros ?]
  | |- uniform _ (io_try_except _ _) _ => apply uniform_try_except; [|intros ?]
  | |- uniform _ (for_each _ _) _ => apply uniform_for_each; intros ?
  | |- uniform _ (loop_n _ _) _ => apply uniform_loop_n
  | |- uniform _ (match ?x with (_, _) => _ end) _ => destruct x
  | |- uniform _ (if ?b then _ else _) _ => destruct b
  | |- uniform _ (match ?x with Some _ => _ | None => _ end) _ => destruct x
  end.

(** *** The worker *)

Section Worker.
Context `{SdkTypes} {E1 E2 : Env}.
Context (R : @ext _ E1 -> @ext _ E2 -> Prop) `{!Bisimulation E1 E2 R}.

Lemma fetch_uniform :
  uniform R (@fetch_eth_staking_data _ E1) (@fetch_eth_staking_data _ E2).
Proof. unfold fetch_eth_staking_data, fetch_body, fetch_handler. uniform_walk. Qed.

Lemma resolve_market_uniform cfg (id : string) (opt : Z) :
  uniform R (@resolve_market _ E1 cfg id opt) (@resolve_market _ E2 cfg id opt).
Proof. unfold_pipeline. uniform_walk. Qed.

Lemma resolve_due_market_uniform cfg (row : market_row) :
  uniform R (@resolve_due_market _ E1 cfg row) (@resolve_due_market _ E2 cfg row).
Proof.
  unfold resolve_due_market.
  uniform_walk; first [apply fetch_uniform | apply resolve_market_uniform].
Qed.

Lemma main_iteration_uniform cfg :
  uniform R (@main_iteration _ E1 cfg) (@main_iteration _ E2 cfg).
Proof.
  unfold main_iteration, process_market. uniform_walk. apply resolve_due_market_uniform.
Qed.


End Worker.

(** *** One environment *)

Section Same.
Context `{SdkTypes} `{!Env}.
Context (R : relation ext) `{!Bisimulation _ _ R}.

(** Each function of the worker respects a relation of the states that is
    a bisimulation. *)
#[export] Instance exec_proper {X} (c : call X) : Proper (R ==> alike R) (exec c).
Proof. intros s1 s2. by apply uniform_exec. Qed.

#[export] Instance fetch_proper : Proper (R ==> alike R) fetch_eth_staking_data.
Proof. intros s1 s2. by apply fetch_uniform. Qed.

#[export] Instance resolve_market_proper cfg id opt :
  Proper (R ==> alike R) (resolve_market cfg id opt).
Proof. intros s1 s2. by apply resolve_market_uniform. Qed.

#[export] Instance main_iteration_proper cfg : Proper (R ==> alike R) (main_iteration cfg).
Proof. intros s1 s2. by apply main_iteration_uniform. Qed.

(** No state leaks from one call of the pipeline to the next: when the
    environment answers after the first call as it did before it, the
    second call repeats the first. *)
Lemma resolve_market_twice cfg (id : string) (opt : Z) (s : ext) :
  R s (state_of (resolve_market cfg id opt s)) ->
  result_of (resolve_market cfg id opt (state_of (resolve_market cfg id opt s))) =
    result_of (resolve_market cfg id opt s) /\
  trace_of (resolve_market cfg id opt (state_of (resolve_market cfg id opt s))) =
    trace_of (resolve_market cfg id opt s).
Proof.
  intros HR. destruct (resolve_market_proper cfg id opt _ _ HR) as (Hr & Ht & _).
  by rewrite Hr, Ht.
Qed.

End Same.
