(* ===== verification/Worker.v ===== *)
(** * Worker: the module, from its first line to its last

    What runs when [worker.py] is run (lines 1-12 and 160-161): the six
    modules are imported, the [.env] file beside the module is loaded, the two settings are read from the
    environment into the globals [ORACLE_PRIVATE_KEY] and [ALEO_NODE_URL],
    and [main] is called when the module is the program.  The globals are
    assigned once and never again, so the configuration [resolve_market]
    reads is the one read here.

    [worker] bounds the rounds of [main]; [program] is the module run as
    the program with the [main] that does not return, and shows what
    [worker] shows for some number of rounds. *)

From Stdlib Require Import ZArith Floats.
From ITree Require Import ITree.
From stdpp Require Import base tactics strings list.
From S2P Require Import Prelude Runs Python Env Store Ledger Pipeline Loop Calls Settlement Forever.

#[local] Open Scope io_scope.

Section Worker.
Context `{SdkTypes} `{!Env}.
Local Abbreviation io := (io ext event).

(** ** Definitions *)

(** Lines 1-6: the imports, in the order of the source.  An import runs the
    module imported, and raises when it is not found. *)
Definition imports : io unit :=
  exec (import_module "time") ;;
  exec (import_module "os") ;;
  exec (import_module "aleo") ;;
  exec (import_module "requests") ;;
  exec (import_module "dotenv") ;;
  exec (import_module "db").

(** Lines 9-12: [load_dotenv(dotenv_path=os.path.join(os.path.dirname(
    __file__), ".env"))], then the two [os.getenv]. *)
Definition load_config (file : string) : io config :=
  dir <- exec (os_path_dirname file) ;;
  dotenv_path <- exec (os_path_join dir ".env") ;;
  exec (load_dotenv dotenv_path) ;;
  key <- exec (os_getenv "ORACLE_PRIVATE_KEY") ;;
  url <- exec (os_getenv "ALEO_NODE_URL") ;;
  io_ret {| ORACLE_PRIVATE_KEY := key; ALEO_NODE_URL := url |}.

(** Lines 1-12: what runs before the functions are defined. *)
Definition startup (file : string) : io config :=
  imports ;; load_config file.

(** The module, loaded as [file] under the name [name]: the start-up, and
    lines 160-161.  [n] bounds the rounds of [main]. *)
Definition worker (file name : string) (n : nat) : io unit :=
  cfg <- startup file ;;
  if bool_decide (name = "__main__") then main cfg n else io_ret tt.

(** How the start-up ended, for what comes after it: with the settings
    and a state to go on from, or with the exception that ends the
    module. *)
Definition started (x : outcome config * ext * list event) : config * ext + exn :=
  match result_of x with
  | Returns cfg => inl (cfg, state_of x)
  | Raises e => inr e
  end.

(** The module run as the program, as it is written: the start-up, and
    lines 160-161 with the [main] whose loop does not end. *)
Definition program (file : string) (s : ext) : itree obsE exn :=
  ITree.bind (emit_then (trace_of (startup file s)) (Ret (started (startup file s))))
    (fun x => match x with
              | inl (cfg, s') => main_forever cfg s'
              | inr e => Ret e
              end).

(** The event is one of the start-up. *)
Definition is_startup (e : event) : bool :=
  match e with
  | Ev_import_module _ _ | Ev_os_path_dirname _ _ | Ev_os_path_join _ _ _
  | Ev_load_dotenv _ _ | Ev_os_getenv _ _ => true
  | _ => false
  end.

(** ** Theorems *)

(** What every call keeps, the module keeps. *)
Lemma worker_runs (R : ext -> list event -> ext -> Prop) `{!RunClosed R}
    (file name : string) (n : nat) :
  (forall X (c : call X), runs R (exec c)) -> runs R (worker file name n).
Proof.
  intros Hexec. unfold worker, startup, imports, load_config.
  runs_walk; first [apply Hexec | by apply main_runs].
Qed.

(** The start-up marks nothing and posts nothing. *)
Lemma startup_only (file : string) :
  traces (fun t => forallb is_startup t = true) (startup file).
Proof. unfold startup, imports, load_config. runs_walk; by apply traces_exec. Qed.

(** C30. When the start-up returns a configuration, it made five calls:
    the directory of the module, the path of [.env] in it, [load_dotenv] of
    that path, and one [os.getenv] for each setting, whose answers are the
    two settings of the configuration, unset ones included. *)
Theorem load_config_reads (file : string) (s : ext) (cfg : config) :
  result_of (load_config file s) = Returns cfg ->
  exists dir dotenv_path loaded,
    trace_of (load_config file s) =
      [Ev_os_path_dirname file (Returns dir);
       Ev_os_path_join dir ".env" (Returns dotenv_path);
       Ev_load_dotenv dotenv_path (Returns loaded);
       Ev_os_getenv "ORACLE_PRIVATE_KEY" (Returns (ORACLE_PRIVATE_KEY cfg));
       Ev_os_getenv "ALEO_NODE_URL" (Returns (ALEO_NODE_URL cfg))].
Proof. unfold load_config. exec_crush. intros [= <-]. by eexists _, _, _. Qed.

(** The trace of the module is the start-up, then the trace of [main] on
    the configuration read when the module is the program. *)
Lemma worker_main (file name : string) (n : nat) (s : ext) (cfg : config) :
  result_of (startup file s) = Returns cfg ->
  trace_of (worker file name n s) =
    trace_of (startup file s) ++
    (if bool_decide (name = "__main__")
     then trace_of (main cfg n (state_of (startup file s))) else []).
Proof.
  intros Hr. unfold worker.
  destruct (io_bind_returns (startup file)
    (fun cfg => if bool_decide (name = "__main__") then main cfg n else io_ret tt)
    s cfg Hr) as (_ & _ & ->).
  by case_bool_decide.
Qed.

(** A start-up that fails ends the module before [main]. *)
Lemma worker_startup_fails (file name : string) (n : nat) (s : ext) (e : exn) :
  result_of (startup file s) = Raises e ->
  result_of (worker file name n s) = Raises e /\
  forallb is_startup (trace_of (worker file name n s)) = true.
Proof.
  intros Hr. unfold worker.
  destruct (io_bind_raises (startup file)
    (fun cfg => if bool_decide (name = "__main__") then main cfg n else io_ret tt)
    s e Hr) as (-> & _ & ->).
  split; [done|]. apply startup_only.
Qed.

(** The trace of the module run as the program, by how its start-up
    ended. *)
Lemma worker_trace (file : string) (n : nat) (s : ext) :
  trace_of (worker file "__main__" n s) =
  trace_of (startup file s) ++
  match started (startup file s) with
  | inl (cfg, s') => trace_of (main cfg n s')
  | inr _ => []
  end.
Proof.
  unfold started. destruct (result_of (startup file s)) as [cfg|e] eqn:E.
  - by rewrite (worker_main file "__main__" n s cfg E).
  - unfold worker.
    destruct (io_bind_raises (startup file)
      (fun cfg => if bool_decide ("__main__" = "__main__") then main cfg n else io_ret tt)
      s e E) as (_ & _ & ->).
    by rewrite app_nil_r.
Qed.

(** The program shows what the module shows when the rounds of [main] are
    bounded, for some bound: a list of calls is seen of [program] exactly
    when it begins the trace of [worker] for some number of rounds. *)
Lemma program_observes (file : string) (s : ext) (l : list event) :
  observes (program file s) l <->
  exists n, l `prefix_of` trace_of (worker file "__main__" n s).
Proof.
  setoid_rewrite worker_trace. split.
  - intros [Hl|(l' & -> & Ho)]%observes_emit_inv.
    { exists 0. by apply prefix_app_r. }
    destruct (started (startup file s)) as [[cfg s']|e].
    + apply main_forever_sound in Ho as [n Hl]. exists n. by apply prefix_app.
    + exists 0. apply prefix_app. by inversion Ho; simplify_eq/=.
  - intros [n Hl]. eapply observes_prefix; [|done]. apply observes_emit.
    destruct (started (startup file s)) as [[cfg s']|e]; [|constructor].
    apply main_forever_shows.
Qed.

(** The ledger of the whole module is balanced. *)
Lemma worker_paid (file name : string) (n : nat) (s : ext) :
  paid (trace_of (worker file name n s)).
Proof.
  unfold worker, startup, imports, load_config.
  closed_run paid; try (by apply paid_exec).
  case_bool_decide; [|by eexists].
  unfold main. closed_run paid; first [apply main_iteration_paid | by apply paid_exec].
Qed.

(** The ledger of the program that does not stop is balanced, in whatever
    is seen of it. *)
Lemma program_paid (file : string) (s : ext) (l : list event) :
  observes (program file s) l -> paid l.
Proof.
  intros [n Hl]%program_observes. eapply paid_prefix; [done|]. apply worker_paid.
Qed.

End Worker.
