(* ===== verification/Scenarios.v ===== *)
(** * Scenarios: the worker run in the reference environment

    The theorems of the development applied to concrete worlds, and the
    scenarios of the specification evaluated: a market that is due and is
    resolved, a node that refuses, a measurement that is absent, a deadline
    in the future; and three runs in which the worker does what its
    specification excludes. *)

From Stdlib Require Import ZArith Floats Lia.
From stdpp Require Import base tactics strings pretty list.
From S2P Require Import Prelude Text Runs Python Env Store Reference Source Protocol Pipeline.
From S2P Require Import Refinement Outcomes Loop.

(** ** The worlds *)

Definition demo_cfg : config :=
  {| ORACLE_PRIVATE_KEY := Some "APrivateKey1zkp"; ALEO_NODE_URL := Some "https://node" |}.

Definition no_key_cfg : config :=
  {| ORACLE_PRIVATE_KEY := None; ALEO_NODE_URL := Some "https://node" |}.

(** The market of the scenarios: due at 1000, threshold 30.0. *)
Definition market_1 : market_row :=
  {| market_id := "1field"; deadline := 1000; threshold := 30;
     metric_type := "eth_staking_rate" |}.

(** A market that is not due before 5000. *)
Definition market_2 : market_row :=
  {| market_id := "2field"; deadline := 5000; threshold := 30;
     metric_type := "eth_staking_rate" |}.

Definition demo_store : store :=
  [ {| row := market_1; resolved := false |}; {| row := market_2; resolved := false |} ].

(** The clock reads 1001: [market_1] has been due for a second. *)
Definition demo_world : world := start demo_store 1001.

(** [resolve_market] and [main] in the reference environment of a script. *)
Definition run_resolve (sc : script) (cfg : config) :=
  @resolve_market text_sdk (reference sc) cfg "1field" 2 demo_world.

Definition run_main (sc : script) (n : nat) :=
  @main text_sdk (reference sc) demo_cfg n demo_world.

(** What a run of [main] left behind: its result, the ids still pending,
    the transactions the node accepted, and the POSTs sent. *)
Definition summary (x : outcome unit * world * list event)
    : outcome unit * list string * nat * nat :=
  (result_of x, pending_ids (w_store (state_of x)),
   length (w_node (state_of x)), count_ev is_post (trace_of x)).

(** The event parses [v] as an input of the program. *)
Definition is_input (v : string) (e : event) : bool :=
  match e with Ev_Value_from_string s _ => bool_decide (s = v) | _ => false end.

(** The successful run of the pipeline, evaluated once. *)
Definition demo_trace : list event :=
  Eval vm_compute in trace_of (run_resolve cooperative demo_cfg).

Definition demo_body : string :=
  Eval vm_compute in
    match demo_trace !! 30 with Some (Ev_requests_post _ b _) => b | _ => "" end.

(** The run in which call 10 of the pipeline raises. *)
Definition failed_trace : list event :=
  Eval vm_compute in
    trace_of (run_resolve (failing_at 10 (Exception "boom")) demo_cfg).

(** ** The reference environment is as its scripts say *)

Lemma reference_always_returns (status : Z) :
  @always_returns text_sdk (reference (answering status)).
Proof.
  intros X c s. simpl. unfold reference_handle.
  replace (refusal (answering status) c s) with (@None exn) by (by destruct c).
  by destruct (answer (answering status) c s).
Qed.

Lemma reference_node_accepts : @node_accepts text_sdk (reference (answering 200)).
Proof.
  intros url data s resp. simpl. unfold reference_handle, refusal. simpl.
  by intros [= <-].
Qed.

Lemma reference_node_rejects : @node_rejects text_sdk (reference (answering 503)).
Proof.
  intros url data s resp. simpl. unfold reference_handle, refusal. simpl.
  by intros [= <-].
Qed.

(** ** The theorems, applied *)

Lemma resolve_market_post_provenance_witness :
  (exists p e id fee tx,
     Ev_Execution_execution_id e (Returns id) ∈ take 30 demo_trace /\
     Ev_Process_verify_execution p e (Returns tt) ∈ take 30 demo_trace /\
     Ev_Process_verify_fee p fee id (Returns tt) ∈ take 30 demo_trace /\
     Ev_Transaction_from_execution e fee (Returns tx) ∈ take 30 demo_trace /\
     Ev_Transaction_to_json tx (Returns demo_body) ∈ take 30 demo_trace) /\
  forallb is_print (drop 31 demo_trace) = true.
Proof.
  eapply (resolve_market_post_provenance (H0 := reference cooperative) demo_cfg
            "1field" 2 demo_world (take 30 demo_trace)
            "https://node/testnet3/transaction/broadcast" demo_body
            (Returns {| status_code := 200; text := " at1accepted " |})
            (drop 31 demo_trace)).
  vm_compute. reflexivity.
Defined.

Lemma resolve_market_true_accepted_witness :
  count_ev is_accepted_post (trace_of (run_resolve cooperative demo_cfg)) = 1.
Proof. apply resolve_market_true_accepted. vm_compute. reflexivity. Defined.

Lemma resolve_market_true_trace_witness :
  exists key url pk q p src prog fname v1 v2 pid1 auth rt pid2 loc ex id fauth
         frt fee tx idtext json resp,
    ORACLE_PRIVATE_KEY demo_cfg = Some key /\ ALEO_NODE_URL demo_cfg = Some url /\
    status_code resp = 200%Z /\
    trace_of (run_resolve cooperative demo_cfg) =
    [ Ev_PrivateKey_from_string key (Returns pk);
      Ev_Query_rest url (Returns q);
      Ev_Process_load (Returns p);
      Ev_print "📡 Fetching program prediction.aleo from the network..." (Returns tt);
      Ev_Query_get_program q "prediction.aleo" (Returns src);
      Ev_Program_from_string src (Returns prog);
      Ev_Process_add_program p prog (Returns tt);
      Ev_print ("🚀 Authorizing resolution for market " +:+ "1field" +:+
                " with option " +:+ pretty 2%Z +:+ "...") (Returns tt);
      Ev_Identifier_from_string "resolve_pool" (Returns fname);
      Ev_Value_from_string "1field" (Returns v1);
      Ev_Value_from_string (pretty 2%Z +:+ "u64") (Returns v2);
      Ev_Program_id prog (Returns pid1);
      Ev_Process_authorize p pk pid1 fname [v1; v2] (Returns auth);
      Ev_print "🔧 Generating zero-knowledge proof..." (Returns tt);
      Ev_Process_execute p auth (Returns rt);
      Ev_Trace_prepare rt.2 q (Returns tt);
      Ev_Program_id prog (Returns pid2);
      Ev_Locator_new pid2 fname (Returns loc);
      Ev_Trace_prove_execution rt.2 loc (Returns ex);
      Ev_Execution_execution_id ex (Returns id);
      Ev_Process_verify_execution p ex (Returns tt);
      Ev_Process_authorize_fee_public p pk 100000 id None (Returns fauth);
      Ev_Process_execute p fauth (Returns frt);
      Ev_Trace_prepare frt.2 q (Returns tt);
      Ev_Trace_prove_fee frt.2 (Returns fee);
      Ev_Process_verify_fee p fee id (Returns tt);
      Ev_Transaction_from_execution ex fee (Returns tx);
      Ev_Field_str id (Returns idtext);
      Ev_print ("📡 Broadcasting transaction " +:+ idtext +:+ "...") (Returns tt);
      Ev_Transaction_to_json tx (Returns json);
      Ev_requests_post (url +:+ "/testnet3/transaction/broadcast") json (Returns resp);
      Ev_print ("✅ Transaction Broadcasted! ID: " +:+ strip (text resp)) (Returns tt) ].
Proof.
  apply (resolve_market_true_trace (H0 := reference cooperative) demo_cfg "1field" 2
           demo_world).
  vm_compute. reflexivity.
Defined.

Lemma resolve_market_fail_stop_witness :
  forallb is_print (drop 11 failed_trace) = true.
Proof.
  eapply (resolve_market_fail_stop (H0 := reference (failing_at 10 (Exception "boom")))
            demo_cfg "1field" 2 demo_world (take 10 failed_trace)
            (Ev_Value_from_string "2u64" (Raises (Exception "boom")))
            (drop 11 failed_trace)).
  - vm_compute. reflexivity.
  - reflexivity.
Defined.

Lemma resolve_market_raises_only_witness :
  caught (BaseException "KeyboardInterrupt") = false \/
  ends_in_failed_print (BaseException "KeyboardInterrupt")
    (trace_of (run_resolve (failing_at 10 (BaseException "KeyboardInterrupt")) demo_cfg)).
Proof. apply resolve_market_raises_only. vm_compute. reflexivity. Defined.

Lemma resolve_market_succeeds_witness :
  result_of (run_resolve (answering 200) demo_cfg) = Returns true /\
  count_ev is_accepted_post (trace_of (run_resolve (answering 200) demo_cfg)) = 1.
Proof.
  apply resolve_market_succeeds.
  - apply reference_always_returns.
  - apply reference_node_accepts.
  - reflexivity.
Defined.

Lemma resolve_market_rejected_witness :
  result_of (run_resolve (answering 503) demo_cfg) = Returns false /\
  count_ev is_post (trace_of (run_resolve (answering 503) demo_cfg)) = 1.
Proof.
  apply resolve_market_rejected.
  - apply reference_always_returns.
  - apply reference_node_rejects.
  - reflexivity.
Defined.

Lemma resolve_market_missing_credentials_witness :
  exists r,
    trace_of (run_resolve cooperative no_key_cfg) =
      [Ev_print "❌ Missing Oracle credentials in .env." r] /\
    result_of (run_resolve cooperative no_key_cfg) = outcome_map (fun _ => false) r.
Proof. apply resolve_market_missing_credentials. reflexivity. Defined.

Lemma resolve_due_market_settles_witness :
  result_of (@resolve_due_market text_sdk (reference (answering 200)) demo_cfg
               market_1 demo_world) = Returns tt /\
  count_ev (is_mark_resolved_of "1field")
    (trace_of (@resolve_due_market text_sdk (reference (answering 200)) demo_cfg
                 market_1 demo_world)) = 1.
Proof.
  apply (resolve_due_market_settles (H0 := reference (answering 200)) demo_cfg market_1).
  - apply reference_always_returns.
  - apply reference_node_accepts.
  - reflexivity.
Defined.

Lemma fetch_returns_snapshot_witness :
  @fetch_eth_staking_data text_sdk (reference cooperative) demo_world =
  (Returns (Some snapshot),
   tick (with_line "📊 Snapshot Value: 28.75%"
     (tick (with_line "📸 Taking snapshot of ETH staking data..." demo_world))),
   [Ev_print "📸 Taking snapshot of ETH staking data..." (Returns tt);
    Ev_print "📊 Snapshot Value: 28.75%" (Returns tt)]).
Proof.
  apply (fetch_returns_snapshot (H0 := reference cooperative) demo_world
           (tick (with_line "📸 Taking snapshot of ETH staking data..." demo_world)));
    reflexivity.
Defined.

Lemma fetch_none_only_if_print_raised_witness :
  existsb (fun e => is_print e && ev_raised e)
    (trace_of (@fetch_eth_staking_data text_sdk
                 (reference (failing_at 0 (Exception "closed"))) demo_world)) = true.
Proof. apply fetch_none_only_if_print_raised. vm_compute. reflexivity. Defined.

(** ** The scenarios of the specification *)

(** Scenario A: the market is due, the measurement is below the threshold
    30.0: the pipeline is run on ("1field", 2), the node accepts, the
    market is resolved; the market that is not due stays pending. *)
Example scenario_due_market_resolved_no :
  summary (run_main cooperative 1) = (Returns tt, ["2field"], 1, 1) /\
  count_ev (is_input "1field") (trace_of (run_main cooperative 1)) = 1 /\
  count_ev (is_input "2u64") (trace_of (run_main cooperative 1)) = 1 /\
  count_ev (is_input "1u64") (trace_of (run_main cooperative 1)) = 0.
Proof. by vm_compute. Qed.

(** Scenario B: a reading of 33.0 against the threshold 30.0 is option 1. *)
Example scenario_reading_above_threshold : decide_winning_option 33 30 = 1%Z.
Proof. reflexivity. Qed.

(** Scenario C: the measurement is absent: no call of the pipeline is made
    and the market stays pending. *)
Example scenario_source_absent :
  summary (run_main (failing_at 5 (Exception "closed")) 1) =
    (Returns tt, ["1field"; "2field"], 0, 0) /\
  count_ev (fun e => negb (is_print e || is_foreign e))
    (trace_of (run_main (failing_at 5 (Exception "closed")) 1)) = 0.
Proof. by vm_compute. Qed.

(** Scenario D: the node answers 503: the market stays pending, and the
    next round fetches, decides and posts again. *)
Example scenario_broadcast_refused :
  summary (run_main (answering 503) 1) = (Returns tt, ["1field"; "2field"], 0, 1) /\
  summary (run_main (answering 503) 2) = (Returns tt, ["1field"; "2field"], 0, 2).
Proof. by vm_compute. Qed.

(** Scenario E: a market whose deadline is in the future is left alone. *)
Example scenario_deadline_in_future :
  count_ev (fun e => is_input "2field" e || is_mark_resolved_of "2field" e)
    (trace_of (run_main cooperative 3)) = 0.
Proof. by vm_compute. Qed.

(** ** Runs the specification excludes *)



(** An interrupt goes through [except Exception]: the worker ends, with
    nothing posted and nothing marked. *)
Example interrupt_ends_worker :
  summary (run_main (failing_at 20 (BaseException "KeyboardInterrupt")) 1) =
    (Raises (BaseException "KeyboardInterrupt"), ["1field"; "2field"], 0, 0).
Proof. by vm_compute. Qed.
