(* ===== verification/Cases.v ===== *)
(** * Cases: the store, the start-up and the rounds, in concrete worlds

    The reference environment keeps the contract of the store and shows a
    finite time, whatever its script; the theorems of [Settlement], [Calls]
    and [Worker] are applied to it.  Then the runs that show where their
    hypotheses are needed: a store in which an id is not a key, a node that
    cannot be reached, the longest run of the pipeline, and the module
    started with its settings in the [.env] file, in the environment, or
    nowhere.  Two worlds that differ in what the worker never reads are
    related by a bisimulation ([same_answers]); failures at two stages
    print one diagnostic; a market is handled after the pipeline failed
    for the one before it. *)

From Stdlib Require Import ZArith Floats Lia.
From stdpp Require Import base tactics strings pretty list.
From S2P Require Import Prelude Runs Python Env Store Reference Ledger Source Protocol Pipeline Monitor Errors.
From S2P Require Import Outcomes Loop Calls Settlement Provenance Isolation Forever Alike Worker Scenarios.

(** ** The worlds *)

(** A store in which the id is not a key: two pending rows are market
    [1field]. *)
Definition twin_store : store :=
  [ {| row := market_1; resolved := false |}; {| row := market_1; resolved := false |} ].

Definition twin_world : world := start twin_store 1001.

(** The node cannot be reached. *)
Definition offline : script := unreachable (Exception "connection refused").

(** The module file, and the settings as the [.env] file beside it gives
    them. *)
Definition worker_file : string := "/srv/oracle/worker.py".

Definition dotenv_file : list (string * string) :=
  [("ORACLE_PRIVATE_KEY", "APrivateKey1zkp"); ("ALEO_NODE_URL", "https://node")].

(** A world whose [.env] file holds the settings. *)
Definition dotenv_world : world := with_dotenv dotenv_file demo_world.

(** A world whose environment already sets the node, to another value. *)
Definition environ_world : world :=
  with_environ [("ALEO_NODE_URL", "https://other")] dotenv_world.

(** The module in the reference environment. *)
Definition run_worker (sc : script) (name : string) (n : nat) (w : world) :=
  @worker text_sdk (reference sc) worker_file name n w.

Definition run_load_config (w : world) :=
  @load_config text_sdk (reference cooperative) worker_file w.

(** One round in the reference environment. *)
Definition run_round (sc : script) :=
  @main_iteration text_sdk (reference sc) demo_cfg demo_world.

(** The values of the reference SDK are texts, which can be compared. *)
#[export] Instance text_sdk_eq : SdkEq (H := text_sdk).
Proof. split; simpl; apply _. Defined.

(** The event is the verification of the execution. *)
Definition is_verify_execution (e : @event text_sdk) : bool :=
  match e with Ev_Process_verify_execution _ _ _ => true | _ => false end.

(** Two worlds that answer alike: the same pending rows, clock, count of
    calls and variables.  What was printed, what the node accepted and the
    rows already resolved may differ. *)
Definition same_answers (w1 w2 : world) : Prop :=
  get_pending_markets (w_store w1) = get_pending_markets (w_store w2) /\
  w_clock w1 = w_clock w2 /\ w_calls w1 = w_calls w2 /\
  w_environ w1 = w_environ w2 /\ w_dotenv w1 = w_dotenv w2.

(** The world of the scenarios after another life: a console and a node
    that have seen lines, and a store that holds a market resolved long
    ago. *)
Definition used_world : world :=
  {| w_store := {| row := market_1; resolved := true |} :: demo_store;
     w_clock := w_clock demo_world; w_calls := 0;
     w_stdout := ["Oracle worker starting..."]; w_node := ["tx[old]"];
     w_environ := []; w_dotenv := [] |}.

(** ** The reference environment keeps its promises *)

Lemma demo_store_wf : wf_store demo_store.
Proof. unfold wf_store. simpl. apply NoDup_cons.
  split; [by intros ?%list_elem_of_singleton | apply NoDup_singleton].
Qed.

Lemma finite_or_zero_int (x : float) : returned (int_of_float (finite_or_zero x)) = true.
Proof.
  unfold finite_or_zero.
  destruct (Prim2SF x) eqn:E; try done; unfold int_of_float; by rewrite E.
Qed.

Lemma reference_clock_finite (sc : script) : @clock_finite text_sdk (reference sc).
Proof.
  intros s now. simpl. unfold reference_handle.
  destruct (refusal sc time_time s); [done|]. simpl. intros [= <-].
  apply finite_or_zero_int.
Qed.

(** The console, the clock and the store of a script without faults
    answer, whatever its node does. *)
Lemma reference_local_calls_return (sc : script) :
  (forall k, fault sc k = None) -> @local_calls_return text_sdk (reference sc).
Proof.
  intros Hsc X c s Hc. simpl. unfold reference_handle.
  replace (refusal sc c s) with (@None exn)
    by (unfold refusal; rewrite Hsc; by destruct c).
  by destruct (answer sc c s).
Qed.

Lemma reference_no_interrupt (msg : string) :
  @no_interrupt text_sdk (reference (unreachable (Exception msg))).
Proof.
  intros X c s e. simpl. unfold reference_handle.
  destruct (refusal (unreachable (Exception msg)) c s) as [e'|] eqn:E.
  - intros [= <-]. unfold refusal in E. destruct c; simpl in E; by simplify_eq.
  - by destruct (answer _ c s).
Qed.

(** The relation is an equivalence, and the reference environment
    answers related worlds alike, whatever its script. *)
#[export] Instance same_answers_equiv : Equivalence same_answers.
Proof.
  unfold same_answers. split; [by intros ? | intros ? ? (?&?&?&?&?); by split_and! |].
  intros w1 w2 w3 (?&?&?&?&?) (?&?&?&?&?). split_and!; by etrans.
Qed.

Lemma same_answers_tick (w1 w2 : world) :
  same_answers w1 w2 -> same_answers (tick w1) (tick w2).
Proof. unfold same_answers. simpl. intros (?&?&?&?&?). split_and!; congruence. Qed.

Lemma answer_same (sc : script) X (c : call X) (w1 w2 : world) :
  same_answers w1 w2 ->
  (answer sc c w1).1 = (answer sc c w2).1 /\
  same_answers (answer sc c w1).2 (answer sc c w2).2.
Proof.
  intros (Hp & Hc & Hn & He & Hd). unfold same_answers.
  destruct c; simpl; rewrite ?get_pending_mark_resolved, ?Hp, ?Hc, ?He, ?Hd; try done.
  - by case_bool_decide.
  - by destruct (float_of_int seconds); simpl; rewrite ?Hc.
Qed.

#[export] Instance reference_bisimulation (sc : script) :
  Bisimulation (reference sc) (reference sc) same_answers.
Proof.
  intros X c w1 w2 HR. simpl. unfold reference_handle, refusal.
  destruct (answer_same sc X c w1 w2 HR) as [Ha Hw].
  replace (w_calls w2) with (w_calls w1) by apply HR.
  destruct (answer sc c w1) as [x1 w1'], (answer sc c w2) as [x2 w2']. simpl in *.
  subst x2. repeat case_match; simpl; auto using same_answers_tick.
Qed.

(** ** The theorems, applied *)

Lemma main_marks_once_witness :
  count_ev (is_marked_of "1field") (trace_of (run_main cooperative 3)) <= 1.
Proof.
  apply (main_marks_once (H1 := reference_store_laws cooperative)).
  apply demo_store_wf.
Defined.



Lemma settled_not_listed_witness :
  [market_2] = List.filter (other_than "1field") (get_pending_markets demo_store) /\
  "1field" ∉ map market_id [market_2].
Proof.
  apply (settled_not_listed (H1 := reference_store_laws (answering 200))
           demo_cfg market_1 demo_world [market_2]).
  - apply reference_always_returns.
  - apply reference_node_accepts.
  - reflexivity.
  - vm_compute. reflexivity.
Defined.

Lemma main_survives_witness :
  result_of (run_main offline 2) = Returns tt.
Proof.
  apply main_survives.
  - by apply reference_local_calls_return.
  - apply reference_no_interrupt.
  - apply reference_clock_finite.
Defined.

Lemma main_settles_what_it_posts_witness :
  count_ev is_accepted_post (trace_of (run_main cooperative 3)) =
  count_ev is_marked (trace_of (run_main cooperative 3)).
Proof. apply main_settles_what_it_posts. by apply reference_local_calls_return. Defined.

Lemma main_marks_backed_witness :
  exists tr tp l ct row,
    firstn 39 (trace_of (run_main cooperative 1)) = tr ++ tp /\ last_read l ct tr /\
    row ∈ l /\ market_id row = "1field" /\ (deadline row <= ct)%Z /\
    @resolved_as text_sdk (reference cooperative) demo_cfg "1field"
      (decide_winning_option snapshot (threshold row)) tp.
Proof.
  apply (main_marks_backed (H0 := reference cooperative) demo_cfg 1 demo_world _
           (skipn 40 (trace_of (run_main cooperative 1))) "1field" (Returns tt)).
  by vm_compute.
Defined.

Lemma main_forever_safe_witness :
  paid (trace_of (run_main cooperative 1)) /\
  forall t1 id r t2,
    trace_of (run_main cooperative 1) = t1 ++ Ev_db_mark_resolved id r :: t2 ->
    @behind text_sdk (reference cooperative) demo_cfg t1 id.
Proof.
  apply (main_forever_safe (H0 := reference cooperative) demo_cfg demo_world).
  apply main_forever_shows.
Defined.

Lemma main_forever_runs_witness :
  ~ ends (@main_forever text_sdk (reference offline) demo_cfg demo_world) []
      (Exception "connection refused").
Proof.
  apply main_forever_runs.
  - by apply reference_local_calls_return.
  - apply reference_no_interrupt.
  - apply reference_clock_finite.
Defined.


Lemma for_each_handles_every_due_market_witness :
  trace_of (@for_each world _ _ [market_1; market_2]
              (@process_market text_sdk (reference offline) demo_cfg 6000) demo_world) =
    concat (trace_of <$> @handlings text_sdk (reference offline) demo_cfg 6000
                           [market_1; market_2] demo_world) /\
  Forall2 (fun row r => result_of r = Returns tt /\
                        marks_within [market_id row] (trace_of r) = true)
    (due_rows 6000 [market_1; market_2])
    (@handlings text_sdk (reference offline) demo_cfg 6000 [market_1; market_2] demo_world).
Proof.
  apply (for_each_handles_every_due_market (H0 := reference offline)).
  - by apply reference_local_calls_return.
  - apply reference_no_interrupt.
Defined.

Lemma resolve_market_reports_failure_witness :
  exists t e line,
    trace_of (run_resolve (failing_at 10 (Exception "boom")) demo_cfg) =
      t ++ [e; Ev_print line (Returns tt)] /\
    count_ev ev_raised t = 0 /\ failed e = true /\ diagnostic e = Some line /\
    (first_failure t = None \/ is_print e = true).
Proof.
  apply (resolve_market_reports_failure (H0 := reference (failing_at 10 (Exception "boom")))).
  - reflexivity.
  - by vm_compute.
Defined.

Lemma load_config_reads_witness :
  exists dir dotenv_path loaded,
    trace_of (run_load_config dotenv_world) =
      [Ev_os_path_dirname worker_file (Returns dir);
       Ev_os_path_join dir ".env" (Returns dotenv_path);
       Ev_load_dotenv dotenv_path (Returns loaded);
       Ev_os_getenv "ORACLE_PRIVATE_KEY" (Returns (ORACLE_PRIVATE_KEY demo_cfg));
       Ev_os_getenv "ALEO_NODE_URL" (Returns (ALEO_NODE_URL demo_cfg))].
Proof. apply load_config_reads. vm_compute. reflexivity. Defined.

(** ** The runs *)

(** An id that is not a key: the round reads both rows of market
    [1field] before it marks the first, gets a transaction accepted for
    each, and marks the market twice.  The worker does not check that the
    ids it is given are distinct. *)
Example twin_rows_resolved_twice :
  let run := @main text_sdk (reference cooperative) demo_cfg 1 twin_world in
  count_ev (is_marked_of "1field") (trace_of run) = 2 /\
  length (w_node (state_of run)) = 2 /\
  ~ wf_store twin_store.
Proof.
  split_and!; [by vm_compute..|]. unfold wf_store. simpl.
  rewrite NoDup_cons. intros [Hin _]. apply Hin. by left.
Qed.

(** The node cannot be reached: [requests.post] raises, the [except] clause
    returns [False], nothing is marked, and the next round tries again. *)
Example node_unreachable_retries :
  summary (run_main offline 1) = (Returns tt, ["1field"; "2field"], 0, 1) /\
  summary (run_main offline 2) = (Returns tt, ["1field"; "2field"], 0, 2).
Proof. by vm_compute. Qed.

(** Three rounds with a node that accepts: one transaction, one mark. *)
Example one_accepted_one_marked :
  count_ev is_accepted_post (trace_of (run_main cooperative 3)) = 1 /\
  count_ev is_marked (trace_of (run_main cooperative 3)) = 1.
Proof. by vm_compute. Qed.

(** The protocol machine, evaluated: it reads the trace of a run to the
    broadcast the node accepted; it refuses the same trace without the
    verification of the execution, and the same trace with its POST sent a
    second time. *)
Example monitor_checks_traces :
  let t := trace_of (run_resolve cooperative demo_cfg) in
  steps_fun Init t =
    Some (Broadcast (Returns {| status_code := 200; text := " at1accepted " |})) /\
  accepts (List.filter (fun e => negb (is_verify_execution e)) t) = false /\
  accepts (t ++ List.filter is_post t) = false.
Proof. by vm_compute. Qed.

(** Two markets are due and the node cannot be reached: the pipeline
    fails for the first, and the second is handled all the same, in the
    same round. *)
Example failed_market_does_not_stop_next :
  let rs := @handlings text_sdk (reference offline) demo_cfg 6000
              [market_1; market_2] demo_world in
  result_of <$> rs = [Returns tt; Returns tt] /\
  (count_ev is_post ∘ trace_of) <$> rs = [1; 1] /\
  (count_ev is_mark_resolved ∘ trace_of) <$> rs = [0; 0].
Proof. by vm_compute. Qed.

(** What is reported of a failure: the program cannot be fetched for
    market [1field], the execution fails for market [2field]; the
    specification calls the first a protocol error and the second a proof
    error; [resolve_market] returns [False] for both after printing the
    same line, which names neither the market nor the stage. *)
Example diagnostic_names_neither_market_nor_stage :
  let timeout := Exception "timeout" in
  let run1 := @resolve_market text_sdk (reference (failing_at 4 timeout)) demo_cfg
                "1field" 2 demo_world in
  let run2 := @resolve_market text_sdk (reference (failing_at 14 timeout)) demo_cfg
                "2field" 1 demo_world in
  first_failure (trace_of run1) ≫= error_of = Some ProtocolError /\
  first_failure (trace_of run2) ≫= error_of = Some ProofError /\
  result_of run1 = Returns false /\ result_of run2 = Returns false /\
  last (trace_of run1) = last (trace_of run2) /\
  last (trace_of run1) =
    Some (Ev_print "❌ SDK Error during resolution: timeout" (Returns tt)).
Proof. by vm_compute. Qed.

(** A refusal of the node that cannot be printed is reported as an error
    of the SDK: the node answers 503, the print of the refusal raises, and
    the [except] clause prints the message of the print. *)
Example refusal_reported_as_sdk_error :
  let sc := {| fault := fun n => if bool_decide (n = 31) then Some (Exception "encoding")
                                 else None;
               post_status := 503; node_down := None |} in
  let run := run_resolve sc demo_cfg in
  result_of run = Returns false /\
  first_failure (trace_of run) ≫= error_of = Some BroadcastError /\
  last (trace_of run) =
    Some (Ev_print "❌ SDK Error during resolution: encoding" (Returns tt)).
Proof. by vm_compute. Qed.

(** The world of the scenarios and the world that has seen another life
    differ in what was printed, in what the node holds and in the rows of
    the store; two rounds of [main] make the same calls in both. *)
Example used_world_same_calls :
  let run := @main text_sdk (reference cooperative) demo_cfg 2 used_world in
  trace_of run = trace_of (run_main cooperative 2) /\
  w_stdout (state_of run) <> w_stdout (state_of (run_main cooperative 2)) /\
  w_store (state_of run) <> w_store (state_of (run_main cooperative 2)).
Proof. split_and!; [by vm_compute | by vm_compute..]. Qed.

(** The pipeline called again after a refusal of the node makes the same
    calls on the same values, and posts the same transaction: nothing of
    the first call is left in the second. *)
Example retry_repeats_the_calls :
  let first := run_resolve (answering 503) demo_cfg in
  let second := @resolve_market text_sdk (reference (answering 503)) demo_cfg
                  "1field" 2 (state_of first) in
  result_of first = Returns false /\
  trace_of second = trace_of first /\
  count_ev is_post (trace_of second) = 1.
Proof. by vm_compute. Qed.

(** The longest run of the pipeline: its last print raises, and the
    [except] clause prints once more. *)
Example resolve_market_longest_run :
  length (trace_of (run_resolve (failing_at 31 (Exception "encoding")) demo_cfg)) =
    resolve_market_calls /\
  length (trace_of (run_resolve cooperative demo_cfg)) = 32.
Proof. by vm_compute. Qed.

(** The module run as the program, its settings in the [.env] file: the
    due market is resolved in the first round. *)
Example worker_settings_from_dotenv :
  result_of (run_load_config dotenv_world) = Returns demo_cfg /\
  summary (run_worker cooperative "__main__" 1 dotenv_world) =
    (Returns tt, ["2field"], 1, 1).
Proof. by vm_compute. Qed.

(** A setting of the environment is not overridden by the file. *)
Example worker_environ_first :
  result_of (run_load_config environ_world) =
    Returns {| ORACLE_PRIVATE_KEY := Some "APrivateKey1zkp";
               ALEO_NODE_URL := Some "https://other" |}.
Proof. by vm_compute. Qed.

(** Without settings the module starts all the same; every round prints
    the notice for the due market and leaves it pending. *)
Example worker_without_settings :
  result_of (run_load_config demo_world) =
    Returns {| ORACLE_PRIVATE_KEY := None; ALEO_NODE_URL := None |} /\
  summary (run_worker cooperative "__main__" 2 demo_world) =
    (Returns tt, ["1field"; "2field"], 0, 0).
Proof. by vm_compute. Qed.

(** The module imported by another: the settings are read, [main] is not
    run. *)
Example worker_imported :
  length (trace_of (run_worker cooperative "worker" 5 dotenv_world)) = 11.
Proof. by vm_compute. Qed.
